(** * BadgerDB buffer manager ([src/buffer.cpp]): a shallow embedding

    The buffer manager of [namespace badgerdb] is embedded as a state and
    exception monad over a [World]: the [BufMgr] object (descriptor table,
    frame pool, page-location hash table, clock hand) together with the log of
    the calls it makes on the [File] collaborator.  A C++ exception leaves the
    mutations made before the [throw] in place, so a computation returns its
    outcome *and* the state it reached. *)

From stdpp Require Import base numbers option list strings gmap.

Local Open Scope N_scope.

(** ** Data model *)

(** [FrameId] and [PageId] are [std::uint32_t]; a [File*] is compared by
    address, and the null pointer is address 0. *)
Abbreviation FrameId := N (only parsing).
Abbreviation PageId := N (only parsing).
Abbreviation FilePtr := N (only parsing).

Definition NULL : FilePtr := 0.

Definition UINT32_MOD : N := 4294967296.

(** Unsigned 32-bit wrap-around. *)
Definition wrap32 (x : N) : N := x mod UINT32_MOD.

(** Modelled from the spec: the [Page] class is declared outside
    [buffer.cpp]; a page is an opaque block of bytes carrying its page
    number, and the default-constructed page has the sentinel number 0. *)
Record Page := mkPage { page_number : PageId; page_data : string }.

Definition Page_default : Page := {| page_number := 0; page_data := "" |}.

(** Modelled from the spec: the [BufDesc] class is declared in [buffer.h];
    its fields are the ones [buffer.cpp] reads and writes, [pinCnt] being a
    non-negative integer. *)
Record BufDesc := mkBufDesc {
  file : FilePtr;
  pageNo : PageId;
  frameNo : FrameId;
  pinCnt : N;
  dirty : bool;
  valid : bool;
  refbit : bool
}.

(** Modelled from the spec: [BufDesc::Set] (section 4.4):
    valid=true, file=file, page_no=page_no, pin_count=1, dirty=false,
    refbit=true; [frameNo] is immutable. *)
Definition BufDesc_Set (d : BufDesc) (filePtr : FilePtr) (pageNum : PageId) : BufDesc :=
  {| file := filePtr; pageNo := pageNum; frameNo := frameNo d;
     pinCnt := 1; dirty := false; valid := true; refbit := true |}.

(** Modelled from the spec: [BufDesc::Clear] (section 4.4):
    valid=false, file=unset, page_no=0, pin_count=0, dirty=false,
    refbit=false; [frameNo] is immutable. *)
Definition BufDesc_Clear (d : BufDesc) : BufDesc :=
  {| file := NULL; pageNo := 0; frameNo := frameNo d;
     pinCnt := 0; dirty := false; valid := false; refbit := false |}.

(** Field assignments used by [buffer.cpp]. *)
Definition set_refbit (b : bool) (d : BufDesc) : BufDesc :=
  {| file := file d; pageNo := pageNo d; frameNo := frameNo d;
     pinCnt := pinCnt d; dirty := dirty d; valid := valid d; refbit := b |}.

Definition set_dirty (b : bool) (d : BufDesc) : BufDesc :=
  {| file := file d; pageNo := pageNo d; frameNo := frameNo d;
     pinCnt := pinCnt d; dirty := b; valid := valid d; refbit := refbit d |}.

Definition set_pinCnt (n : N) (d : BufDesc) : BufDesc :=
  {| file := file d; pageNo := pageNo d; frameNo := frameNo d;
     pinCnt := n; dirty := dirty d; valid := valid d; refbit := refbit d |}.

Definition set_valid (b : bool) (d : BufDesc) : BufDesc :=
  {| file := file d; pageNo := pageNo d; frameNo := frameNo d;
     pinCnt := pinCnt d; dirty := dirty d; valid := b; refbit := refbit d |}.

Definition set_frameNo (n : FrameId) (d : BufDesc) : BufDesc :=
  {| file := file d; pageNo := pageNo d; frameNo := n;
     pinCnt := pinCnt d; dirty := dirty d; valid := valid d; refbit := refbit d |}.

(** Modelled from the spec: a descriptor "begins invalid ([valid=false],
    everything else zeroed)"; the [BufDesc] constructor is in [buffer.h]. *)
Definition BufDesc_zero : BufDesc :=
  {| file := NULL; pageNo := 0; frameNo := 0;
     pinCnt := 0; dirty := false; valid := false; refbit := false |}.

(** The [BufMgr] object.  [bufDescTable] and [bufPool] are the two arrays of
    [numBufs] elements allocated by the constructor; [numBufs] is [const]
    and is the length of [bufDescTable]. *)
Record BufMgr := mkBufMgr {
  bufDescTable : list BufDesc;
  bufPool : list Page;
  hashTable : gmap (N * N) N;
  clockHand : FrameId
}.

Definition numBufs (bm : BufMgr) : N := N.of_nat (length (bufDescTable bm)).

(** Calls made on the [File] collaborator, most recent last. *)
Inductive FileCall :=
  | CallReadPage (f : FilePtr) (p : PageId)
  | CallWritePage (f : FilePtr) (pg : Page)
  | CallAllocatePage (f : FilePtr)
  | CallDeletePage (f : FilePtr) (p : PageId).

Record World := mkWorld { mgr : BufMgr; fileCalls : list FileCall }.

(** The exceptions of [buffer.cpp], with the arguments they are thrown
    with ([file->filename()] is represented by the file itself).
    [FileIOException] stands for whatever [File::readPage] raises. *)
Inductive Exn :=
  | BufferExceededException
  | PageNotPinnedException (f : FilePtr) (p : PageId) (fr : FrameId)
  | PagePinnedException (f : FilePtr) (p : PageId) (fr : FrameId)
  | BadBufferException (fr : FrameId) (dirtyIn validIn refbitIn : bool)
  | HashNotFoundException
  | FileIOException.

Inductive Outcome (A : Type) :=
  | Ok (a : A)
  | Throw (e : Exn).
Arguments Ok {A} a.
Arguments Throw {A} e.

(** ** The state and exception monad *)

Definition M (A : Type) : Type := World -> Outcome A * World.

Definition ret {A} (a : A) : M A := fun w => (Ok a, w).

Definition throw {A} (e : Exn) : M A := fun w => (Throw e, w).

Definition bind {A B} (m : M A) (k : A -> M B) : M B :=
  fun w => match m w with
           | (Ok a, w') => k a w'
           | (Throw e, w') => (Throw e, w')
           end.

Notation "x <- m ;; k" := (bind m (fun x => k))
  (at level 20, m at level 99, k at level 200, only parsing).
Notation "m ;;; k" := (bind m (fun _ => k))
  (at level 100, k at level 200, only parsing, right associativity).

(** [try { body } catch (HashNotFoundException) { handler }]. *)
Definition catch_HashNotFound {A} (body handler : M A) : M A :=
  fun w => match body w with
           | (Throw HashNotFoundException, w') => handler w'
           | r => r
           end.

Definition with_mgr (f : BufMgr -> BufMgr) : M unit :=
  fun w => (Ok tt, {| mgr := f (mgr w); fileCalls := fileCalls w |}).

Definition log_call (c : FileCall) : M unit :=
  fun w => (Ok tt, {| mgr := mgr w; fileCalls := fileCalls w ++ [c] |}).

(** *** Array accesses.
    Indexing past the end of an array is undefined in C++; the model reads a
    zeroed element there and drops a write. *)
Definition descAt (bm : BufMgr) (i : FrameId) : BufDesc :=
  default BufDesc_zero (bufDescTable bm !! N.to_nat i).

Definition pageAt (bm : BufMgr) (i : FrameId) : Page :=
  default Page_default (bufPool bm !! N.to_nat i).

Definition put_desc (i : FrameId) (d : BufDesc) (bm : BufMgr) : BufMgr :=
  {| bufDescTable := <[N.to_nat i := d]> (bufDescTable bm);
     bufPool := bufPool bm; hashTable := hashTable bm; clockHand := clockHand bm |}.

Definition put_page (i : FrameId) (pg : Page) (bm : BufMgr) : BufMgr :=
  {| bufDescTable := bufDescTable bm;
     bufPool := <[N.to_nat i := pg]> (bufPool bm);
     hashTable := hashTable bm; clockHand := clockHand bm |}.

Definition put_hash (h : gmap (N * N) N) (bm : BufMgr) : BufMgr :=
  {| bufDescTable := bufDescTable bm; bufPool := bufPool bm;
     hashTable := h; clockHand := clockHand bm |}.

Definition put_clockHand (c : FrameId) (bm : BufMgr) : BufMgr :=
  {| bufDescTable := bufDescTable bm; bufPool := bufPool bm;
     hashTable := hashTable bm; clockHand := c |}.

Definition getDesc (i : FrameId) : M BufDesc := fun w => (Ok (descAt (mgr w) i), w).

Definition getPage (i : FrameId) : M Page := fun w => (Ok (pageAt (mgr w) i), w).

(** [bufDescTable[i].field = ...] : read-modify-write of one descriptor. *)
Definition updDesc (i : FrameId) (f : BufDesc -> BufDesc) : M unit :=
  with_mgr (fun bm => put_desc i (f (descAt bm i)) bm).

Definition setPage (i : FrameId) (pg : Page) : M unit := with_mgr (put_page i pg).

(** *** The page-location hash table ([BufHashTbl]).
    Modelled from the spec: [BufHashTbl] is implemented outside
    [buffer.cpp]; section 4.3 gives [lookup] (fails with NotFound),
    [insert], and [remove] (fails with NotFound). *)
Definition hash_lookup (f : FilePtr) (p : PageId) : M FrameId :=
  fun w => match hashTable (mgr w) !! (f, p) with
           | Some fr => (Ok fr, w)
           | None => (Throw HashNotFoundException, w)
           end.

Definition hash_insert (f : FilePtr) (p : PageId) (fr : FrameId) : M unit :=
  with_mgr (fun bm => put_hash (<[(f, p) := fr]> (hashTable bm)) bm).

Definition hash_remove (f : FilePtr) (p : PageId) : M unit :=
  fun w => match hashTable (mgr w) !! (f, p) with
           | Some _ => with_mgr (fun bm => put_hash (delete (f, p) (hashTable bm)) bm) w
           | None => (Throw HashNotFoundException, w)
           end.

(** [for (std::uint32_t i = 0; i < numBufs; i++) body(i)], started at [i]
    with [n] iterations left. *)
Fixpoint for_frames (n : nat) (i : N) (body : N -> M unit) : M unit :=
  match n with
  | O => ret tt
  | S n' => body i ;;; for_frames n' (N.succ i) body
  end.

Definition for_all_frames (body : N -> M unit) : M unit :=
  fun w => for_frames (length (bufDescTable (mgr w))) 0 body w.

(** ** The operations of [buffer.cpp] *)

(** [BufMgr::BufMgr(bufs)]. *)
Definition BufMgr_new (bufs : N) : BufMgr :=
  {| bufDescTable :=
       map (fun i => set_valid false (set_frameNo (N.of_nat i) BufDesc_zero))
           (seq 0 (N.to_nat bufs));
     bufPool := replicate (N.to_nat bufs) Page_default;
     hashTable := ∅;
     clockHand := wrap32 (bufs + UINT32_MOD - 1) |}.

(** [BufMgr::advanceClock].  (With no frame at all the C++ remainder is
    undefined; [allocBuf] throws before it ever advances the clock then.) *)
Definition advanceClock : M unit :=
  with_mgr (fun bm => put_clockHand (wrap32 (clockHand bm + 1) mod numBufs bm) bm).

(** [BufMgr::flushFile], first loop: validation. *)
Definition flushFile_check (filePtr : FilePtr) (i : N) : M unit :=
  d <- getDesc i ;;
  if file d =? filePtr then
    if 1 <=? pinCnt d then throw (PagePinnedException filePtr (pageNo d) (frameNo d))
    else if pageNo d =? 0 then
      throw (BadBufferException (frameNo d) (dirty d) (valid d) (refbit d))
    else ret tt
  else ret tt.

(** [BufMgr::flushFile], second loop: write-back, unmap, clear. *)
Definition flushFile_commit (filePtr : FilePtr) (i : N) : M unit :=
  d <- getDesc i ;;
  if file d =? filePtr then
    (if dirty d then
       pg <- getPage i ;;
       log_call (CallWritePage (file d) pg) ;;;
       updDesc i (set_dirty false)
     else ret tt) ;;;
    d' <- getDesc i ;;
    hash_remove filePtr (pageNo d') ;;;
    updDesc i BufDesc_Clear
  else ret tt.

(** [BufMgr::flushFile]. *)
Definition flushFile (filePtr : FilePtr) : M unit :=
  for_all_frames (flushFile_check filePtr) ;;;
  for_all_frames (flushFile_commit filePtr).

(** [BufMgr::allocBuf], the scan for an unpinned frame. *)
Definition has_unpinned (bm : BufMgr) : bool :=
  existsb (fun d => pinCnt d =? 0) (bufDescTable bm).

(** One iteration of the [while(true)] loop of [BufMgr::allocBuf]:
    [None] is [continue], [Some frame] is [frame = ...; return]. *)
Definition clock_iteration : M (option FrameId) :=
  advanceClock ;;;
  index <- (fun w => (Ok (clockHand (mgr w)), w)) ;;
  d <- getDesc index ;;
  if valid d then
    if refbit d then
      updDesc index (set_refbit false) ;;; ret None
    else if 1 <=? pinCnt d then ret None
    else
      (if dirty d then flushFile (file d) else ret tt) ;;;
      d' <- getDesc index ;;
      ret (Some (frameNo d'))
  else ret (Some (frameNo d)).

(** The [while(true)] loop, run for at most [fuel] iterations; [None] when
    the fuel is used up before the loop is left. *)
Fixpoint clock_loop (fuel : nat) (w : World) : option (Outcome FrameId * World) :=
  match fuel with
  | O => None
  | S fuel' =>
      match clock_iteration w with
      | (Ok None, w') => clock_loop fuel' w'
      | (Ok (Some frame), w') => Some (Ok frame, w')
      | (Throw e, w') => Some (Throw e, w')
      end
  end.

(** [BufMgr::allocBuf]. *)
Definition allocBuf (fuel : nat) (w : World) : option (Outcome FrameId * World) :=
  if has_unpinned (mgr w) then clock_loop fuel w
  else Some (Throw BufferExceededException, w).

(** The cleanup both callers of [allocBuf] perform on the returned frame. *)
Definition unmap_victim (newFrameId : FrameId) : M unit :=
  d <- getDesc newFrameId ;;
  if valid d then
    catch_HashNotFound (hash_remove (file d) (pageNo d)) (ret tt)
  else ret tt.

(** [BufMgr::unPinPage]. *)
Definition unPinPage (filePtr : FilePtr) (pageNum : PageId) (dirtyFlag : bool) : M unit :=
  catch_HashNotFound
    (currentFrameId <- hash_lookup filePtr pageNum ;;
     d <- getDesc currentFrameId ;;
     if pinCnt d =? 0 then
       throw (PageNotPinnedException filePtr pageNum currentFrameId)
     else
       updDesc currentFrameId (fun d => set_pinCnt (pinCnt d - 1) d) ;;;
       if dirtyFlag then updDesc currentFrameId (set_dirty true) else ret tt)
    (ret tt).

(** [BufMgr::disposePage]. *)
Definition disposePage (filePtr : FilePtr) (pageNum : PageId) : M unit :=
  catch_HashNotFound
    (currentFrameId <- hash_lookup filePtr pageNum ;;
     updDesc currentFrameId BufDesc_Clear ;;;
     d <- getDesc currentFrameId ;;
     hash_remove filePtr (pageNo d))
    (ret tt) ;;;
  log_call (CallDeletePage filePtr pageNum).

Section Collaborator.

(** The [File] collaborator: what [File::readPage] and
    [File::allocatePage] answer, given the calls made so far.
    [File::readPage] may raise. *)
Variable file_readPage : FilePtr -> PageId -> list FileCall -> option Page.
Variable file_allocatePage : FilePtr -> list FileCall -> Page.

Definition do_readPage (f : FilePtr) (p : PageId) : M Page :=
  fun w =>
    let w' := {| mgr := mgr w; fileCalls := fileCalls w ++ [CallReadPage f p] |} in
    match file_readPage f p (fileCalls w) with
    | Some pg => (Ok pg, w')
    | None => (Throw FileIOException, w')
    end.

Definition do_allocatePage (f : FilePtr) : M Page :=
  fun w =>
    (Ok (file_allocatePage f (fileCalls w)),
     {| mgr := mgr w; fileCalls := fileCalls w ++ [CallAllocatePage f] |}).

(** [BufMgr::readPage]; the result is the index of the frame whose
    address is stored in [page]. *)
Definition readPage (fuel : nat) (filePtr : FilePtr) (pageNum : PageId)
    (w : World) : option (Outcome FrameId * World) :=
  match hash_lookup filePtr pageNum w with
  | (Ok currentFrameId, w1) =>
      Some ((updDesc currentFrameId (set_refbit true) ;;;
             updDesc currentFrameId (fun d => set_pinCnt (pinCnt d + 1) d) ;;;
             ret currentFrameId) w1)
  | (Throw HashNotFoundException, w1) =>
      match allocBuf fuel w1 with
      | None => None
      | Some (Throw e, w2) => Some (Throw e, w2)
      | Some (Ok newFrameId, w2) =>
          Some ((unmap_victim newFrameId ;;;
                 pg <- do_readPage filePtr pageNum ;;
                 setPage newFrameId pg ;;;
                 hash_insert filePtr pageNum newFrameId ;;;
                 updDesc newFrameId (fun d => BufDesc_Set d filePtr pageNum) ;;;
                 ret newFrameId) w2)
      end
  | (Throw e, w1) => Some (Throw e, w1)
  end.

(** [BufMgr::allocPage]; the result is the new page number and the index
    of the frame whose address is stored in [page]. *)
Definition allocPage (fuel : nat) (filePtr : FilePtr)
    (w : World) : option (Outcome (PageId * FrameId) * World) :=
  match do_allocatePage filePtr w with
  | (Ok newPage, w1) =>
      let pageNum := page_number newPage in
      match allocBuf fuel w1 with
      | None => None
      | Some (Throw e, w2) => Some (Throw e, w2)
      | Some (Ok newFrameId, w2) =>
          Some ((unmap_victim newFrameId ;;;
                 hash_insert filePtr pageNum newFrameId ;;;
                 updDesc newFrameId (fun d => BufDesc_Set d filePtr pageNum) ;;;
                 setPage newFrameId newPage ;;;
                 ret (pageNum, newFrameId)) w2)
      end
  | (Throw e, w1) => Some (Throw e, w1)
  end.

End Collaborator.

(** ** A concrete collaborator, for examples

    A file whose [readPage] answers the page last written under that number
    (a blank page when there is none) and whose [allocatePage] numbers
    pages 1, 2, 3, ... per file. *)
Module MemFile.

Fixpoint last_written (f : FilePtr) (p : PageId) (calls : list FileCall) : option Page :=
  match calls with
  | [] => None
  | c :: rest =>
      match last_written f p rest with
      | Some pg => Some pg
      | None =>
          match c with
          | CallWritePage f' pg =>
              if (f' =? f) && (page_number pg =? p) then Some pg else None
          | _ => None
          end
      end
  end.

Definition readPage_answer (f : FilePtr) (p : PageId) (calls : list FileCall) : option Page :=
  Some (default {| page_number := p; page_data := "" |} (last_written f p calls)).

Definition is_allocate_of (f : FilePtr) (c : FileCall) : bool :=
  match c with
  | CallAllocatePage f' => f' =? f
  | _ => false
  end.

Definition allocatePage_answer (f : FilePtr) (calls : list FileCall) : Page :=
  {| page_number := 1 + N.of_nat (length (filter (fun c => is_allocate_of f c = true) calls));
     page_data := "" |}.

End MemFile.

(** ** Predicates used in the statements *)

(** Invariant 2 of the data model: every entry of the page-location map
    names a frame that is valid and holds exactly that page. *)
Definition map_entries_sound (bm : BufMgr) : Prop :=
  forall f p fr,
    hashTable bm !! (f, p) = Some fr ->
    exists d, bufDescTable bm !! N.to_nat fr = Some d /\
              valid d = true /\ file d = f /\ pageNo d = p.

(** Every frame is pinned. *)
Definition all_pinned (bm : BufMgr) : Prop :=
  Forall (fun d => 0 < pinCnt d) (bufDescTable bm).

(** The value the clock hand takes at the next [advanceClock]. *)
Definition next_hand (bm : BufMgr) : FrameId :=
  wrap32 (clockHand bm + 1) mod numBufs bm.

(** Number of further advances that bring a hand at [h] onto frame [j]. *)
Definition steps_to (n h j : N) : N :=
  if h <=? j then j - h else j + n - h.

(** A frame the clock takes as soon as it is under the hand. *)
Definition takeable (bm : BufMgr) (j : FrameId) : Prop :=
  pinCnt (descAt bm j) = 0 /\ (valid (descAt bm j) = true -> refbit (descAt bm j) = false).

(** *** Outcomes of [flushFile] *)

(** The two exceptions [flushFile] throws itself. *)
Definition is_PagePinned (e : Exn) : Prop :=
  match e with PagePinnedException _ _ _ => True | _ => False end.

Definition is_BadBuffer (e : Exn) : Prop :=
  match e with BadBufferException _ _ _ _ => True | _ => False end.

(** What the first loop of [flushFile] objects to in frame [j]. *)
Definition check_rejects (filePtr : FilePtr) (bm : BufMgr) (j : FrameId) (e : Exn) : Prop :=
  let d := descAt bm j in
  file d = filePtr /\
  ((1 <= pinCnt d /\ e = PagePinnedException filePtr (pageNo d) (frameNo d)) \/
   (pinCnt d = 0 /\ pageNo d = 0 /\
    e = BadBufferException (frameNo d) (dirty d) (valid d) (refbit d))).

(** The descriptor the second loop leaves in a frame. *)
Definition flushed_desc (filePtr : FilePtr) (d : BufDesc) : BufDesc :=
  if file d =? filePtr then BufDesc_Clear d else d.

(** The map after the second loop has passed descriptor [d]. *)
Definition unmap_owned (filePtr : FilePtr) (h : gmap (N * N) N) (d : BufDesc) : gmap (N * N) N :=
  if file d =? filePtr then delete (filePtr, pageNo d) h else h.

(** The calls to [File::writePage] made by the second loop for the
    descriptors [rest], which sit at indices [i], [i+1], ... *)
Fixpoint commit_writes (filePtr : FilePtr) (pool : list Page) (i : nat) (rest : list BufDesc)
  : list FileCall :=
  match rest with
  | [] => []
  | d :: rest' =>
      (if (file d =? filePtr) && dirty d
       then [CallWritePage filePtr (default Page_default (pool !! i))] else [])
      ++ commit_writes filePtr pool (S i) rest'
  end.

(** *** The clock step *)

(** The state after [advanceClock], the index under the hand and the
    descriptor found there. *)
Definition advanced (w : World) : World := snd (advanceClock w).
Definition index_of (w : World) : FrameId := clockHand (mgr (advanced w)).
Definition under_hand (w : World) : BufDesc := descAt (mgr (advanced w)) (index_of w).

(** The victim-selection step as section 4.2 of the specification words it
    (steps 1 to 7); [None] is "continue", [Some f] is "return f". *)
Inductive victim_step_spec (w : World) : Outcome (option FrameId) * World -> Prop :=
  | step_empty_slot :
      valid (under_hand w) = false ->
      victim_step_spec w (Ok (Some (frameNo (under_hand w))), advanced w)
  | step_second_chance :
      valid (under_hand w) = true ->
      refbit (under_hand w) = true ->
      victim_step_spec w
        (Ok None,
         {| mgr := put_desc (index_of w) (set_refbit false (under_hand w)) (mgr (advanced w));
            fileCalls := fileCalls w |})
  | step_in_use :
      valid (under_hand w) = true ->
      refbit (under_hand w) = false ->
      1 <= pinCnt (under_hand w) ->
      victim_step_spec w (Ok None, advanced w)
  | step_dirty_victim w2 :
      valid (under_hand w) = true ->
      refbit (under_hand w) = false ->
      pinCnt (under_hand w) = 0 ->
      dirty (under_hand w) = true ->
      flushFile (file (under_hand w)) (advanced w) = (Ok tt, w2) ->
      victim_step_spec w (Ok (Some (frameNo (under_hand w))), w2)
  | step_dirty_victim_fails e w2 :
      valid (under_hand w) = true ->
      refbit (under_hand w) = false ->
      pinCnt (under_hand w) = 0 ->
      dirty (under_hand w) = true ->
      flushFile (file (under_hand w)) (advanced w) = (Throw e, w2) ->
      victim_step_spec w (Throw e, w2)
  | step_clean_victim :
      valid (under_hand w) = true ->
      refbit (under_hand w) = false ->
      pinCnt (under_hand w) = 0 ->
      dirty (under_hand w) = false ->
      victim_step_spec w (Ok (Some (frameNo (under_hand w))), advanced w).

(** *** Relations between the state before and after a computation *)

(** [m] takes every state to one that is [R]-related to it, whatever its
    outcome. *)
Definition relates {A} (R : World -> World -> Prop) (m : M A) : Prop :=
  forall w, R w (snd (m w)).

(** The table has the same size and every descriptor the same [frameNo]. *)
Definition same_frames (w w' : World) : Prop :=
  length (bufDescTable (mgr w')) = length (bufDescTable (mgr w)) /\
  forall j, frameNo (descAt (mgr w') j) = frameNo (descAt (mgr w) j).

(** The map and the page each frame names are the same in both states. *)
Definition key_stable (w w' : World) : Prop :=
  hashTable (mgr w') = hashTable (mgr w) /\
  length (bufDescTable (mgr w')) = length (bufDescTable (mgr w)) /\
  forall j, valid (descAt (mgr w') j) = valid (descAt (mgr w) j) /\
            file (descAt (mgr w') j) = file (descAt (mgr w) j) /\
            pageNo (descAt (mgr w') j) = pageNo (descAt (mgr w) j).

(** Invariant 2 carries over from [w] to [w']. *)
Definition keeps_sound (w w' : World) : Prop :=
  map_entries_sound (mgr w) -> map_entries_sound (mgr w').

(** *** Well-formed managers *)

(** The constructor numbers the descriptors by their index. *)
Definition frames_numbered (bm : BufMgr) : Prop :=
  forall j, j < numBufs bm -> frameNo (descAt bm j) = j.

(** Descriptors numbered by index, and invariant 2. *)
Definition well_formed (bm : BufMgr) : Prop :=
  frames_numbered bm /\ map_entries_sound bm.

(** *** States the operations lead to *)

(** The descriptor [unPinPage] leaves in a pinned frame. *)
Definition unpinned_once (dirtyFlag : bool) (d : BufDesc) : BufDesc :=
  {| file := file d; pageNo := pageNo d; frameNo := frameNo d;
     pinCnt := pinCnt d - 1; dirty := dirty d || dirtyFlag;
     valid := valid d; refbit := refbit d |}.

(** The victim cleanup, in one step: the key of a valid victim leaves the
    map, whether or not it was there. *)
Definition unmapped (bm : BufMgr) (fr : FrameId) : gmap (N * N) N :=
  if valid (descAt bm fr)
  then delete (file (descAt bm fr), pageNo (descAt bm fr)) (hashTable bm)
  else hashTable bm.

(** The manager after a page has been installed in frame [fr]. *)
Definition installed (bm : BufMgr) (fr : FrameId) (filePtr : FilePtr) (pageNum : PageId)
    (pg : Page) : BufMgr :=
  {| bufDescTable :=
       <[N.to_nat fr := BufDesc_Set (descAt bm fr) filePtr pageNum]> (bufDescTable bm);
     bufPool := <[N.to_nat fr := pg]> (bufPool bm);
     hashTable := <[(filePtr, pageNum) := fr]> (unmapped bm fr);
     clockHand := clockHand bm |}.

(** ** Example states *)

Definition fileA : FilePtr := 100.

(** A fresh manager with three frames. *)
Definition world_fresh3 : World := {| mgr := BufMgr_new 3; fileCalls := [] |}.

Definition resident (f : FilePtr) (p : PageId) (fr : FrameId) (pins : N) (dirtyBit refBit : bool)
  : BufDesc :=
  {| file := f; pageNo := p; frameNo := fr; pinCnt := pins;
     dirty := dirtyBit; valid := true; refbit := refBit |}.

(** End-to-end scenario 3: three frames holding the clean, unpinned pages
    (A,1), (A,2), (A,3) with their reference bits set, the hand at N-1. *)
Definition world_full3 : World :=
  {| mgr :=
       {| bufDescTable := [resident fileA 1 0 0 false true;
                           resident fileA 2 1 0 false true;
                           resident fileA 3 2 0 false true];
          bufPool := [mkPage 1 ""; mkPage 2 ""; mkPage 3 ""];
          hashTable := <[(fileA, 3) := 2]> (<[(fileA, 2) := 1]> (<[(fileA, 1) := 0]> ∅));
          clockHand := 2 |};
     fileCalls := [CallReadPage fileA 1; CallReadPage fileA 2; CallReadPage fileA 3] |}.

(** One frame, holding the pinned page (A,1). *)
Definition world_pinned1 : World :=
  {| mgr :=
       {| bufDescTable := [resident fileA 1 0 1 false true];
          bufPool := [mkPage 1 ""];
          hashTable := <[(fileA, 1) := 0]> ∅;
          clockHand := 0 |};
     fileCalls := [CallReadPage fileA 1] |}.

(** The state scenario 3 ends in. *)
Definition world_after_read4 : World :=
  {| mgr :=
       {| bufDescTable := [resident fileA 4 0 1 false true;
                           resident fileA 2 1 0 false false;
                           resident fileA 3 2 0 false false];
          bufPool := [mkPage 4 ""; mkPage 2 ""; mkPage 3 ""];
          hashTable := <[(fileA, 4) := 0]> (<[(fileA, 3) := 2]> (<[(fileA, 2) := 1]> ∅));
          clockHand := 0 |};
     fileCalls := [CallReadPage fileA 1; CallReadPage fileA 2; CallReadPage fileA 3;
                   CallReadPage fileA 4] |}.

(** ** The destructor *)


(** *** Further vocabulary *)

(** The descriptor an invalid frame has after construction. *)
Definition empty_desc (j : FrameId) : BufDesc :=
  {| file := NULL; pageNo := 0; frameNo := j;
     pinCnt := 0; dirty := false; valid := false; refbit := false |}.

(** The descriptor a hit of [readPage] leaves in the frame. *)
Definition pinned_again (d : BufDesc) : BufDesc :=
  {| file := file d; pageNo := pageNo d; frameNo := frameNo d;
     pinCnt := pinCnt d + 1; dirty := dirty d;
     valid := valid d; refbit := true |}.

(** The descriptor left by a hit of [readPage] followed by [unPinPage]. *)
Definition touched (dirtyFlag : bool) (d : BufDesc) : BufDesc :=
  {| file := file d; pageNo := pageNo d; frameNo := frameNo d;
     pinCnt := pinCnt d; dirty := dirty d || dirtyFlag;
     valid := valid d; refbit := true |}.

(** *** Further example states *)

Definition fileB : FilePtr := 200.

(** Three frames: (A,1) dirty and unpinned, (B,7) pinned once, (A,3) clean
    and unpinned; the hand on frame 2. *)
Definition world_mixed3 : World :=
  {| mgr :=
       {| bufDescTable := [resident fileA 1 0 0 true false;
                           resident fileB 7 1 1 false true;
                           resident fileA 3 2 0 false false];
          bufPool := [mkPage 1 "x"; mkPage 7 "y"; mkPage 3 "z"];
          hashTable := <[(fileA, 3) := 2]> (<[(fileB, 7) := 1]> (<[(fileA, 1) := 0]> ∅));
          clockHand := 2 |};
     fileCalls := [] |}.

(** *** Pinned frames *)

(** Invariant 1 of the data model: every valid frame is the one the map
    gives for its page. *)
Definition frames_mapped (bm : BufMgr) : Prop :=
  forall j, j < numBufs bm -> valid (descAt bm j) = true ->
            hashTable bm !! (file (descAt bm j), pageNo (descAt bm j)) = Some j.

(** No frame of the file is pinned. *)
Definition owned_unpinned (filePtr : FilePtr) (w : World) : Prop :=
  forall j, file (descAt (mgr w) j) = filePtr -> pinCnt (descAt (mgr w) j) = 0.

(** From [w] to [w'] the pool, all pin counts and the frames pinned in [w]
    are untouched, and the map entries of the pages these hold are still
    there. *)
Definition leaves_pinned (w w' : World) : Prop :=
  length (bufDescTable (mgr w')) = length (bufDescTable (mgr w)) /\
  bufPool (mgr w') = bufPool (mgr w) /\
  (forall j, pinCnt (descAt (mgr w') j) = pinCnt (descAt (mgr w) j)) /\
  forall j, 1 <= pinCnt (descAt (mgr w) j) ->
    descAt (mgr w') j = descAt (mgr w) j /\
    forall v, hashTable (mgr w) !! (file (descAt (mgr w) j), pageNo (descAt (mgr w) j)) = Some v ->
              hashTable (mgr w') !! (file (descAt (mgr w) j), pageNo (descAt (mgr w) j)) = Some v.

(** The same, except that the reference bit of a pinned frame may have been
    cleared. *)
Definition spares_pinned (w w' : World) : Prop :=
  length (bufDescTable (mgr w')) = length (bufDescTable (mgr w)) /\
  bufPool (mgr w') = bufPool (mgr w) /\
  (forall j, pinCnt (descAt (mgr w') j) = pinCnt (descAt (mgr w) j)) /\
  forall j, 1 <= pinCnt (descAt (mgr w) j) ->
    set_refbit false (descAt (mgr w') j) = set_refbit false (descAt (mgr w) j) /\
    forall v, hashTable (mgr w) !! (file (descAt (mgr w) j), pageNo (descAt (mgr w) j)) = Some v ->
              hashTable (mgr w') !! (file (descAt (mgr w) j), pageNo (descAt (mgr w) j)) = Some v.

(** The commit loop of [flushFile], run on a file none of whose frames is
    pinned, keeps it so and leaves the pinned frames alone. *)
Definition commit_spares (filePtr : FilePtr) (w w' : World) : Prop :=
  owned_unpinned filePtr w -> owned_unpinned filePtr w' /\ leaves_pinned w w'.

(** No frame holds a page in [w'] that it did not hold in [w]. *)
Definition no_new_page (w w' : World) : Prop :=
  forall i, valid (descAt (mgr w') i) = true ->
            valid (descAt (mgr w) i) = true /\
            file (descAt (mgr w') i) = file (descAt (mgr w) i) /\
            pageNo (descAt (mgr w') i) = pageNo (descAt (mgr w) i).


(** Frame [j] holds in [w'] the page it held in [w]: same descriptor up to
    the reference bit, same bytes in the pool, and the map sends the page to
    [j]. *)
Definition page_kept (j : FrameId) (w w' : World) : Prop :=
  set_refbit false (descAt (mgr w') j) = set_refbit false (descAt (mgr w) j) /\
  pageAt (mgr w') j = pageAt (mgr w) j /\
  hashTable (mgr w') !! (file (descAt (mgr w) j), pageNo (descAt (mgr w) j)) = Some j.

(** No entry is in the map in [w'] that was not there in [w]. *)
Definition map_shrinks (w w' : World) : Prop :=
  forall k v, hashTable (mgr w') !! k = Some v -> hashTable (mgr w) !! k = Some v.

(** The state a run ends in ([w] when the fuel ran out). *)
Definition state_of {A} (r : option (Outcome A * World)) (w : World) : World :=
  match r with
  | Some (_, w') => w'
  | None => w
  end.

(** A file whose [readPage] always raises. *)
Definition failing_readPage (f : FilePtr) (p : PageId) (calls : list FileCall) : option Page :=
  None.

(** *** States reached without [disposePage] *)

(** The states a client can bring a manager to from construction by
    [readPage], [unPinPage], [allocPage] and [flushFile] (whatever their
    outcome) and by writing into the pool through the page references it was
    given. *)
Inductive reached (file_readPage : FilePtr -> PageId -> list FileCall -> option Page)
    (file_allocatePage : FilePtr -> list FileCall -> Page) : World -> Prop :=
  | reached_new bufs :
      reached file_readPage file_allocatePage {| mgr := BufMgr_new bufs; fileCalls := [] |}
  | reached_readPage w fuel f p r w' :
      reached file_readPage file_allocatePage w ->
      readPage file_readPage fuel f p w = Some (r, w') ->
      reached file_readPage file_allocatePage w'
  | reached_unPinPage w f p dirtyFlag :
      reached file_readPage file_allocatePage w ->
      reached file_readPage file_allocatePage (snd (unPinPage f p dirtyFlag w))
  | reached_allocPage w fuel f r w' :
      reached file_readPage file_allocatePage w ->
      allocPage file_allocatePage fuel f w = Some (r, w') ->
      reached file_readPage file_allocatePage w'
  | reached_flushFile w f :
      reached file_readPage file_allocatePage w ->
      reached file_readPage file_allocatePage (snd (flushFile f w))
  | reached_page_write w fr pg :
      reached file_readPage file_allocatePage w ->
      reached file_readPage file_allocatePage
        {| mgr := put_page fr pg (mgr w); fileCalls := fileCalls w |}.

(** The pool is as long as the descriptor table. *)
Definition pool_fits (bm : BufMgr) : Prop :=
  length (bufPool bm) = length (bufDescTable bm).

(** The two arrays keep their sizes. *)
Definition same_sizes (w w' : World) : Prop :=
  length (bufDescTable (mgr w')) = length (bufDescTable (mgr w)) /\
  length (bufPool (mgr w')) = length (bufPool (mgr w)).

(** * Properties *)

(** ** Basic facts *)

Ltac unfold_M :=
  unfold bind, ret, throw, catch_HashNotFound, getDesc, getPage,
    updDesc, setPage, hash_lookup, hash_insert, hash_remove, with_mgr, log_call in *.

Lemma descAt_put_desc_eq bm i d :
  (N.to_nat i < length (bufDescTable bm))%nat ->
  descAt (put_desc i d bm) i = d.
Proof.
  intros Hlt. unfold descAt, put_desc. simpl.
  by rewrite list_lookup_insert_eq.
Qed.

Lemma descAt_put_desc_ne bm i j d :
  i <> j -> descAt (put_desc i d bm) j = descAt bm j.
Proof.
  intros Hne. unfold descAt, put_desc. simpl.
  rewrite list_lookup_insert_ne; [done | lia].
Qed.

Lemma descAt_put_desc_out bm i d :
  (length (bufDescTable bm) <= N.to_nat i)%nat ->
  put_desc i d bm = bm.
Proof.
  intros Hge. unfold put_desc. rewrite list_insert_ge by done. by destruct bm.
Qed.

Lemma numBufs_put_desc bm i d : numBufs (put_desc i d bm) = numBufs bm.
Proof. unfold numBufs, put_desc. simpl. by rewrite length_insert. Qed.

Lemma descAt_in_range bm i :
  (N.to_nat i < length (bufDescTable bm))%nat ->
  bufDescTable bm !! N.to_nat i = Some (descAt bm i).
Proof.
  intros Hlt. unfold descAt.
  destruct (lookup_lt_is_Some_2 _ _ Hlt) as [d Hd]. by rewrite Hd.
Qed.

Lemma has_unpinned_spec bm :
  has_unpinned bm = true <-> exists j, j < numBufs bm /\ pinCnt (descAt bm j) = 0.
Proof.
  unfold has_unpinned, numBufs. rewrite existsb_exists. split.
  - intros (d & Hin & Hd). apply N.eqb_eq in Hd.
    apply list_elem_of_In, list_elem_of_lookup in Hin as [k Hk].
    exists (N.of_nat k). split.
    + apply lookup_lt_Some in Hk. lia.
    + unfold descAt. rewrite Nat2N.id, Hk. done.
  - intros (j & Hj & Hp).
    assert (Hlt : (N.to_nat j < length (bufDescTable bm))%nat) by lia.
    exists (descAt bm j). split.
    + apply list_elem_of_In, list_elem_of_lookup. exists (N.to_nat j).
      by apply descAt_in_range.
    + by apply N.eqb_eq.
Qed.

Lemma has_unpinned_false bm : has_unpinned bm = false <-> all_pinned bm.
Proof.
  unfold has_unpinned, all_pinned. rewrite Forall_forall. split.
  - intros H d Hin.
    destruct (N.eq_dec (pinCnt d) 0) as [Hz|Hz]; [|lia].
    assert (existsb (fun d => pinCnt d =? 0) (bufDescTable bm) = true).
    { apply existsb_exists. exists d. split; [by apply list_elem_of_In|by apply N.eqb_eq]. }
    congruence.
  - intros H. apply not_true_is_false. intros Hex.
    apply existsb_exists in Hex as (d & Hin & Hd). apply N.eqb_eq in Hd.
    apply list_elem_of_In in Hin. specialize (H d Hin). lia.
Qed.

(** ** [flushFile]: the validation pass *)

Lemma flushFile_check_state filePtr i w : snd (flushFile_check filePtr i w) = w.
Proof.
  unfold flushFile_check. unfold_M.
  repeat (case_match; simpl; try done).
Qed.

Lemma flushFile_check_throw filePtr i w e w' :
  flushFile_check filePtr i w = (Throw e, w') -> check_rejects filePtr (mgr w) i e.
Proof.
  unfold flushFile_check, check_rejects. unfold_M.
  destruct (file (descAt (mgr w) i) =? filePtr) eqn:Hf; [|done].
  apply N.eqb_eq in Hf.
  destruct (1 <=? pinCnt (descAt (mgr w) i)) eqn:Hp.
  - apply N.leb_le in Hp. intros [= <- <-]. split; [done|]. left. done.
  - apply N.leb_gt in Hp.
    destruct (pageNo (descAt (mgr w) i) =? 0) eqn:Hz; [|done].
    apply N.eqb_eq in Hz. intros [= <- <-]. split; [done|]. right.
    split; [lia|]. done.
Qed.

Lemma for_frames_check_state filePtr n : forall i w,
  snd (for_frames n i (flushFile_check filePtr) w) = w.
Proof.
  induction n as [|n IH]; intros i w; simpl; [done|].
  unfold bind.
  pose proof (flushFile_check_state filePtr i w) as Hs.
  destruct (flushFile_check filePtr i w) as [[[]|e] w1]; simpl in Hs; subst w1.
  - apply IH.
  - done.
Qed.

Lemma for_frames_check_throw filePtr n : forall i w e w',
  for_frames n i (flushFile_check filePtr) w = (Throw e, w') ->
  exists j, i <= j /\ j < i + N.of_nat n /\ check_rejects filePtr (mgr w) j e.
Proof.
  induction n as [|n IH]; intros i w e w'; simpl; [done|].
  unfold bind.
  pose proof (flushFile_check_state filePtr i w) as Hs.
  destruct (flushFile_check filePtr i w) as [[[]|e1] w1] eqn:Hc; simpl in Hs; subst w1.
  - intros H. apply IH in H as (j & H1 & H2 & H3). exists j. split_and!; [lia|lia|done].
  - intros [= <- <-]. exists i. split_and!; [lia|lia|].
    by eapply flushFile_check_throw.
Qed.

(** ** [flushFile]: the commit pass *)

Lemma flushFile_commit_throw filePtr i w e w' :
  flushFile_commit filePtr i w = (Throw e, w') -> e = HashNotFoundException.
Proof.
  unfold flushFile_commit. unfold_M.
  destruct (file (descAt (mgr w) i) =? filePtr); [|done].
  destruct (dirty (descAt (mgr w) i)); simpl;
    match goal with
    | |- context [hashTable ?m !! ?k] => destruct (hashTable m !! k)
    end; simpl; unfold with_mgr; congruence.
Qed.

Lemma for_frames_commit_throw filePtr n : forall i w e w',
  for_frames n i (flushFile_commit filePtr) w = (Throw e, w') ->
  e = HashNotFoundException.
Proof.
  induction n as [|n IH]; intros i w e w'; simpl; [done|].
  unfold bind.
  destruct (flushFile_commit filePtr i w) as [[[]|e1] w1] eqn:Hc.
  - apply IH.
  - intros [= <- <-]. by eapply flushFile_commit_throw.
Qed.

Lemma flushFile_throw filePtr w e w' :
  flushFile filePtr w = (Throw e, w') ->
  (w' = w /\ exists j, j < numBufs (mgr w) /\ check_rejects filePtr (mgr w) j e)
  \/ e = HashNotFoundException.
Proof.
  unfold flushFile, bind, for_all_frames.
  pose proof (for_frames_check_state filePtr (length (bufDescTable (mgr w))) 0 w) as Hs.
  destruct (for_frames _ 0 (flushFile_check filePtr) w) as [[[]|e1] w1] eqn:Hc;
    simpl in Hs; subst w1.
  - intros H. right. by eapply for_frames_commit_throw.
  - intros [= <- <-]. left. split; [done|].
    apply for_frames_check_throw in Hc as (j & H1 & H2 & H3).
    exists j. split; [unfold numBufs; lia|done].
Qed.

Lemma flushFile_never_BufferExceeded filePtr w w' :
  flushFile filePtr w <> (Throw BufferExceededException, w').
Proof.
  intros H. apply flushFile_throw in H as [(_ & j & _ & _ & [[_ ?]|(_ & _ & ?)]) | ?]; done.
Qed.

(** C3.  When [flushFile] raises [PagePinnedException] or
    [BadBufferException], the state it leaves is the state it was called in:
    no descriptor, pool page or map entry has changed and no call has been
    made on the file (no write-back).  The exception is raised for a frame
    whose [file] field is the flushed file (this is how the code decides that
    a frame is owned by the file) and whose [pinCnt] is at least 1
    ([PagePinnedException]) or whose [pageNo] is 0 ([BadBufferException]). *)
Theorem flushFile_failure_changes_nothing (filePtr : FilePtr) (w w' : World) (e : Exn) :
  flushFile filePtr w = (Throw e, w') ->
  is_PagePinned e \/ is_BadBuffer e ->
  mgr w' = mgr w /\ fileCalls w' = fileCalls w /\
  exists j, j < numBufs (mgr w) /\ file (descAt (mgr w) j) = filePtr /\
            (is_PagePinned e -> 1 <= pinCnt (descAt (mgr w) j)) /\
            (is_BadBuffer e -> pageNo (descAt (mgr w) j) = 0).
Proof.
  intros Hrun Hkind.
  apply flushFile_throw in Hrun as [(-> & j & Hj & Hfile & Hrej) | ->].
  - split_and!; [done|done|].
    exists j. split_and!; [done|done| |].
    + destruct Hrej as [[? _]|(_ & _ & ->)]; [done|]. intros [].
    + destruct Hrej as [[_ ->]|(_ & ? & _)]; [intros []|done].
  - destruct Hkind as [[]|[]].
Qed.

(** ** Frame numbers and table size across [flushFile] *)

Lemma same_frames_refl w : same_frames w w.
Proof. by split_and!. Qed.

Lemma same_frames_trans a b c : same_frames a b -> same_frames b c -> same_frames a c.
Proof.
  intros (H1 & H3) (H4 & H6). split_and!; [congruence|].
  intros j. by rewrite H6, H3.
Qed.

(** ** Lifting a relation through the monad *)

Section Relates.

Variable R : World -> World -> Prop.
Hypothesis R_refl : forall w, R w w.
Hypothesis R_trans : forall a b c, R a b -> R b c -> R a c.

Lemma relates_ret {A} (a : A) : relates R (ret a).
Proof. intros w. apply R_refl. Qed.

Lemma relates_throw {A} (e : Exn) : relates R (@throw A e).
Proof. intros w. apply R_refl. Qed.

Lemma relates_bind {A B} (m : M A) (k : A -> M B) :
  relates R m -> (forall a, relates R (k a)) -> relates R (bind m k).
Proof.
  intros Hm Hk w. unfold bind. specialize (Hm w).
  destruct (m w) as [[a|e] w1]; simpl in *; [|done].
  eapply R_trans; [exact Hm|apply Hk].
Qed.

Lemma relates_catch {A} (body handler : M A) :
  relates R body -> relates R handler -> relates R (catch_HashNotFound body handler).
Proof.
  intros Hb Hh w. unfold catch_HashNotFound. specialize (Hb w).
  destruct (body w) as [[a|e] w1]; simpl in *; [done|].
  destruct e; simpl; try done.
  eapply R_trans; [exact Hb|apply Hh].
Qed.

Lemma relates_getDesc i : relates R (getDesc i).
Proof. intros w. apply R_refl. Qed.

Lemma relates_getPage i : relates R (getPage i).
Proof. intros w. apply R_refl. Qed.

Lemma relates_hash_lookup f p : relates R (hash_lookup f p).
Proof. intros w. unfold hash_lookup. destruct (_ !! _); apply R_refl. Qed.

Lemma relates_hash_remove f p :
  (forall w, is_Some (hashTable (mgr w) !! (f, p)) ->
             R w {| mgr := put_hash (delete (f, p) (hashTable (mgr w))) (mgr w);
                    fileCalls := fileCalls w |}) ->
  relates R (hash_remove f p).
Proof.
  intros H w. unfold hash_remove.
  destruct (hashTable (mgr w) !! (f, p)) eqn:Hl; [|apply R_refl].
  apply H. rewrite Hl. eauto.
Qed.

Lemma relates_for_frames (body : N -> M unit) :
  (forall i, relates R (body i)) -> forall n i, relates R (for_frames n i body).
Proof.
  intros Hbody. induction n as [|n IH]; intros i; simpl.
  - apply relates_ret.
  - apply relates_bind; [apply Hbody|]. intros _. apply IH.
Qed.

Lemma relates_for_all_frames (body : N -> M unit) :
  (forall i, relates R (body i)) -> relates R (for_all_frames body).
Proof. intros Hbody w. unfold for_all_frames. by apply relates_for_frames. Qed.

End Relates.

Lemma same_frames_put_desc i d' w :
  frameNo d' = frameNo (descAt (mgr w) i) ->
  same_frames w {| mgr := put_desc i d' (mgr w); fileCalls := fileCalls w |}.
Proof.
  intros Hf. split_and!; simpl; [by rewrite length_insert|].
  intros j. destruct (decide (i = j)) as [<-|Hne].
  - destruct (decide (N.to_nat i < length (bufDescTable (mgr w)))%nat).
    + by rewrite descAt_put_desc_eq.
    + rewrite descAt_put_desc_out by lia. done.
  - by rewrite descAt_put_desc_ne.
Qed.

Lemma same_frames_updDesc i f :
  (forall d, frameNo (f d) = frameNo d) -> relates same_frames (updDesc i f).
Proof. intros Hf w. unfold updDesc, with_mgr. simpl. by apply same_frames_put_desc. Qed.

Lemma same_frames_log_call c : relates same_frames (log_call c).
Proof. intros w. by split_and!. Qed.

Lemma same_frames_hash_remove f p : relates same_frames (hash_remove f p).
Proof.
  apply relates_hash_remove; [apply same_frames_refl|]. intros w _. by split_and!.
Qed.

Lemma flushFile_commit_same_frames filePtr i :
  relates same_frames (flushFile_commit filePtr i).
Proof.
  unfold flushFile_commit.
  apply relates_bind; [apply same_frames_trans|by apply relates_getDesc, same_frames_refl|].
  intros d. destruct (file d =? filePtr); [|apply relates_ret, same_frames_refl].
  apply relates_bind; [apply same_frames_trans| |].
  - destruct (dirty d); [|apply relates_ret, same_frames_refl].
    apply relates_bind; [apply same_frames_trans|by apply relates_getPage, same_frames_refl|].
    intros pg.
    apply relates_bind; [apply same_frames_trans|apply same_frames_log_call|].
    intros _. by apply same_frames_updDesc.
  - intros _.
    apply relates_bind; [apply same_frames_trans|by apply relates_getDesc, same_frames_refl|].
    intros d'.
    apply relates_bind; [apply same_frames_trans|apply same_frames_hash_remove|].
    intros _. by apply same_frames_updDesc.
Qed.

Lemma flushFile_same_frames filePtr : relates same_frames (flushFile filePtr).
Proof.
  unfold flushFile.
  apply relates_bind; [apply same_frames_trans| |intros _].
  - intros w. unfold for_all_frames. rewrite for_frames_check_state. apply same_frames_refl.
  - apply relates_for_all_frames; [apply same_frames_refl|apply same_frames_trans|].
    apply flushFile_commit_same_frames.
Qed.

(** ** One iteration of the clock *)

Lemma clock_iteration_refines w : victim_step_spec w (clock_iteration w).
Proof.
  unfold clock_iteration, bind at 1.
  change (advanceClock w) with (Ok tt, advanced w) at 1.
  cbv beta iota. unfold bind at 1. cbv beta iota. unfold bind at 1.
  unfold getDesc at 1. cbv beta iota.
  change (descAt (mgr (advanced w)) (clockHand (mgr (advanced w)))) with (under_hand w).
  change (clockHand (mgr (advanced w))) with (index_of w).
  destruct (valid (under_hand w)) eqn:Hv; [|by apply step_empty_slot].
  destruct (refbit (under_hand w)) eqn:Hr.
  { unfold_M. simpl. apply (step_second_chance w Hv Hr). }
  destruct (1 <=? pinCnt (under_hand w)) eqn:Hp.
  { apply N.leb_le in Hp. by apply step_in_use. }
  apply N.leb_gt in Hp. assert (Hp0 : pinCnt (under_hand w) = 0) by lia.
  destruct (dirty (under_hand w)) eqn:Hd.
  - unfold bind.
    pose proof (flushFile_same_frames (file (under_hand w)) (advanced w)) as (_ & Hfr).
    destruct (flushFile (file (under_hand w)) (advanced w)) as [[[]|e] w2] eqn:Hfl.
    + unfold getDesc, ret. simpl in Hfr. rewrite Hfr.
      by eapply step_dirty_victim.
    + by eapply step_dirty_victim_fails.
  - unfold_M. by apply step_clean_victim.
Qed.

Lemma mgr_advanced w : mgr (advanced w) = put_clockHand (next_hand (mgr w)) (mgr w).
Proof. done. Qed.

Lemma fileCalls_advanced w : fileCalls (advanced w) = fileCalls w.
Proof. done. Qed.

Lemma index_of_next_hand w : index_of w = next_hand (mgr w).
Proof. done. Qed.

Lemma under_hand_descAt w : under_hand w = descAt (mgr w) (next_hand (mgr w)).
Proof. done. Qed.

Lemma next_hand_lt bm : 0 < numBufs bm -> next_hand bm < numBufs bm.
Proof. intros H. unfold next_hand. apply N.mod_lt. lia. Qed.

Lemma next_hand_succ bm :
  numBufs bm < UINT32_MOD -> clockHand bm < numBufs bm ->
  next_hand bm = if clockHand bm + 1 <? numBufs bm then clockHand bm + 1 else 0.
Proof.
  intros Hfit Hh. unfold next_hand, wrap32.
  rewrite (N.mod_small (clockHand bm + 1)) by lia.
  destruct (N.ltb_spec (clockHand bm + 1) (numBufs bm)) as [Hlt|Hge].
  - by apply N.mod_small.
  - assert (clockHand bm + 1 = numBufs bm) as -> by lia.
    apply N.Div0.mod_same.
Qed.

Lemma clock_iteration_continue w w' :
  clock_iteration w = (Ok None, w') ->
  valid (under_hand w) = true /\
  ((refbit (under_hand w) = true /\
    w' = {| mgr := put_desc (index_of w) (set_refbit false (under_hand w)) (mgr (advanced w));
            fileCalls := fileCalls w |})
   \/ (refbit (under_hand w) = false /\ 1 <= pinCnt (under_hand w) /\ w' = advanced w)).
Proof.
  intros Hit. pose proof (clock_iteration_refines w) as Hspec.
  rewrite Hit in Hspec. inversion Hspec; subst.
  - split; [done|]. left. done.
  - split; [done|]. right. done.
Qed.

(** What a [continue] leaves behind: the hand is on the visited frame, the
    table keeps its size, pin counts and valid bits are untouched and
    reference bits are only ever cleared. *)
Lemma clock_iteration_continue_frames w w' :
  clock_iteration w = (Ok None, w') ->
  clockHand (mgr w') = next_hand (mgr w) /\
  numBufs (mgr w') = numBufs (mgr w) /\
  (forall j, pinCnt (descAt (mgr w') j) = pinCnt (descAt (mgr w) j) /\
             valid (descAt (mgr w') j) = valid (descAt (mgr w) j) /\
             (refbit (descAt (mgr w') j) = true -> refbit (descAt (mgr w) j) = true)) /\
  (next_hand (mgr w) < numBufs (mgr w) ->
   pinCnt (descAt (mgr w) (next_hand (mgr w))) = 0 ->
   refbit (descAt (mgr w') (next_hand (mgr w))) = false).
Proof.
  intros Hit. apply clock_iteration_continue in Hit as [Hv [(Hr & ->)|(Hr & Hp & ->)]].
  - rewrite index_of_next_hand, under_hand_descAt, mgr_advanced in *. simpl.
    split_and!; [done|by rewrite numBufs_put_desc| |].
    + intros j. destruct (decide (next_hand (mgr w) = j)) as [<-|Hne].
      * destruct (decide (N.to_nat (next_hand (mgr w)) < length (bufDescTable (mgr w)))%nat).
        -- rewrite descAt_put_desc_eq by done. done.
        -- rewrite descAt_put_desc_out by (simpl; lia). done.
      * rewrite descAt_put_desc_ne by done. done.
    + intros Hlt _. rewrite descAt_put_desc_eq; [done|].
      simpl. unfold numBufs in Hlt. lia.
  - rewrite under_hand_descAt in *. rewrite mgr_advanced. simpl.
    split_and!; [done|done|done|]. intros _ Hz. lia.
Qed.

Lemma takeable_not_continue w w' :
  takeable (mgr w) (next_hand (mgr w)) -> clock_iteration w <> (Ok None, w').
Proof.
  intros [Hp Hr] Hit.
  apply clock_iteration_continue in Hit as [Hv [(Hr' & _)|(_ & Hp' & _)]];
    rewrite under_hand_descAt in *.
  - specialize (Hr Hv). congruence.
  - lia.
Qed.

Lemma steps_to_zero n h j : h < n -> j < n -> steps_to n h j = 0 -> h = j.
Proof. unfold steps_to. intros Hh Hj. destruct (N.leb_spec h j); lia. Qed.

Lemma steps_to_succ n h j :
  h < n -> j < n -> 0 < steps_to n h j ->
  steps_to n (if h + 1 <? n then h + 1 else 0) j + 1 = steps_to n h j.
Proof.
  unfold steps_to. intros Hh Hj.
  destruct (N.ltb_spec (h + 1) n); destruct (N.leb_spec h j);
    repeat match goal with |- context [?a <=? ?b] => destruct (N.leb_spec a b) end; lia.
Qed.

Lemma steps_to_lt n h j : h < n -> j < n -> steps_to n h j < n.
Proof. unfold steps_to. intros Hh Hj. destruct (N.leb_spec h j); lia. Qed.

Lemma clock_loop_mono fuel : forall fuel' w r,
  clock_loop fuel w = Some r -> (fuel <= fuel')%nat -> clock_loop fuel' w = Some r.
Proof.
  induction fuel as [|fuel IH]; intros fuel' w r; simpl; [done|].
  intros Hrun Hle. destruct fuel' as [|fuel']; [lia|]. simpl.
  destruct (clock_iteration w) as [[[f|]|e] w1]; try done.
  apply IH; [done|lia].
Qed.

(** A takeable frame [d] advances away from the next hand position ends the
    loop within [d + 1] iterations. *)
Lemma takeable_returns (d : nat) : forall w j,
  numBufs (mgr w) < UINT32_MOD ->
  j < numBufs (mgr w) ->
  takeable (mgr w) j ->
  steps_to (numBufs (mgr w)) (next_hand (mgr w)) j = N.of_nat d ->
  exists r, clock_loop (S d) w = Some r.
Proof.
  induction d as [|d IH]; intros w j Hfit Hj Htake Hsteps.
  - apply steps_to_zero in Hsteps; [|apply next_hand_lt; lia|done]. subst j.
    simpl. destruct (clock_iteration w) as [[[f|]|e] w1] eqn:Hit; eauto.
    by apply takeable_not_continue in Hit.
  - change (clock_loop (S (S d)) w) with
      (match clock_iteration w with
       | (Ok None, w') => clock_loop (S d) w'
       | (Ok (Some frame), w') => Some (Ok frame, w')
       | (Throw e, w') => Some (Throw e, w')
       end).
    destruct (clock_iteration w) as [[[f|]|e] w1] eqn:Hit; eauto.
    pose proof (clock_iteration_continue_frames _ _ Hit) as (Hhand & Hn & Hsame & _).
    assert (Hnh : next_hand (mgr w) < numBufs (mgr w)) by (apply next_hand_lt; lia).
    apply (IH w1 j).
    + by rewrite Hn.
    + by rewrite Hn.
    + destruct Htake as [Hp Hr]. destruct (Hsame j) as (Hp' & Hv' & Hr'). split.
      * by rewrite Hp'.
      * intros Hv. rewrite Hv' in Hv. specialize (Hr Hv).
        destruct (refbit (descAt (mgr w1) j)) eqn:E; [|done].
        specialize (Hr' eq_refl). congruence.
    + rewrite next_hand_succ by (rewrite ?Hn, ?Hhand; done).
      rewrite Hn, Hhand.
      pose proof (steps_to_succ (numBufs (mgr w)) (next_hand (mgr w)) j Hnh Hj) as Hs.
      lia.
Qed.

(** An unpinned frame [d] advances away ends the loop within [d + 1 + N]
    iterations: once it is reached its reference bit is clear, and it is
    reached again [N] advances later. *)
Lemma unpinned_returns (d : nat) : forall w j,
  numBufs (mgr w) < UINT32_MOD ->
  j < numBufs (mgr w) ->
  pinCnt (descAt (mgr w) j) = 0 ->
  steps_to (numBufs (mgr w)) (next_hand (mgr w)) j = N.of_nat d ->
  exists k r, (k <= S d + length (bufDescTable (mgr w)))%nat /\ clock_loop k w = Some r.
Proof.
  induction d as [|d IH]; intros w j Hfit Hj Hpin Hsteps.
  - apply steps_to_zero in Hsteps; [|apply next_hand_lt; lia|done]. subst j.
    destruct (clock_iteration w) as [[[f|]|e] w1] eqn:Hit.
    + exists 1%nat. eexists. split; [lia|]. simpl. by rewrite Hit.
    + pose proof (clock_iteration_continue_frames _ _ Hit) as (Hhand & Hn & Hsame & Hclr).
      set (j := next_hand (mgr w)) in *.
      assert (Hnh' : next_hand (mgr w1) < numBufs (mgr w1)) by (apply next_hand_lt; lia).
      assert (Hj1 : j < numBufs (mgr w1)) by (by rewrite Hn).
      pose proof (steps_to_lt (numBufs (mgr w1)) (next_hand (mgr w1)) j Hnh' Hj1) as Hlt.
      destruct (takeable_returns
                  (N.to_nat (steps_to (numBufs (mgr w1)) (next_hand (mgr w1)) j)) w1 j)
        as [r Hr].
      * by rewrite Hn.
      * by rewrite Hn.
      * destruct (Hsame j) as (Hp' & _ & _). split; [by rewrite Hp'|].
        intros _. apply Hclr; done.
      * by rewrite N2Nat.id.
      * eexists (S (S _)), r. split; [|simpl; rewrite Hit; exact Hr].
        assert (Hl : numBufs (mgr w1) = N.of_nat (length (bufDescTable (mgr w)))).
        { by rewrite Hn. }
        lia.
    + exists 1%nat. eexists. split; [lia|]. simpl. by rewrite Hit.
  - destruct (clock_iteration w) as [[[f|]|e] w1] eqn:Hit.
    + exists 1%nat. eexists. split; [lia|]. simpl. by rewrite Hit.
    + pose proof (clock_iteration_continue_frames _ _ Hit) as (Hhand & Hn & Hsame & _).
      assert (Hnh : next_hand (mgr w) < numBufs (mgr w)) by (apply next_hand_lt; lia).
      destruct (IH w1 j) as (k & r & Hk & Hr).
      * by rewrite Hn.
      * by rewrite Hn.
      * destruct (Hsame j) as (Hp' & _ & _). by rewrite Hp'.
      * rewrite next_hand_succ by (rewrite ?Hn, ?Hhand; done).
        rewrite Hn, Hhand.
        pose proof (steps_to_succ (numBufs (mgr w)) (next_hand (mgr w)) j Hnh Hj) as Hs.
        lia.
      * exists (S k), r. split; [|simpl; by rewrite Hit].
        assert (Hl : length (bufDescTable (mgr w1)) = length (bufDescTable (mgr w))).
        { unfold numBufs in Hn. lia. }
        lia.
    + exists 1%nat. eexists. split; [lia|]. simpl. by rewrite Hit.
Qed.

Lemma clock_iteration_throw w e w' :
  clock_iteration w = (Throw e, w') ->
  is_PagePinned e \/ is_BadBuffer e \/ e = HashNotFoundException.
Proof.
  intros Hit. pose proof (clock_iteration_refines w) as Hspec.
  rewrite Hit in Hspec. inversion Hspec; subst.
  match goal with
  | H : flushFile _ _ = (Throw _, _) |- _ =>
      apply flushFile_throw in H as [(_ & j & _ & _ & [[_ ->]|(_ & _ & ->)]) | ->]
  end; simpl; auto.
Qed.

Lemma clock_loop_throw fuel : forall w e w',
  clock_loop fuel w = Some (Throw e, w') ->
  is_PagePinned e \/ is_BadBuffer e \/ e = HashNotFoundException.
Proof.
  induction fuel as [|fuel IH]; intros w e w'; simpl; [done|].
  destruct (clock_iteration w) as [[[f|]|e1] w1] eqn:Hit; [done|apply IH|].
  intros [= <- <-]. by eapply clock_iteration_throw.
Qed.

(** ** [allocBuf] *)

(** C7.  When some frame has [pinCnt == 0] (and [numBufs] is a 32-bit
    value), the [while(true)] loop of [allocBuf] is left after at most
    [2 * numBufs] iterations, each of which advances the clock once: with a
    victim or with the exception raised by the write-back of a dirty victim.
    More fuel does not change the result. *)
Theorem allocBuf_victim_within_two_revolutions (w : World) :
  (exists j, j < numBufs (mgr w) /\ pinCnt (descAt (mgr w) j) = 0) ->
  numBufs (mgr w) < UINT32_MOD ->
  exists k r,
    (k <= 2 * length (bufDescTable (mgr w)))%nat /\
    clock_loop k w = Some r /\
    (forall fuel, (k <= fuel)%nat -> allocBuf fuel w = Some r) /\
    match fst r with
    | Ok frame => True
    | Throw e => is_PagePinned e \/ is_BadBuffer e \/ e = HashNotFoundException
    end.
Proof.
  intros (j & Hj & Hpin) Hfit.
  assert (Hnh : next_hand (mgr w) < numBufs (mgr w)) by (apply next_hand_lt; lia).
  pose proof (steps_to_lt _ _ _ Hnh Hj) as Hlt.
  destruct (unpinned_returns
              (N.to_nat (steps_to (numBufs (mgr w)) (next_hand (mgr w)) j)) w j)
    as (k & r & Hk & Hr); [done|done|done|by rewrite N2Nat.id|].
  exists k, r. split_and!.
  - unfold numBufs in Hlt at 2. lia.
  - done.
  - intros fuel Hle. unfold allocBuf.
    assert (has_unpinned (mgr w) = true) as -> by (apply has_unpinned_spec; eauto).
    by eapply clock_loop_mono.
  - destruct r as [[f|e] w']; simpl; [done|]. by eapply clock_loop_throw.
Qed.

Lemma allocBuf_victim_within_two_revolutions_witness :
  (exists j, j < numBufs (mgr world_full3) /\ pinCnt (descAt (mgr world_full3) j) = 0) /\
  numBufs (mgr world_full3) < UINT32_MOD /\
  exists k r,
    (k <= 2 * length (bufDescTable (mgr world_full3)))%nat /\
    clock_loop k world_full3 = Some r /\
    (forall fuel, (k <= fuel)%nat -> allocBuf fuel world_full3 = Some r) /\
    match fst r with
    | Ok frame => True
    | Throw e => is_PagePinned e \/ is_BadBuffer e \/ e = HashNotFoundException
    end.
Proof.
  assert (H1 : exists j, j < numBufs (mgr world_full3) /\
                         pinCnt (descAt (mgr world_full3) j) = 0).
  { exists 0. split; reflexivity. }
  assert (H2 : numBufs (mgr world_full3) < UINT32_MOD) by reflexivity.
  split; [exact H1|]. split; [exact H2|].
  exact (allocBuf_victim_within_two_revolutions world_full3 H1 H2).
Defined.

(** C4.  [allocBuf] raises [BufferExceededException] exactly when every
    frame has [pinCnt > 0], and then it leaves the whole state, clock hand
    and descriptors included, as it found it. *)
Theorem allocBuf_BufferExceeded_iff_all_pinned (fuel : nat) (w : World) :
  ((exists w', allocBuf fuel w = Some (Throw BufferExceededException, w'))
   <-> all_pinned (mgr w)) /\
  (forall w', allocBuf fuel w = Some (Throw BufferExceededException, w') -> w' = w).
Proof.
  unfold allocBuf. destruct (has_unpinned (mgr w)) eqn:Hu.
  - assert (Hno : forall w', clock_loop fuel w <> Some (Throw BufferExceededException, w')).
    { intros w' H. apply clock_loop_throw in H as [[]|[[]|?]]. done. }
    split.
    + split.
      * intros [w' H]. by apply Hno in H.
      * intros Hall. apply has_unpinned_false in Hall. congruence.
    + intros w' H. by apply Hno in H.
  - split.
    + split; [intros _; by apply has_unpinned_false|eauto].
    + by intros w' [= <-].
Qed.

(** C5.  Every iteration of the victim loop of [allocBuf] is one step of
    the specified clock: the hand is advanced, then an invalid frame is
    returned at once, a valid frame with its reference bit set loses the bit
    and is skipped, a valid pinned frame with the bit clear is skipped
    untouched, and a valid unpinned frame with the bit clear is returned,
    after [flushFile] on its file when it is dirty.  The loop goes on after a
    skip and stops otherwise. *)
Theorem allocBuf_loop_follows_clock (fuel : nat) (w : World) :
  victim_step_spec w (clock_iteration w) /\
  mgr (advanced w) =
    put_clockHand (wrap32 (clockHand (mgr w) + 1) mod numBufs (mgr w)) (mgr w) /\
  clock_loop (S fuel) w =
    match clock_iteration w with
    | (Ok None, w') => clock_loop fuel w'
    | (Ok (Some frame), w') => Some (Ok frame, w')
    | (Throw e, w') => Some (Throw e, w')
    end /\
  allocBuf fuel w =
    if has_unpinned (mgr w) then clock_loop fuel w
    else Some (Throw BufferExceededException, w).
Proof. split_and!; [apply clock_iteration_refines|done|done|done]. Qed.

(** ** [unPinPage] *)

Lemma descAt_out_of_range bm i :
  (length (bufDescTable bm) <= N.to_nat i)%nat -> descAt bm i = BufDesc_zero.
Proof. intros H. unfold descAt. by rewrite lookup_ge_None_2. Qed.

Lemma put_desc_put_desc bm i d1 d2 :
  put_desc i d2 (put_desc i d1 bm) = put_desc i d2 bm.
Proof. unfold put_desc. simpl. by rewrite list_insert_insert_eq. Qed.

(** C9.  [unPinPage] on a page that is not in the map returns without
    changing anything; on a page mapped to a frame whose [pinCnt] is 0 it
    raises [PageNotPinnedException] (and changes nothing); otherwise it
    returns after lowering that frame's [pinCnt] by one and, when the flag is
    set, setting [dirty]: [dirty] is never cleared, and nothing else in the
    manager changes. *)
Theorem unPinPage_cases (filePtr : FilePtr) (pageNum : PageId) (dirtyFlag : bool) (w : World) :
  match hashTable (mgr w) !! (filePtr, pageNum) with
  | None => unPinPage filePtr pageNum dirtyFlag w = (Ok tt, w)
  | Some fr =>
      let d := descAt (mgr w) fr in
      if pinCnt d =? 0 then
        unPinPage filePtr pageNum dirtyFlag w
        = (Throw (PageNotPinnedException filePtr pageNum fr), w)
      else
        unPinPage filePtr pageNum dirtyFlag w
        = (Ok tt, {| mgr := put_desc fr (unpinned_once dirtyFlag d) (mgr w);
                     fileCalls := fileCalls w |}) /\
        pinCnt (unpinned_once dirtyFlag d) + 1 = pinCnt d /\
        dirty (unpinned_once dirtyFlag d) = dirty d || dirtyFlag /\
        descAt (put_desc fr (unpinned_once dirtyFlag d) (mgr w)) fr = unpinned_once dirtyFlag d
  end.
Proof.
  unfold unPinPage. unfold_M.
  destruct (hashTable (mgr w) !! (filePtr, pageNum)) as [fr|] eqn:Hl; [|done].
  cbv zeta. destruct (pinCnt (descAt (mgr w) fr) =? 0) eqn:Hz; [done|].
  apply N.eqb_neq in Hz.
  assert (Hin : (N.to_nat fr < length (bufDescTable (mgr w)))%nat).
  { destruct (decide (N.to_nat fr < length (bufDescTable (mgr w)))%nat); [done|].
    rewrite descAt_out_of_range in Hz by lia. done. }
  split_and!.
  - destruct dirtyFlag; simpl.
    + rewrite descAt_put_desc_eq by done. rewrite put_desc_put_desc.
      unfold unpinned_once, set_dirty, set_pinCnt. simpl. by rewrite orb_true_r.
    + unfold unpinned_once, set_pinCnt. by rewrite orb_false_r.
  - simpl. lia.
  - done.
  - by apply descAt_put_desc_eq.
Qed.

Section CollaboratorFacts.

Variable file_readPage : FilePtr -> PageId -> list FileCall -> option Page.
Variable file_allocatePage : FilePtr -> list FileCall -> Page.

(** C10.  [allocPage] asks the file for a new page before it asks for a
    frame: when every frame is pinned it raises [BufferExceededException]
    with the call to [File::allocatePage] already made, and with the
    descriptors, the pool, the map and the clock hand as they were. *)
Theorem allocPage_all_pinned (fuel : nat) (filePtr : FilePtr) (w : World) :
  all_pinned (mgr w) ->
  allocPage file_allocatePage fuel filePtr w
  = Some (Throw BufferExceededException,
          {| mgr := mgr w; fileCalls := fileCalls w ++ [CallAllocatePage filePtr] |}).
Proof.
  intros Hall. unfold allocPage, do_allocatePage, allocBuf. simpl.
  apply has_unpinned_false in Hall. by rewrite Hall.
Qed.

End CollaboratorFacts.

Lemma allocPage_all_pinned_witness :
  all_pinned (mgr world_pinned1) /\
  allocPage MemFile.allocatePage_answer 2 fileA world_pinned1
  = Some (Throw BufferExceededException,
          {| mgr := mgr world_pinned1;
             fileCalls := fileCalls world_pinned1 ++ [CallAllocatePage fileA] |}).
Proof.
  assert (H : all_pinned (mgr world_pinned1)).
  { apply Forall_cons. split; [reflexivity|apply Forall_nil_2]. }
  split; [exact H|].
  exact (allocPage_all_pinned MemFile.allocatePage_answer 2 fileA world_pinned1 H).
Defined.

(** ** End-to-end scenario 3 *)

(** [world_full3] is what three reads and three unpins make of a fresh
    manager with three frames. *)
Example world_full3_reached :
  let rd := readPage MemFile.readPage_answer 1 in
  exists w1 w2 w3 w4 w5,
    rd fileA 1 world_fresh3 = Some (Ok 0, w1) /\
    rd fileA 2 w1 = Some (Ok 1, w2) /\
    rd fileA 3 w2 = Some (Ok 2, w3) /\
    unPinPage fileA 1 false w3 = (Ok tt, w4) /\
    unPinPage fileA 2 false w4 = (Ok tt, w5) /\
    unPinPage fileA 3 false w5 = (Ok tt, world_full3).
Proof. vm_compute. do 5 eexists. split_and!; reflexivity. Qed.

(** C6.  Scenario 3: with three frames, the hand at 2 and the clean,
    unpinned pages (A,1), (A,2), (A,3) resident with their reference bits
    set, the miss [readPage(A,4)] makes the clock skip frames 0, 1 and 2,
    clearing the three reference bits in one revolution, and take frame 0 on
    the fourth advance; page (A,4) is installed there, pinned once. *)
Theorem readPage_scenario3_evicts_frame0 :
  clockHand (mgr world_full3) = 2 /\
  hashTable (mgr world_full3) !! (fileA, 4) = None /\
  (exists s1 s2 s3 s4,
     clock_iteration world_full3 = (Ok None, s1) /\ clockHand (mgr s1) = 0 /\
     clock_iteration s1 = (Ok None, s2) /\ clockHand (mgr s2) = 1 /\
     clock_iteration s2 = (Ok None, s3) /\ clockHand (mgr s3) = 2 /\
     map refbit (bufDescTable (mgr s3)) = [false; false; false] /\
     map valid (bufDescTable (mgr s3)) = [true; true; true] /\
     clock_iteration s3 = (Ok (Some 0), s4) /\ clockHand (mgr s4) = 0) /\
  clock_loop 3 world_full3 = None /\
  (forall extra,
     readPage MemFile.readPage_answer (4 + extra) fileA 4 world_full3
     = Some (Ok 0, world_after_read4)).
Proof.
  split_and!; [reflexivity|reflexivity| |reflexivity|].
  - vm_compute. do 4 eexists. split_and!; reflexivity.
  - intros extra. vm_compute. reflexivity.
Qed.

(** ** [disposePage] and the page-location map *)

(** [disposePage] on a cached page, in general: the descriptor is cleared
    first, so the key handed to [remove] is built from the cleared
    descriptor's page number 0, not from the page being disposed. *)
Lemma disposePage_cached filePtr pageNum fr w :
  hashTable (mgr w) !! (filePtr, pageNum) = Some fr ->
  fr < numBufs (mgr w) ->
  pageNum <> 0 ->
  let w' := snd (disposePage filePtr pageNum w) in
  fst (disposePage filePtr pageNum w) = Ok tt /\
  descAt (mgr w') fr = BufDesc_Clear (descAt (mgr w) fr) /\
  hashTable (mgr w') !! (filePtr, pageNum) = Some fr /\
  fileCalls w' = fileCalls w ++ [CallDeletePage filePtr pageNum].
Proof.
  intros Hl Hfr Hp.
  assert (Hin : (N.to_nat fr < length (bufDescTable (mgr w)))%nat).
  { unfold numBufs in Hfr. lia. }
  pose proof (descAt_put_desc_eq (mgr w) fr (BufDesc_Clear (descAt (mgr w) fr)) Hin) as Hclr.
  unfold disposePage. unfold_M. rewrite Hl. cbn [mgr fileCalls]. rewrite !Hclr.
  cbn [pageNo BufDesc_Clear put_desc hashTable].
  destruct (hashTable (mgr w) !! (filePtr, 0)) eqn:H0; cbn [fst snd mgr fileCalls].
  - split_and!; [done|exact Hclr| |done].
    cbn. rewrite lookup_delete_ne; [done|]. intros [= ?]. done.
  - split_and!; [done|exact Hclr|done|done].
Qed.

(** C1 (fails on the code).  In [world_full3] page (A,2) is cached in
    frame 1.  After [disposePage(A,2)] frame 1 is cleared, the page has been
    deleted on disk, and the map still sends (A,2) to frame 1. *)
Theorem disposePage_keeps_map_entry :
  hashTable (mgr world_full3) !! (fileA, 2) = Some 1 /\
  descAt (mgr world_full3) 1 = resident fileA 2 1 0 false true /\
  exists w',
    disposePage fileA 2 world_full3 = (Ok tt, w') /\
    descAt (mgr w') 1 = BufDesc_Clear (descAt (mgr world_full3) 1) /\
    valid (descAt (mgr w') 1) = false /\
    fileCalls w' = fileCalls world_full3 ++ [CallDeletePage fileA 2] /\
    hashTable (mgr w') !! (fileA, 2) = Some 1.
Proof.
  split_and!; [reflexivity|reflexivity|].
  eexists. split_and!; [vm_compute; reflexivity|reflexivity..].
Qed.

Lemma world_full3_entries_sound : map_entries_sound (mgr world_full3).
Proof.
  intros f p fr H. simpl in H.
  rewrite !lookup_insert in H.
  repeat case_decide; simplify_eq; eauto 10.
Qed.

(** C2 (fails on the code).  [world_full3] satisfies invariant 2; the state
    [disposePage(A,2)] returns in does not: its map entry for (A,2) names
    frame 1, which is no longer valid. *)
Theorem disposePage_breaks_map_entries_sound :
  map_entries_sound (mgr world_full3) /\
  fst (disposePage fileA 2 world_full3) = Ok tt /\
  ~ map_entries_sound (mgr (snd (disposePage fileA 2 world_full3))).
Proof.
  split_and!; [apply world_full3_entries_sound|reflexivity|].
  intros Hinv.
  destruct (Hinv fileA 2 1) as (d & Hd & Hv & _); [reflexivity|].
  vm_compute in Hd. injection Hd as <-. discriminate Hv.
Qed.

(** C8 (fails on the code).  After [disposePage(A,2)] in [world_full3],
    [flushFile(A)] returns successfully, no frame is left valid, and the map
    still holds an entry keyed on file A. *)
Theorem flushFile_after_disposePage_keeps_entry :
  exists w1 w2,
    disposePage fileA 2 world_full3 = (Ok tt, w1) /\
    flushFile fileA w1 = (Ok tt, w2) /\
    map valid (bufDescTable (mgr w2)) = [false; false; false] /\
    hashTable (mgr w2) !! (fileA, 2) = Some 1.
Proof.
  do 2 eexists. split_and!; [vm_compute; reflexivity|vm_compute; reflexivity|reflexivity..].
Qed.

(** One frame holds the pinned page (A,1): [flushFile(A)] raises
    [PagePinnedException] and changes nothing. *)
Lemma flushFile_failure_changes_nothing_witness :
  flushFile fileA world_pinned1 = (Throw (PagePinnedException fileA 1 0), world_pinned1) /\
  (is_PagePinned (PagePinnedException fileA 1 0) \/
   is_BadBuffer (PagePinnedException fileA 1 0)) /\
  mgr world_pinned1 = mgr world_pinned1 /\
  fileCalls world_pinned1 = fileCalls world_pinned1 /\
  exists j, j < numBufs (mgr world_pinned1) /\
            file (descAt (mgr world_pinned1) j) = fileA /\
            (is_PagePinned (PagePinnedException fileA 1 0) ->
             1 <= pinCnt (descAt (mgr world_pinned1) j)) /\
            (is_BadBuffer (PagePinnedException fileA 1 0) ->
             pageNo (descAt (mgr world_pinned1) j) = 0).
Proof.
  assert (H1 : flushFile fileA world_pinned1
               = (Throw (PagePinnedException fileA 1 0), world_pinned1)) by reflexivity.
  assert (H2 : is_PagePinned (PagePinnedException fileA 1 0) \/
               is_BadBuffer (PagePinnedException fileA 1 0)) by (left; exact I).
  split; [exact H1|]. split; [exact H2|].
  exact (flushFile_failure_changes_nothing fileA world_pinned1 world_pinned1 _ H1 H2).
Defined.

(** ** [flushFile]: what a successful call does *)

Lemma World_eta w : {| mgr := mgr w; fileCalls := fileCalls w |} = w.
Proof. by destruct w. Qed.

Lemma BufMgr_eta bm :
  {| bufDescTable := bufDescTable bm; bufPool := bufPool bm;
     hashTable := hashTable bm; clockHand := clockHand bm |} = bm.
Proof. by destruct bm. Qed.

Lemma flushFile_commit_step filePtr i w :
  (N.to_nat i < length (bufDescTable (mgr w)))%nat ->
  let d := descAt (mgr w) i in
  flushFile_commit filePtr i w =
    if file d =? filePtr then
      let calls := fileCalls w ++
                   (if dirty d then [CallWritePage filePtr (pageAt (mgr w) i)] else []) in
      match hashTable (mgr w) !! (filePtr, pageNo d) with
      | Some _ =>
          (Ok tt,
           {| mgr := put_hash (delete (filePtr, pageNo d) (hashTable (mgr w)))
                       (put_desc i (BufDesc_Clear d) (mgr w));
              fileCalls := calls |})
      | None =>
          (Throw HashNotFoundException,
           {| mgr := if dirty d then put_desc i (set_dirty false d) (mgr w) else mgr w;
              fileCalls := calls |})
      end
    else (Ok tt, w).
Proof.
  intros Hin. cbv zeta. unfold flushFile_commit. unfold_M.
  destruct (file (descAt (mgr w) i) =? filePtr) eqn:Hf; [|done]. apply N.eqb_eq in Hf.
  destruct (dirty (descAt (mgr w) i)) eqn:Hd; cbn [mgr fileCalls fst snd].
  - rewrite !descAt_put_desc_eq by done. cbn [pageNo set_dirty put_desc hashTable].
    rewrite Hf.
    destruct (hashTable (mgr w) !! (filePtr, pageNo (descAt (mgr w) i))); [|done].
    cbn [mgr fileCalls]. do 2 f_equal.
    unfold put_hash, put_desc, descAt. cbn.
    rewrite list_lookup_insert_eq by done. cbn. by rewrite list_insert_insert_eq.
  - rewrite app_nil_r.
    destruct (hashTable (mgr w) !! (filePtr, pageNo (descAt (mgr w) i)));
      [|by rewrite World_eta].
    cbn [mgr fileCalls]. done.
Qed.

Lemma for_frames_commit_ok filePtr : forall rest pre w w',
  bufDescTable (mgr w) = pre ++ rest ->
  for_frames (length rest) (N.of_nat (length pre)) (flushFile_commit filePtr) w = (Ok tt, w') ->
  bufDescTable (mgr w') = pre ++ map (flushed_desc filePtr) rest /\
  bufPool (mgr w') = bufPool (mgr w) /\
  clockHand (mgr w') = clockHand (mgr w) /\
  hashTable (mgr w') = foldl (unmap_owned filePtr) (hashTable (mgr w)) rest /\
  fileCalls w' = fileCalls w ++ commit_writes filePtr (bufPool (mgr w)) (length pre) rest.
Proof.
  induction rest as [|d rest IH]; intros pre w w' Htab.
  - simpl. unfold ret. intros [= <-]. rewrite !app_nil_r. by rewrite app_nil_r in Htab.
  - cbn [length for_frames]. unfold bind.
    assert (Hin : (N.to_nat (N.of_nat (length pre)) < length (bufDescTable (mgr w)))%nat).
    { rewrite Htab, length_app, Nat2N.id. simpl. lia. }
    assert (Hd : descAt (mgr w) (N.of_nat (length pre)) = d).
    { unfold descAt. rewrite Nat2N.id, Htab, list_lookup_middle; done. }
    rewrite (flushFile_commit_step filePtr _ w Hin). cbv zeta. rewrite Hd.
    assert (Hnext : N.succ (N.of_nat (length pre)) = N.of_nat (length (pre ++ [flushed_desc filePtr d]))).
    { rewrite length_app. simpl. lia. }
    cbn [map foldl commit_writes]. unfold flushed_desc at 1, unmap_owned at 2.
    destruct (file d =? filePtr) eqn:Hf.
    + destruct (hashTable (mgr w) !! (filePtr, pageNo d)) eqn:Hl; [|done].
      rewrite Hnext. unfold flushed_desc at 1. rewrite Hf. intros Hrun.
      apply IH in Hrun as (H1 & H2 & H3 & H4 & H5).
      * cbn [mgr fileCalls put_hash put_desc bufDescTable bufPool clockHand hashTable] in *.
        rewrite H1, H2, H3, H4, H5. split_and!; try done.
        -- by rewrite <- app_assoc.
        -- rewrite length_app, <- !app_assoc. cbn [length].
           rewrite Nat.add_1_r. do 2 f_equal.
           unfold pageAt. rewrite Nat2N.id. cbn. done.
      * cbn [mgr put_hash put_desc bufDescTable]. rewrite Nat2N.id, Htab.
        rewrite insert_app_r_alt by lia. rewrite Nat.sub_diag. cbn.
        by rewrite <- app_assoc.
    + rewrite Hnext. unfold flushed_desc at 1. rewrite Hf. intros Hrun.
      apply IH in Hrun as (H1 & H2 & H3 & H4 & H5).
      * rewrite H1, H2, H3, H4, H5. split_and!; try done.
        -- by rewrite <- app_assoc.
        -- rewrite length_app. cbn [length]. rewrite Nat.add_1_r. done.
      * rewrite Htab. by rewrite <- app_assoc.
Qed.

(** A successful [flushFile]: every descriptor owned by the file is
    cleared, the pool and the hand are untouched, the keys of the owned
    frames are removed from the map, and the page of each owned dirty frame is
    written once, in frame order. *)
Lemma flushFile_ok filePtr w w' :
  flushFile filePtr w = (Ok tt, w') ->
  bufDescTable (mgr w') = map (flushed_desc filePtr) (bufDescTable (mgr w)) /\
  bufPool (mgr w') = bufPool (mgr w) /\
  clockHand (mgr w') = clockHand (mgr w) /\
  hashTable (mgr w') = foldl (unmap_owned filePtr) (hashTable (mgr w)) (bufDescTable (mgr w)) /\
  fileCalls w' = fileCalls w ++ commit_writes filePtr (bufPool (mgr w)) 0 (bufDescTable (mgr w)).
Proof.
  unfold flushFile, bind, for_all_frames.
  pose proof (for_frames_check_state filePtr (length (bufDescTable (mgr w))) 0 w) as Hs.
  destruct (for_frames _ 0 (flushFile_check filePtr) w) as [[[]|e1] w1];
    simpl in Hs; subst w1; [|done].
  intros Hrun. by apply (for_frames_commit_ok filePtr (bufDescTable (mgr w)) [] w w').
Qed.

(** A successful [flushFile] leaves no valid frame owned by the file. *)
Lemma flushFile_ok_no_valid_frame filePtr w w' :
  flushFile filePtr w = (Ok tt, w') ->
  forall j, file (descAt (mgr w') j) = filePtr -> valid (descAt (mgr w') j) = false.
Proof.
  intros Hrun j. apply flushFile_ok in Hrun as (Htab & _).
  unfold descAt. rewrite Htab, list_lookup_fmap.
  destruct (bufDescTable (mgr w) !! N.to_nat j) as [d|]; simpl; [|done].
  unfold flushed_desc. destruct (file d =? filePtr) eqn:Hf; [done|].
  apply N.eqb_neq in Hf. done.
Qed.

Lemma foldl_unmap_owned_lookup filePtr table : forall h k v,
  foldl (unmap_owned filePtr) h table !! k = Some v ->
  h !! k = Some v /\
  forall d, d ∈ table -> file d = filePtr -> (filePtr, pageNo d) <> k.
Proof.
  induction table as [|d table IH]; intros h k v; simpl.
  - intros H. split; [done|]. intros d Hd. by apply elem_of_nil in Hd.
  - intros H. apply IH in H as [Hl Hrest]. unfold unmap_owned in Hl.
    destruct (file d =? filePtr) eqn:Hf.
    + apply lookup_delete_Some in Hl as [Hne Hl]. split; [done|].
      intros d' Hd' Hf'. apply elem_of_cons in Hd' as [->|Hd']; [done|by apply Hrest].
    + apply N.eqb_neq in Hf. split; [done|].
      intros d' Hd' Hf'. apply elem_of_cons in Hd' as [->|Hd']; [done|by apply Hrest].
Qed.

(** When the map entries were sound, a successful [flushFile] leaves no
    entry keyed on the file. *)
Lemma flushFile_ok_unmaps_file filePtr w w' :
  flushFile filePtr w = (Ok tt, w') ->
  map_entries_sound (mgr w) ->
  forall p, hashTable (mgr w') !! (filePtr, p) = None.
Proof.
  intros Hrun Hsound p. apply flushFile_ok in Hrun as (_ & _ & _ & Hmap & _).
  destruct (hashTable (mgr w') !! (filePtr, p)) as [fr|] eqn:Hl; [|done].
  rewrite Hmap in Hl. apply foldl_unmap_owned_lookup in Hl as [Hold Hkeys].
  destruct (Hsound _ _ _ Hold) as (d & Hd & _ & Hf & Hp).
  exfalso. apply (Hkeys d); [by eapply list_elem_of_lookup_2|done|by rewrite Hp].
Qed.

(** ** Well-formed managers and the operations that keep them so *)

Lemma key_stable_refl w : key_stable w w.
Proof. by split_and!. Qed.

Lemma key_stable_trans a b c : key_stable a b -> key_stable b c -> key_stable a c.
Proof.
  intros (H1 & H2 & H3) (H4 & H5 & H6). split_and!; [congruence|congruence|].
  intros j. destruct (H3 j) as (? & ? & ?), (H6 j) as (? & ? & ?).
  split_and!; congruence.
Qed.

Lemma keeps_sound_refl w : keeps_sound w w.
Proof. by intros ?. Qed.

Lemma keeps_sound_trans a b c : keeps_sound a b -> keeps_sound b c -> keeps_sound a c.
Proof. unfold keeps_sound. auto. Qed.

Lemma key_stable_keeps_sound w w' : key_stable w w' -> keeps_sound w w'.
Proof.
  intros (Hmap & Hlen & Hkeys) Hsound f p fr Hl. rewrite Hmap in Hl.
  destruct (Hsound _ _ _ Hl) as (d & Hd & Hv & Hf & Hp).
  assert (Hin : (N.to_nat fr < length (bufDescTable (mgr w')))%nat).
  { rewrite Hlen. by eapply lookup_lt_Some. }
  exists (descAt (mgr w') fr). split; [by apply descAt_in_range|].
  destruct (Hkeys fr) as (Hv' & Hf' & Hp').
  assert (Hd' : descAt (mgr w) fr = d) by (unfold descAt; by rewrite Hd).
  rewrite Hv', Hf', Hp', Hd'. done.
Qed.

Lemma key_stable_updDesc i f :
  (forall d, valid (f d) = valid d /\ file (f d) = file d /\ pageNo (f d) = pageNo d) ->
  relates key_stable (updDesc i f).
Proof.
  intros Hf w. unfold key_stable, updDesc, with_mgr. cbv beta. cbn [snd mgr].
  split_and!; [done|simpl; by rewrite length_insert|].
  intros j. destruct (decide (i = j)) as [<-|Hne].
  - destruct (decide (N.to_nat i < length (bufDescTable (mgr w)))%nat).
    + rewrite descAt_put_desc_eq by done. apply Hf.
    + rewrite descAt_put_desc_out by lia. done.
  - by rewrite descAt_put_desc_ne.
Qed.

Lemma key_stable_log_call c : relates key_stable (log_call c).
Proof. intros w. by split_and!. Qed.

Lemma key_stable_advanced w : key_stable w (advanced w).
Proof. by split_and!. Qed.

Lemma same_frames_advanced w : same_frames w (advanced w).
Proof. by split_and!. Qed.

(** Removing an entry, or clearing a frame together with its entry, keeps
    the remaining entries sound. *)
Lemma sound_clear_frame bm i :
  map_entries_sound bm ->
  map_entries_sound
    (put_desc i (BufDesc_Clear (descAt bm i))
       (put_hash (delete (file (descAt bm i), pageNo (descAt bm i)) (hashTable bm)) bm)).
Proof.
  intros Hsound f p fr Hl. cbn in Hl.
  apply lookup_delete_Some in Hl as [Hne Hl].
  destruct (Hsound _ _ _ Hl) as (d & Hd & Hv & Hf & Hp).
  exists d. split; [|done]. cbn.
  destruct (decide (i = fr)) as [->|Hi].
  - exfalso. apply Hne. unfold descAt. rewrite Hd. cbn. congruence.
  - rewrite list_lookup_insert_ne; [done|lia].
Qed.

Lemma sound_delete bm k :
  map_entries_sound bm -> map_entries_sound (put_hash (delete k (hashTable bm)) bm).
Proof.
  intros Hsound f p fr Hl. cbn in Hl.
  apply lookup_delete_Some in Hl as [_ Hl]. by apply Hsound.
Qed.

Lemma flushFile_commit_keeps_sound filePtr i :
  relates keeps_sound (flushFile_commit filePtr i).
Proof.
  intros w. unfold flushFile_commit, bind at 1, getDesc at 1. cbv beta iota.
  destruct (file (descAt (mgr w) i) =? filePtr) eqn:Hf; [|apply keeps_sound_refl].
  apply N.eqb_eq in Hf. unfold bind at 1.
  set (wb := if dirty (descAt (mgr w) i)
             then (pg <- getPage i ;; log_call (CallWritePage (file (descAt (mgr w) i)) pg) ;;;
                   updDesc i (set_dirty false))
             else ret tt).
  assert (Hwb : relates key_stable wb).
  { unfold wb. destruct (dirty (descAt (mgr w) i)); [|apply relates_ret, key_stable_refl].
    apply relates_bind; [apply key_stable_trans|by apply relates_getPage, key_stable_refl|].
    intros pg. apply relates_bind; [apply key_stable_trans|apply key_stable_log_call|].
    intros _. by apply key_stable_updDesc. }
  specialize (Hwb w). destruct (wb w) as [[[]|e] w1]; cbn [snd] in *;
    [|by apply key_stable_keeps_sound].
  unfold bind, getDesc, hash_remove, updDesc, with_mgr.
  destruct Hwb as (Hmap & Hlen & Hkeys). destruct (Hkeys i) as (_ & Hf1 & _).
  rewrite <- Hf, <- Hf1.
  destruct (hashTable (mgr w1) !! (file (descAt (mgr w1) i), pageNo (descAt (mgr w1) i)));
    cbn [snd mgr].
  - intros Hsound.
    assert (Hs1 : map_entries_sound (mgr w1)).
    { by apply (key_stable_keeps_sound w w1). }
    exact (sound_clear_frame (mgr w1) i Hs1).
  - by apply key_stable_keeps_sound.
Qed.

Lemma flushFile_keeps_sound filePtr : relates keeps_sound (flushFile filePtr).
Proof.
  unfold flushFile.
  apply relates_bind; [apply keeps_sound_trans| |intros _].
  - intros w. unfold for_all_frames. rewrite for_frames_check_state. apply keeps_sound_refl.
  - apply relates_for_all_frames; [apply keeps_sound_refl|apply keeps_sound_trans|].
    apply flushFile_commit_keeps_sound.
Qed.

Lemma unPinPage_key_stable filePtr pageNum dirtyFlag :
  relates key_stable (unPinPage filePtr pageNum dirtyFlag).
Proof.
  unfold unPinPage.
  apply relates_catch; [apply key_stable_trans| |apply relates_ret, key_stable_refl].
  apply relates_bind; [apply key_stable_trans|by apply relates_hash_lookup, key_stable_refl|].
  intros fr.
  apply relates_bind; [apply key_stable_trans|by apply relates_getDesc, key_stable_refl|].
  intros d. destruct (pinCnt d =? 0); [apply relates_throw, key_stable_refl|].
  apply relates_bind; [apply key_stable_trans|by apply key_stable_updDesc|].
  intros _. destruct dirtyFlag; [by apply key_stable_updDesc|apply relates_ret, key_stable_refl].
Qed.

Lemma clock_iteration_keeps_sound : relates keeps_sound clock_iteration.
Proof.
  intros w. pose proof (clock_iteration_refines w) as Hspec.
  pose proof (key_stable_keeps_sound _ _ (key_stable_advanced w)) as Hadv.
  inversion Hspec as [Hv Heq|Hv Hr Heq|Hv Hr Hp Heq|w2 Hv Hr Hp Hd Hfl Heq
                      |e w2 Hv Hr Hp Hd Hfl Heq|Hv Hr Hp Hd Heq]; cbn [snd]; try done.
  - eapply keeps_sound_trans; [exact Hadv|].
    apply key_stable_keeps_sound.
    apply (key_stable_updDesc (index_of w) (set_refbit false) (fun d => ltac:(done)) (advanced w)).
  - eapply keeps_sound_trans; [exact Hadv|].
    pose proof (flushFile_keeps_sound (file (under_hand w)) (advanced w)) as H.
    by rewrite Hfl in H.
  - eapply keeps_sound_trans; [exact Hadv|].
    pose proof (flushFile_keeps_sound (file (under_hand w)) (advanced w)) as H.
    by rewrite Hfl in H.
Qed.

Lemma clock_iteration_same_frames : relates same_frames clock_iteration.
Proof.
  intros w. pose proof (clock_iteration_refines w) as Hspec.
  pose proof (same_frames_advanced w) as Hadv.
  inversion Hspec as [Hv Heq|Hv Hr Heq|Hv Hr Hp Heq|w2 Hv Hr Hp Hd Hfl Heq
                      |e w2 Hv Hr Hp Hd Hfl Heq|Hv Hr Hp Hd Heq]; cbn [snd]; try done.
  - eapply same_frames_trans; [exact Hadv|].
    apply (same_frames_put_desc (index_of w) _ (advanced w)). done.
  - eapply same_frames_trans; [exact Hadv|].
    pose proof (flushFile_same_frames (file (under_hand w)) (advanced w)) as H.
    by rewrite Hfl in H.
  - eapply same_frames_trans; [exact Hadv|].
    pose proof (flushFile_same_frames (file (under_hand w)) (advanced w)) as H.
    by rewrite Hfl in H.
Qed.

Lemma clock_loop_rel (R : World -> World -> Prop) :
  (forall w, R w w) ->
  (forall a b c, R a b -> R b c -> R a c) ->
  relates R clock_iteration ->
  forall fuel w r, clock_loop fuel w = Some r -> R w (snd r).
Proof.
  intros Hrefl Htrans Hit. induction fuel as [|fuel IH]; intros w r; simpl; [done|].
  specialize (Hit w).
  destruct (clock_iteration w) as [[[f|]|e] w1]; cbn [snd] in Hit.
  - by intros [= <-].
  - intros Hrun. eapply Htrans; [exact Hit|by apply IH].
  - by intros [= <-].
Qed.

Lemma allocBuf_rel (R : World -> World -> Prop) :
  (forall w, R w w) ->
  (forall a b c, R a b -> R b c -> R a c) ->
  relates R clock_iteration ->
  forall fuel w r, allocBuf fuel w = Some r -> R w (snd r).
Proof.
  intros Hrefl Htrans Hit fuel w r. unfold allocBuf.
  destruct (has_unpinned (mgr w)); [by apply clock_loop_rel|].
  intros [= <-]. apply Hrefl.
Qed.

Lemma same_frames_numbered w w' :
  same_frames w w' -> frames_numbered (mgr w) -> frames_numbered (mgr w').
Proof.
  intros (Hlen & Hfr) Hnum j Hj. rewrite Hfr. apply Hnum.
  unfold numBufs in *. by rewrite <- Hlen.
Qed.

Lemma same_frames_numBufs w w' : same_frames w w' -> numBufs (mgr w') = numBufs (mgr w).
Proof. intros (Hlen & _). unfold numBufs. by rewrite Hlen. Qed.

Lemma BufMgr_new_well_formed bufs : well_formed (BufMgr_new bufs).
Proof.
  split.
  - intros j Hj. unfold numBufs, BufMgr_new in Hj. cbn in Hj.
    rewrite length_map, length_seq in Hj.
    unfold descAt, BufMgr_new. cbn. rewrite list_lookup_fmap.
    rewrite lookup_seq_lt by lia. cbn. lia.
  - intros f p fr H. cbn in H. by rewrite lookup_empty in H.
Qed.

Lemma unmap_victim_run fr w :
  unmap_victim fr w
  = (Ok tt, {| mgr := put_hash (unmapped (mgr w) fr) (mgr w); fileCalls := fileCalls w |}).
Proof.
  unfold unmap_victim, unmapped. unfold_M.
  destruct (valid (descAt (mgr w) fr)).
  - destruct (hashTable (mgr w) !! (file (descAt (mgr w) fr), pageNo (descAt (mgr w) fr)))
      eqn:Hl; [done|].
    rewrite delete_id by done. unfold put_hash. by rewrite BufMgr_eta, World_eta.
  - unfold put_hash. by rewrite BufMgr_eta, World_eta.
Qed.

Lemma installed_well_formed bm fr filePtr pageNum pg :
  fr < numBufs bm -> well_formed bm -> well_formed (installed bm fr filePtr pageNum pg).
Proof.
  intros Hfr [Hnum Hsound].
  assert (Hin : (N.to_nat fr < length (bufDescTable bm))%nat) by (unfold numBufs in Hfr; lia).
  split.
  - intros j Hj. unfold numBufs, installed in Hj. cbn in Hj. rewrite length_insert in Hj.
    unfold descAt, installed. cbn.
    destruct (decide (fr = j)) as [<-|Hne].
    + rewrite list_lookup_insert_eq by done. cbn. by apply Hnum.
    + rewrite list_lookup_insert_ne by lia. by apply Hnum.
  - intros f p fr' Hl. unfold installed in *. cbn in *.
    apply lookup_insert_Some in Hl as [[[= <- <-] <-]|[Hne Hl]].
    + eexists. split; [by apply list_lookup_insert_eq|done].
    + assert (Hold : hashTable bm !! (f, p) = Some fr' /\
                     (fr' = fr -> False)).
      { unfold unmapped in Hl. destruct (valid (descAt bm fr)) eqn:Hv.
        - apply lookup_delete_Some in Hl as [Hk Hl]. split; [done|]. intros ->.
          destruct (Hsound _ _ _ Hl) as (d & Hd & _ & Hf & Hp).
          apply Hk. unfold descAt. rewrite Hd. cbn. congruence.
        - split; [done|]. intros ->.
          destruct (Hsound _ _ _ Hl) as (d & Hd & Hv' & _).
          unfold descAt in Hv. rewrite Hd in Hv. cbn in Hv. congruence. }
      destruct Hold as [Hold Hfr'].
      destruct (Hsound _ _ _ Hold) as (d & Hd & Hrest).
      exists d. split; [|done]. rewrite list_lookup_insert_ne; [done|].
      intros Heq. apply Hfr'. lia.
Qed.

Lemma clock_iteration_returns w f w' :
  clock_iteration w = (Ok (Some f), w') -> f = frameNo (under_hand w).
Proof.
  intros Hit. pose proof (clock_iteration_refines w) as Hspec.
  rewrite Hit in Hspec. by inversion Hspec.
Qed.

Lemma clock_loop_returns_in_range fuel : forall w f w',
  clock_loop fuel w = Some (Ok f, w') ->
  frames_numbered (mgr w) -> 0 < numBufs (mgr w) -> f < numBufs (mgr w).
Proof.
  induction fuel as [|fuel IH]; intros w f w'; simpl; [done|].
  pose proof (clock_iteration_same_frames w) as Hsame.
  destruct (clock_iteration w) as [[[f1|]|e] w1] eqn:Hit; cbn [snd] in Hsame; [| |done].
  - intros [= <- <-] Hnum Hpos. apply clock_iteration_returns in Hit as ->.
    rewrite under_hand_descAt, Hnum; by apply next_hand_lt.
  - intros Hrun Hnum Hpos.
    rewrite <- (same_frames_numBufs _ _ Hsame). eapply IH; [exact Hrun| |].
    + by eapply same_frames_numbered.
    + by rewrite (same_frames_numBufs _ _ Hsame).
Qed.

Lemma allocBuf_keeps_well_formed fuel w r :
  allocBuf fuel w = Some r -> well_formed (mgr w) -> well_formed (mgr (snd r)).
Proof.
  intros Hrun [Hnum Hsound]. split.
  - eapply same_frames_numbered; [|exact Hnum].
    eapply allocBuf_rel; [apply same_frames_refl|apply same_frames_trans| |exact Hrun].
    apply clock_iteration_same_frames.
  - eapply (allocBuf_rel keeps_sound); [apply keeps_sound_refl|apply keeps_sound_trans| | |];
      [apply clock_iteration_keeps_sound|exact Hrun|exact Hsound].
Qed.

Lemma allocBuf_returns_in_range fuel w f w' :
  allocBuf fuel w = Some (Ok f, w') -> frames_numbered (mgr w) -> f < numBufs (mgr w').
Proof.
  intros Hrun Hnum.
  assert (Hsame : same_frames w w').
  { change w' with (snd (Ok f, w')).
    eapply allocBuf_rel; [apply same_frames_refl|apply same_frames_trans| |exact Hrun].
    apply clock_iteration_same_frames. }
  rewrite (same_frames_numBufs _ _ Hsame).
  unfold allocBuf in Hrun. destruct (has_unpinned (mgr w)) eqn:Hu; [|done].
  apply has_unpinned_spec in Hu as (j & Hj & _).
  eapply clock_loop_returns_in_range; [exact Hrun|done|lia].
Qed.

Section CollaboratorInvariants.

Variable file_readPage : FilePtr -> PageId -> list FileCall -> option Page.
Variable file_allocatePage : FilePtr -> list FileCall -> Page.

(** A [readPage] miss whose victim is frame [fr] and whose file read
    succeeds installs the page in [fr]. *)
Lemma readPage_miss_run fuel filePtr pageNum w fr w2 pg :
  hashTable (mgr w) !! (filePtr, pageNum) = None ->
  allocBuf fuel w = Some (Ok fr, w2) ->
  file_readPage filePtr pageNum (fileCalls w2) = Some pg ->
  readPage file_readPage fuel filePtr pageNum w
  = Some (Ok fr, {| mgr := installed (mgr w2) fr filePtr pageNum pg;
                    fileCalls := fileCalls w2 ++ [CallReadPage filePtr pageNum] |}).
Proof.
  intros Hl Halloc Hread. unfold readPage, hash_lookup. rewrite Hl, Halloc.
  unfold bind at 1. rewrite unmap_victim_run.
  unfold bind at 1. unfold do_readPage. cbn [mgr fileCalls]. rewrite Hread.
  unfold_M. cbn. done.
Qed.

Lemma allocPage_run fuel filePtr w fr w2 :
  let newPage := file_allocatePage filePtr (fileCalls w) in
  allocBuf fuel {| mgr := mgr w; fileCalls := fileCalls w ++ [CallAllocatePage filePtr] |}
  = Some (Ok fr, w2) ->
  allocPage file_allocatePage fuel filePtr w
  = Some (Ok (page_number newPage, fr),
          {| mgr := installed (mgr w2) fr filePtr (page_number newPage) newPage;
             fileCalls := fileCalls w2 |}).
Proof.
  intros newPage Halloc. unfold allocPage, do_allocatePage. rewrite Halloc.
  unfold bind at 1. rewrite unmap_victim_run.
  unfold_M. cbn. done.
Qed.

Lemma readPage_keeps_well_formed fuel filePtr pageNum w r :
  readPage file_readPage fuel filePtr pageNum w = Some r ->
  well_formed (mgr w) -> well_formed (mgr (snd r)).
Proof.
  intros Hrun Hwf.
  destruct (hashTable (mgr w) !! (filePtr, pageNum)) as [cur|] eqn:Hl.
  - unfold readPage, hash_lookup in Hrun. rewrite Hl in Hrun. injection Hrun as <-.
    destruct Hwf as [Hnum Hsound].
    set (hit := updDesc cur (set_refbit true) ;;;
                updDesc cur (fun d => set_pinCnt (pinCnt d + 1) d) ;;; ret cur).
    assert (Hks : relates key_stable hit).
    { apply relates_bind; [apply key_stable_trans|by apply key_stable_updDesc|].
      intros _. apply relates_bind; [apply key_stable_trans|by apply key_stable_updDesc|].
      intros _. apply relates_ret, key_stable_refl. }
    assert (Hsf : relates same_frames hit).
    { apply relates_bind; [apply same_frames_trans|by apply same_frames_updDesc|].
      intros _. apply relates_bind; [apply same_frames_trans|by apply same_frames_updDesc|].
      intros _. apply relates_ret, same_frames_refl. }
    split; [by eapply same_frames_numbered|by eapply key_stable_keeps_sound].
  - destruct (allocBuf fuel w) as [[[fr|e] w2]|] eqn:Halloc.
    + pose proof (allocBuf_keeps_well_formed _ _ _ Halloc Hwf) as Hwf2. cbn [snd] in Hwf2.
      pose proof (allocBuf_returns_in_range _ _ _ _ Halloc (proj1 Hwf)) as Hfr.
      destruct (file_readPage filePtr pageNum (fileCalls w2)) as [pg|] eqn:Hread.
      * rewrite (readPage_miss_run fuel filePtr pageNum w fr w2 pg Hl Halloc Hread) in Hrun.
        injection Hrun as <-. cbn [snd mgr]. by apply installed_well_formed.
      * unfold readPage, hash_lookup in Hrun. rewrite Hl, Halloc in Hrun. revert Hrun.
        unfold bind at 1. rewrite unmap_victim_run.
        unfold bind at 1. unfold do_readPage. cbn [mgr fileCalls]. rewrite Hread.
        intros [= <-]. cbn [snd mgr]. destruct Hwf2 as [Hnum2 Hsound2]. split; [done|].
        unfold unmapped. destruct (valid (descAt (mgr w2) fr)); [by apply sound_delete|].
        unfold put_hash. by rewrite BufMgr_eta.
    + unfold readPage, hash_lookup in Hrun. rewrite Hl, Halloc in Hrun.
      injection Hrun as <-. by apply (allocBuf_keeps_well_formed _ _ _ Halloc).
    + unfold readPage, hash_lookup in Hrun. by rewrite Hl, Halloc in Hrun.
Qed.

Lemma allocPage_keeps_well_formed fuel filePtr w r :
  allocPage file_allocatePage fuel filePtr w = Some r ->
  well_formed (mgr w) -> well_formed (mgr (snd r)).
Proof.
  intros Hrun Hwf.
  destruct (allocBuf fuel {| mgr := mgr w;
                             fileCalls := fileCalls w ++ [CallAllocatePage filePtr] |})
    as [[[fr|e] w2]|] eqn:Halloc.
  - rewrite (allocPage_run fuel filePtr w fr w2 Halloc) in Hrun. injection Hrun as <-.
    cbn [snd mgr].
    pose proof (allocBuf_keeps_well_formed _ _ _ Halloc Hwf) as Hwf2.
    pose proof (allocBuf_returns_in_range _ _ _ _ Halloc (proj1 Hwf)) as Hfr.
    by apply installed_well_formed.
  - unfold allocPage, do_allocatePage in Hrun. rewrite Halloc in Hrun.
    injection Hrun as <-. by apply (allocBuf_keeps_well_formed _ _ _ Halloc).
  - unfold allocPage, do_allocatePage in Hrun. by rewrite Halloc in Hrun.
Qed.

End CollaboratorInvariants.

Lemma unPinPage_same_frames filePtr pageNum dirtyFlag :
  relates same_frames (unPinPage filePtr pageNum dirtyFlag).
Proof.
  unfold unPinPage.
  apply relates_catch; [apply same_frames_trans| |apply relates_ret, same_frames_refl].
  apply relates_bind;
    [apply same_frames_trans|by apply relates_hash_lookup, same_frames_refl|].
  intros fr.
  apply relates_bind; [apply same_frames_trans|by apply relates_getDesc, same_frames_refl|].
  intros d. destruct (pinCnt d =? 0); [apply relates_throw, same_frames_refl|].
  apply relates_bind; [apply same_frames_trans|by apply same_frames_updDesc|].
  intros _. destruct dirtyFlag;
    [by apply same_frames_updDesc|apply relates_ret, same_frames_refl].
Qed.

Lemma unPinPage_keeps_well_formed filePtr pageNum dirtyFlag w :
  well_formed (mgr w) -> well_formed (mgr (snd (unPinPage filePtr pageNum dirtyFlag w))).
Proof.
  intros [Hnum Hsound]. split.
  - eapply same_frames_numbered; [apply unPinPage_same_frames|exact Hnum].
  - exact (key_stable_keeps_sound _ _ (unPinPage_key_stable filePtr pageNum dirtyFlag w) Hsound).
Qed.

Lemma flushFile_keeps_well_formed filePtr w :
  well_formed (mgr w) -> well_formed (mgr (snd (flushFile filePtr w))).
Proof.
  intros [Hnum Hsound]. split.
  - eapply same_frames_numbered; [apply flushFile_same_frames|exact Hnum].
  - by apply flushFile_keeps_sound.
Qed.

(** * Further properties of the operations *)

(** ** Construction and the clock hand *)

(** X1.  A manager constructed with [bufs] frames, [0 < bufs < 2^32], has
    [bufs] descriptors, all invalid, unpinned and clean and numbered by their
    index, a pool of [bufs] pages, an empty map, and its hand on the last
    frame, so that the first advance puts it on frame 0; it is well formed. *)
Theorem BufMgr_new_initial_state (bufs : N) :
  0 < bufs -> bufs < UINT32_MOD ->
  numBufs (BufMgr_new bufs) = bufs /\
  length (bufPool (BufMgr_new bufs)) = N.to_nat bufs /\
  hashTable (BufMgr_new bufs) = ∅ /\
  clockHand (BufMgr_new bufs) = bufs - 1 /\
  next_hand (BufMgr_new bufs) = 0 /\
  (forall j, j < bufs -> descAt (BufMgr_new bufs) j = empty_desc j) /\
  well_formed (BufMgr_new bufs).
Proof.
  intros Hpos Hfit.
  assert (Hn : numBufs (BufMgr_new bufs) = bufs).
  { unfold numBufs, BufMgr_new. cbn. rewrite length_map, length_seq. lia. }
  assert (Hh : clockHand (BufMgr_new bufs) = bufs - 1).
  { unfold BufMgr_new, wrap32. cbn [clockHand].
    replace (bufs + UINT32_MOD - 1) with (bufs - 1 + 1 * UINT32_MOD) by lia.
    rewrite N.Div0.mod_add. apply N.mod_small. lia. }
  split_and!; [done| |done|done| | |apply BufMgr_new_well_formed].
  - unfold BufMgr_new. cbn. by rewrite length_replicate.
  - unfold next_hand. rewrite Hn, Hh. unfold wrap32.
    replace (bufs - 1 + 1) with bufs by lia.
    rewrite (N.mod_small bufs) by lia. apply N.Div0.mod_same.
  - intros j Hj. unfold descAt, BufMgr_new. cbn [bufDescTable]. rewrite list_lookup_fmap.
    rewrite lookup_seq_lt by lia. rewrite Nat.add_0_l.
    assert (E : N.of_nat (N.to_nat j) = j) by lia.
    revert E. generalize (N.to_nat j). intros n E.
    cbn. unfold empty_desc. by rewrite E.
Qed.

Lemma BufMgr_new_initial_state_witness :
  0 < 3 /\ 3 < UINT32_MOD /\
  numBufs (BufMgr_new 3) = 3 /\
  length (bufPool (BufMgr_new 3)) = N.to_nat 3 /\
  hashTable (BufMgr_new 3) = ∅ /\
  clockHand (BufMgr_new 3) = 3 - 1 /\
  next_hand (BufMgr_new 3) = 0 /\
  (forall j, j < 3 -> descAt (BufMgr_new 3) j = empty_desc j) /\
  well_formed (BufMgr_new 3).
Proof.
  assert (H1 : 0 < 3) by reflexivity.
  assert (H2 : 3 < UINT32_MOD) by reflexivity.
  split; [exact H1|]. split; [exact H2|].
  exact (BufMgr_new_initial_state 3 H1 H2).
Defined.

Lemma advanced_iter_hand (k : nat) : forall w,
  numBufs (mgr w) < UINT32_MOD ->
  clockHand (mgr w) < numBufs (mgr w) ->
  mgr (Nat.iter k advanced w)
  = put_clockHand ((clockHand (mgr w) + N.of_nat k) mod numBufs (mgr w)) (mgr w) /\
  fileCalls (Nat.iter k advanced w) = fileCalls w.
Proof.
  induction k as [|k IH]; intros w Hfit Hh.
  - cbn. rewrite N.add_0_r, N.mod_small by done. unfold put_clockHand.
    by rewrite BufMgr_eta.
  - rewrite Nat.iter_succ. destruct (IH w Hfit Hh) as [Hm Hc].
    rewrite mgr_advanced, fileCalls_advanced. split; [|done].
    unfold next_hand, numBufs. rewrite Hm. cbn [put_clockHand clockHand bufDescTable].
    fold (numBufs (mgr w)). unfold put_clockHand. cbn. f_equal.
    unfold wrap32.
    assert (Hlt : (clockHand (mgr w) + N.of_nat k) mod numBufs (mgr w) < numBufs (mgr w)).
    { apply N.mod_lt. lia. }
    rewrite (N.mod_small (_ + 1)) by lia.
    rewrite N.Div0.add_mod_idemp_l. f_equal. lia.
Qed.

(** X2.  [advanceClock] changes nothing but the hand, keeps it inside the
    table, and moves it round: after [k] advances the hand is [k] further
    modulo [numBufs], and [numBufs] advances bring the manager back to the
    state it started from. *)
Theorem advanceClock_goes_round (k : nat) (w : World) :
  numBufs (mgr w) < UINT32_MOD ->
  clockHand (mgr w) < numBufs (mgr w) ->
  mgr (Nat.iter k advanced w)
  = put_clockHand ((clockHand (mgr w) + N.of_nat k) mod numBufs (mgr w)) (mgr w) /\
  clockHand (mgr (Nat.iter k advanced w)) < numBufs (mgr w) /\
  Nat.iter (length (bufDescTable (mgr w))) advanced w = w.
Proof.
  intros Hfit Hh. split_and!.
  - by apply advanced_iter_hand.
  - destruct (advanced_iter_hand k w Hfit Hh) as [-> _]. cbn. apply N.mod_lt. lia.
  - destruct (advanced_iter_hand (length (bufDescTable (mgr w))) w Hfit Hh) as [Hm Hc].
    fold (numBufs (mgr w)) in Hm.
    replace ((clockHand (mgr w) + numBufs (mgr w)) mod numBufs (mgr w))
      with (clockHand (mgr w)) in Hm.
    + unfold put_clockHand in Hm. rewrite BufMgr_eta in Hm.
      revert Hm Hc. generalize (Nat.iter (length (bufDescTable (mgr w))) advanced w).
      intros [m c]. destruct w as [m0 c0]. cbn. by intros -> ->.
    + rewrite <- N.Div0.add_mod_idemp_r, N.Div0.mod_same, N.add_0_r.
      by rewrite N.mod_small.
Qed.

Lemma advanceClock_goes_round_witness :
  numBufs (mgr world_full3) < UINT32_MOD /\
  clockHand (mgr world_full3) < numBufs (mgr world_full3) /\
  mgr (Nat.iter 2 advanced world_full3)
  = put_clockHand ((clockHand (mgr world_full3) + N.of_nat 2) mod numBufs (mgr world_full3))
      (mgr world_full3) /\
  clockHand (mgr (Nat.iter 2 advanced world_full3)) < numBufs (mgr world_full3) /\
  Nat.iter (length (bufDescTable (mgr world_full3))) advanced world_full3 = world_full3.
Proof.
  assert (H1 : numBufs (mgr world_full3) < UINT32_MOD) by reflexivity.
  assert (H2 : clockHand (mgr world_full3) < numBufs (mgr world_full3)) by reflexivity.
  split; [exact H1|]. split; [exact H2|].
  exact (advanceClock_goes_round 2 world_full3 H1 H2).
Defined.

(** ** [readPage] on a cached page, and the pin/unpin round trip *)

Lemma unPinPage_pinned_run filePtr pageNum dirtyFlag w fr :
  hashTable (mgr w) !! (filePtr, pageNum) = Some fr ->
  fr < numBufs (mgr w) ->
  pinCnt (descAt (mgr w) fr) <> 0 ->
  unPinPage filePtr pageNum dirtyFlag w
  = (Ok tt, {| mgr := put_desc fr (unpinned_once dirtyFlag (descAt (mgr w) fr)) (mgr w);
               fileCalls := fileCalls w |}).
Proof.
  intros Hl Hfr Hpin.
  assert (Hin : (N.to_nat fr < length (bufDescTable (mgr w)))%nat).
  { unfold numBufs in Hfr. lia. }
  unfold unPinPage. unfold_M. rewrite Hl.
  apply N.eqb_neq in Hpin. rewrite Hpin.
  destruct dirtyFlag; cbn [mgr fileCalls].
  - rewrite descAt_put_desc_eq by done. rewrite put_desc_put_desc.
    unfold unpinned_once, set_dirty, set_pinCnt. cbn. by rewrite orb_true_r.
  - unfold unpinned_once, set_pinCnt. by rewrite orb_false_r.
Qed.

Section ReadPageCached.

Variable file_readPage : FilePtr -> PageId -> list FileCall -> option Page.

Lemma readPage_hit_run fuel filePtr pageNum w fr :
  hashTable (mgr w) !! (filePtr, pageNum) = Some fr ->
  fr < numBufs (mgr w) ->
  readPage file_readPage fuel filePtr pageNum w
  = Some (Ok fr, {| mgr := put_desc fr (pinned_again (descAt (mgr w) fr)) (mgr w);
                    fileCalls := fileCalls w |}).
Proof.
  intros Hl Hfr.
  assert (Hin : (N.to_nat fr < length (bufDescTable (mgr w)))%nat).
  { unfold numBufs in Hfr. lia. }
  unfold readPage, hash_lookup. rewrite Hl. unfold_M. cbn [mgr fileCalls].
  rewrite descAt_put_desc_eq by done. by rewrite put_desc_put_desc.
Qed.

(** X3.  [readPage] of a page that is in the map is a hit: it returns the
    mapped frame after raising its [pinCnt] by one and setting its reference
    bit.  The other fields of that descriptor, the other descriptors, the
    pool, the map and the clock hand stay as they were, the file is not
    called, and the result does not depend on the clock at all. *)
Theorem readPage_hit (fuel : nat) (filePtr : FilePtr) (pageNum : PageId)
    (w : World) (fr : FrameId) :
  hashTable (mgr w) !! (filePtr, pageNum) = Some fr ->
  fr < numBufs (mgr w) ->
  exists w',
    readPage file_readPage fuel filePtr pageNum w = Some (Ok fr, w') /\
    descAt (mgr w') fr = pinned_again (descAt (mgr w) fr) /\
    (forall j, j <> fr -> descAt (mgr w') j = descAt (mgr w) j) /\
    bufPool (mgr w') = bufPool (mgr w) /\
    hashTable (mgr w') = hashTable (mgr w) /\
    clockHand (mgr w') = clockHand (mgr w) /\
    fileCalls w' = fileCalls w.
Proof.
  intros Hl Hfr. eexists. split; [by apply readPage_hit_run|].
  assert (Hin : (N.to_nat fr < length (bufDescTable (mgr w)))%nat).
  { unfold numBufs in Hfr. lia. }
  cbn [mgr fileCalls]. split_and!; try done.
  - by apply descAt_put_desc_eq.
  - intros j Hj. by apply descAt_put_desc_ne.
Qed.

(** X4.  Pinning a cached page with [readPage] and releasing it with
    [unPinPage] leaves the manager as it was, except that the frame's
    reference bit is set and its dirty bit is raised when the unpin says so;
    in particular the pin count is back to what it was. *)
Theorem readPage_unPinPage_round_trip (fuel : nat) (filePtr : FilePtr) (pageNum : PageId)
    (dirtyFlag : bool) (w : World) (fr : FrameId) :
  hashTable (mgr w) !! (filePtr, pageNum) = Some fr ->
  fr < numBufs (mgr w) ->
  exists w1,
    readPage file_readPage fuel filePtr pageNum w = Some (Ok fr, w1) /\
    unPinPage filePtr pageNum dirtyFlag w1
    = (Ok tt, {| mgr := put_desc fr (touched dirtyFlag (descAt (mgr w) fr)) (mgr w);
                 fileCalls := fileCalls w |}).
Proof.
  intros Hl Hfr. eexists. split; [by apply readPage_hit_run|].
  assert (Hin : (N.to_nat fr < length (bufDescTable (mgr w)))%nat).
  { unfold numBufs in Hfr. lia. }
  rewrite (unPinPage_pinned_run filePtr pageNum dirtyFlag _ fr).
  - cbn [mgr fileCalls]. rewrite descAt_put_desc_eq by done. rewrite put_desc_put_desc.
    do 3 f_equal. unfold unpinned_once, pinned_again, touched. cbn. f_equal. lia.
  - done.
  - cbn [mgr]. by rewrite numBufs_put_desc.
  - cbn [mgr]. rewrite descAt_put_desc_eq by done. cbn. lia.
Qed.

(** X5.  When every frame is pinned, [readPage] of a page that is not in the
    map raises [BufferExceededException] and changes nothing: no descriptor,
    no map entry, not the clock hand, and the file is not read. *)
Theorem readPage_all_pinned (fuel : nat) (filePtr : FilePtr) (pageNum : PageId) (w : World) :
  hashTable (mgr w) !! (filePtr, pageNum) = None ->
  all_pinned (mgr w) ->
  readPage file_readPage fuel filePtr pageNum w = Some (Throw BufferExceededException, w).
Proof.
  intros Hl Hall. unfold readPage, hash_lookup, allocBuf. rewrite Hl.
  apply has_unpinned_false in Hall. by rewrite Hall.
Qed.

End ReadPageCached.

Lemma readPage_hit_witness :
  hashTable (mgr world_full3) !! (fileA, 2) = Some 1 /\
  1 < numBufs (mgr world_full3) /\
  exists w',
    readPage MemFile.readPage_answer 0 fileA 2 world_full3 = Some (Ok 1, w') /\
    descAt (mgr w') 1 = pinned_again (descAt (mgr world_full3) 1) /\
    (forall j, j <> 1 -> descAt (mgr w') j = descAt (mgr world_full3) j) /\
    bufPool (mgr w') = bufPool (mgr world_full3) /\
    hashTable (mgr w') = hashTable (mgr world_full3) /\
    clockHand (mgr w') = clockHand (mgr world_full3) /\
    fileCalls w' = fileCalls world_full3.
Proof.
  assert (H1 : hashTable (mgr world_full3) !! (fileA, 2) = Some 1) by reflexivity.
  assert (H2 : 1 < numBufs (mgr world_full3)) by reflexivity.
  split; [exact H1|]. split; [exact H2|].
  exact (readPage_hit MemFile.readPage_answer 0 fileA 2 world_full3 1 H1 H2).
Defined.

Lemma readPage_unPinPage_round_trip_witness :
  hashTable (mgr world_full3) !! (fileA, 2) = Some 1 /\
  1 < numBufs (mgr world_full3) /\
  exists w1,
    readPage MemFile.readPage_answer 0 fileA 2 world_full3 = Some (Ok 1, w1) /\
    unPinPage fileA 2 true w1
    = (Ok tt, {| mgr := put_desc 1 (touched true (descAt (mgr world_full3) 1)) (mgr world_full3);
                 fileCalls := fileCalls world_full3 |}).
Proof.
  assert (H1 : hashTable (mgr world_full3) !! (fileA, 2) = Some 1) by reflexivity.
  assert (H2 : 1 < numBufs (mgr world_full3)) by reflexivity.
  split; [exact H1|]. split; [exact H2|].
  exact (readPage_unPinPage_round_trip MemFile.readPage_answer 0 fileA 2 true world_full3 1 H1 H2).
Defined.

Lemma readPage_all_pinned_witness :
  hashTable (mgr world_pinned1) !! (fileA, 2) = None /\
  all_pinned (mgr world_pinned1) /\
  readPage MemFile.readPage_answer 2 fileA 2 world_pinned1
  = Some (Throw BufferExceededException, world_pinned1).
Proof.
  assert (H1 : hashTable (mgr world_pinned1) !! (fileA, 2) = None) by reflexivity.
  assert (H2 : all_pinned (mgr world_pinned1)).
  { apply Forall_cons. split; [reflexivity|apply Forall_nil_2]. }
  split; [exact H1|]. split; [exact H2|].
  exact (readPage_all_pinned MemFile.readPage_answer 2 fileA 2 world_pinned1 H1 H2).
Defined.

(** ** [disposePage] *)

(** X6.  [disposePage] never raises and always ends with exactly one call on
    the file, [deletePage] of the page: nothing is written back, even when the
    cached copy is dirty.  The pool, the clock hand and the size of the table
    are untouched, and when the page is not in the map the manager is left
    exactly as it was. *)
Theorem disposePage_always_deletes (filePtr : FilePtr) (pageNum : PageId) (w : World) :
  exists w',
    disposePage filePtr pageNum w = (Ok tt, w') /\
    fileCalls w' = fileCalls w ++ [CallDeletePage filePtr pageNum] /\
    bufPool (mgr w') = bufPool (mgr w) /\
    clockHand (mgr w') = clockHand (mgr w) /\
    numBufs (mgr w') = numBufs (mgr w) /\
    (hashTable (mgr w) !! (filePtr, pageNum) = None -> mgr w' = mgr w).
Proof.
  unfold disposePage. unfold_M.
  destruct (hashTable (mgr w) !! (filePtr, pageNum)) as [fr|] eqn:Hl; cbn [mgr fileCalls].
  - match goal with
    | |- context [hashTable ?m !! ?k] => destruct (hashTable m !! k)
    end; eexists; (split; [reflexivity|]); cbn [mgr fileCalls];
      (split_and!; [done|done|done|apply numBufs_put_desc|done]).
  - eexists. split; [reflexivity|]. done.
Qed.

(** ** [flushFile] *)

Lemma for_frames_noop (body : N -> M unit) (w : World) (n : nat) : forall i,
  (forall k, i <= k -> k < i + N.of_nat n -> body k w = (Ok tt, w)) ->
  for_frames n i body w = (Ok tt, w).
Proof.
  induction n as [|n IH]; intros i Hbody; simpl; [done|].
  unfold bind. rewrite Hbody by lia. apply IH. intros k H1 H2. apply Hbody; lia.
Qed.

Lemma flushFile_no_frame_run filePtr w :
  (forall j, j < numBufs (mgr w) -> file (descAt (mgr w) j) <> filePtr) ->
  flushFile filePtr w = (Ok tt, w).
Proof.
  intros Hnone. unfold flushFile, bind, for_all_frames.
  assert (Hskip : forall k, 0 <= k -> k < 0 + N.of_nat (length (bufDescTable (mgr w))) ->
                            (file (descAt (mgr w) k) =? filePtr) = false).
  { intros k _ Hk. apply N.eqb_neq, Hnone. unfold numBufs. lia. }
  rewrite for_frames_noop.
  - apply for_frames_noop. intros k H1 H2.
    unfold flushFile_commit. unfold_M. by rewrite Hskip.
  - intros k H1 H2. unfold flushFile_check. unfold_M. by rewrite Hskip.
Qed.

(** X7.  [flushFile] of a file that owns no frame of the pool returns at
    once: nothing is written and the manager is unchanged. *)
Theorem flushFile_no_frame (filePtr : FilePtr) (w : World) :
  (forall j, j < numBufs (mgr w) -> file (descAt (mgr w) j) <> filePtr) ->
  flushFile filePtr w = (Ok tt, w).
Proof. apply flushFile_no_frame_run. Qed.

Lemma flushFile_no_frame_witness :
  (forall j, j < numBufs (mgr world_full3) -> file (descAt (mgr world_full3) j) <> 200) /\
  flushFile 200 world_full3 = (Ok tt, world_full3).
Proof.
  assert (H : forall j, j < numBufs (mgr world_full3) ->
                        file (descAt (mgr world_full3) j) <> 200).
  { intros j Hj.
    assert (Hc : j = 0 \/ j = 1 \/ j = 2) by (change (numBufs (mgr world_full3)) with 3 in Hj; lia).
    destruct Hc as [->|[->| ->]]; discriminate. }
  split; [exact H|]. exact (flushFile_no_frame 200 world_full3 H).
Defined.

Lemma descAt_flushed filePtr bm table' :
  table' = map (flushed_desc filePtr) (bufDescTable bm) ->
  forall j, default BufDesc_zero (table' !! N.to_nat j) = flushed_desc filePtr (descAt bm j).
Proof.
  intros -> j. unfold descAt. rewrite list_lookup_fmap.
  destruct (bufDescTable bm !! N.to_nat j); [done|].
  cbn. unfold flushed_desc. by destruct (file BufDesc_zero =? filePtr).
Qed.

(** X8.  A [flushFile] that returns has cleared every frame whose [file] is
    the flushed file and has left every other descriptor, the pool and the
    clock hand untouched; the calls it made on the file are the writes of the
    pages of the owned dirty frames, one per frame, in frame order. *)
Theorem flushFile_success (filePtr : FilePtr) (w w' : World) :
  flushFile filePtr w = (Ok tt, w') ->
  (forall j, file (descAt (mgr w) j) = filePtr ->
             descAt (mgr w') j = BufDesc_Clear (descAt (mgr w) j)) /\
  (forall j, file (descAt (mgr w) j) <> filePtr -> descAt (mgr w') j = descAt (mgr w) j) /\
  bufPool (mgr w') = bufPool (mgr w) /\
  clockHand (mgr w') = clockHand (mgr w) /\
  fileCalls w' = fileCalls w
                 ++ commit_writes filePtr (bufPool (mgr w)) 0 (bufDescTable (mgr w)).
Proof.
  intros Hrun. apply flushFile_ok in Hrun as (Htab & Hpool & Hhand & _ & Hcalls).
  pose proof (descAt_flushed filePtr (mgr w) _ Htab) as Hdesc.
  split_and!; try done.
  - intros j Hf. unfold descAt at 1. rewrite Hdesc. unfold flushed_desc.
    apply N.eqb_eq in Hf. by rewrite Hf.
  - intros j Hf. unfold descAt at 1. rewrite Hdesc. unfold flushed_desc.
    apply N.eqb_neq in Hf. by rewrite Hf.
Qed.

Lemma foldl_unmap_owned_other filePtr table : forall h f p,
  f <> filePtr -> foldl (unmap_owned filePtr) h table !! (f, p) = h !! (f, p).
Proof.
  induction table as [|d table IH]; intros h f p Hne; simpl; [done|].
  rewrite IH by done. unfold unmap_owned.
  destruct (file d =? filePtr); [|done].
  apply lookup_delete_ne. congruence.
Qed.

(** X9.  When every map entry names a valid frame holding its page, a
    [flushFile] that returns leaves no map entry keyed on the flushed file,
    and the entries of all other files are as they were. *)
Theorem flushFile_unmaps_exactly_its_file (filePtr : FilePtr) (w w' : World) :
  flushFile filePtr w = (Ok tt, w') ->
  map_entries_sound (mgr w) ->
  (forall p, hashTable (mgr w') !! (filePtr, p) = None) /\
  (forall f p, f <> filePtr -> hashTable (mgr w') !! (f, p) = hashTable (mgr w) !! (f, p)).
Proof.
  intros Hrun Hsound. split.
  - by eapply flushFile_ok_unmaps_file.
  - intros f p Hne. apply flushFile_ok in Hrun as (_ & _ & _ & -> & _).
    by apply foldl_unmap_owned_other.
Qed.

Lemma world_mixed3_entries_sound : map_entries_sound (mgr world_mixed3).
Proof.
  intros f p fr H. simpl in H.
  rewrite !lookup_insert in H.
  repeat case_decide; simplify_eq; eauto 10.
Qed.

Lemma flushFile_success_witness :
  flushFile fileA world_mixed3 = (Ok tt, snd (flushFile fileA world_mixed3)) /\
  (forall j, file (descAt (mgr world_mixed3) j) = fileA ->
             descAt (mgr (snd (flushFile fileA world_mixed3))) j
             = BufDesc_Clear (descAt (mgr world_mixed3) j)) /\
  (forall j, file (descAt (mgr world_mixed3) j) <> fileA ->
             descAt (mgr (snd (flushFile fileA world_mixed3))) j
             = descAt (mgr world_mixed3) j) /\
  bufPool (mgr (snd (flushFile fileA world_mixed3))) = bufPool (mgr world_mixed3) /\
  clockHand (mgr (snd (flushFile fileA world_mixed3))) = clockHand (mgr world_mixed3) /\
  fileCalls (snd (flushFile fileA world_mixed3))
  = fileCalls world_mixed3
    ++ commit_writes fileA (bufPool (mgr world_mixed3)) 0 (bufDescTable (mgr world_mixed3)).
Proof.
  assert (H : flushFile fileA world_mixed3 = (Ok tt, snd (flushFile fileA world_mixed3))).
  { vm_compute. reflexivity. }
  split; [exact H|].
  exact (flushFile_success fileA world_mixed3 _ H).
Defined.

Lemma flushFile_unmaps_exactly_its_file_witness :
  flushFile fileA world_mixed3 = (Ok tt, snd (flushFile fileA world_mixed3)) /\
  map_entries_sound (mgr world_mixed3) /\
  (forall p, hashTable (mgr (snd (flushFile fileA world_mixed3))) !! (fileA, p) = None) /\
  (forall f p, f <> fileA ->
     hashTable (mgr (snd (flushFile fileA world_mixed3))) !! (f, p)
     = hashTable (mgr world_mixed3) !! (f, p)).
Proof.
  assert (H : flushFile fileA world_mixed3 = (Ok tt, snd (flushFile fileA world_mixed3))).
  { vm_compute. reflexivity. }
  split; [exact H|]. split; [exact world_mixed3_entries_sound|].
  exact (flushFile_unmaps_exactly_its_file fileA world_mixed3 _ H world_mixed3_entries_sound).
Defined.

(** ** Pinned frames are left alone *)

Lemma leaves_pinned_refl w : leaves_pinned w w.
Proof. by split_and!. Qed.

Lemma leaves_pinned_trans a b c : leaves_pinned a b -> leaves_pinned b c -> leaves_pinned a c.
Proof.
  intros (L1 & P1 & C1 & H1) (L2 & P2 & C2 & H2). split_and!; [congruence|congruence| |].
  - intros j. by rewrite C2, C1.
  - intros j Hj. destruct (H1 j Hj) as [E1 M1].
    assert (Hj' : 1 <= pinCnt (descAt (mgr b) j)) by (by rewrite E1).
    destruct (H2 j Hj') as [E2 M2]. rewrite E1 in E2, M2. split; [done|].
    intros v Hv. by apply M2, M1.
Qed.

Lemma commit_spares_refl filePtr w : commit_spares filePtr w w.
Proof. intros H. split; [done|apply leaves_pinned_refl]. Qed.

Lemma commit_spares_trans filePtr a b c :
  commit_spares filePtr a b -> commit_spares filePtr b c -> commit_spares filePtr a c.
Proof.
  intros H1 H2 Ha. destruct (H1 Ha) as [Hb L1]. destruct (H2 Hb) as [Hc L2].
  split; [done|by eapply leaves_pinned_trans].
Qed.

(** Rewriting the descriptor of an unpinned frame of the file, with or
    without dropping a key of the file from the map. *)
Lemma commit_spares_rewrite filePtr i d' h' calls w :
  file (descAt (mgr w) i) = filePtr ->
  pinCnt d' = 0 ->
  (forall f p, f <> filePtr -> h' !! (f, p) = hashTable (mgr w) !! (f, p)) ->
  commit_spares filePtr w
    {| mgr := put_hash h' (put_desc i d' (mgr w)); fileCalls := calls |}.
Proof.
  intros Hf Hpin Hmap Hguard.
  assert (Hpins : forall j, pinCnt (descAt (put_desc i d' (mgr w)) j)
                            = pinCnt (descAt (mgr w) j)).
  { intros j. destruct (decide (i = j)) as [<-|Hne].
    - destruct (decide (N.to_nat i < length (bufDescTable (mgr w)))%nat).
      + rewrite descAt_put_desc_eq by done. rewrite Hpin. symmetry. by apply Hguard.
      + by rewrite descAt_put_desc_out by lia.
    - by rewrite descAt_put_desc_ne. }
  split.
  - intros j Hj. cbn [mgr] in *.
    change (descAt (put_hash h' (put_desc i d' (mgr w))) j)
      with (descAt (put_desc i d' (mgr w)) j) in *.
    destruct (decide (i = j)) as [<-|Hne].
    + rewrite Hpins. by apply Hguard.
    + rewrite descAt_put_desc_ne in * by done. by apply Hguard.
  - split_and!; cbn [mgr]; [cbn; by rewrite length_insert|done|exact Hpins|].
    intros j Hj.
    assert (Hne : i <> j).
    { intros <-. specialize (Hguard i Hf). lia. }
    change (descAt (put_hash h' (put_desc i d' (mgr w))) j)
      with (descAt (put_desc i d' (mgr w)) j).
    rewrite descAt_put_desc_ne by done. split; [done|].
    intros v Hv. cbn. rewrite Hmap; [done|].
    intros Hfj. specialize (Hguard j Hfj). lia.
Qed.

Lemma flushFile_commit_spares filePtr i w :
  (N.to_nat i < length (bufDescTable (mgr w)))%nat ->
  commit_spares filePtr w (snd (flushFile_commit filePtr i w)).
Proof.
  intros Hin. rewrite (flushFile_commit_step filePtr i w Hin). cbv zeta.
  destruct (file (descAt (mgr w) i) =? filePtr) eqn:Hf; [|apply commit_spares_refl].
  apply N.eqb_eq in Hf.
  destruct (hashTable (mgr w) !! (filePtr, pageNo (descAt (mgr w) i))) eqn:Hl; cbn [snd].
  - apply (commit_spares_rewrite filePtr i (BufDesc_Clear (descAt (mgr w) i))); [done|done|].
    intros f p Hne. apply lookup_delete_ne. congruence.
  - intros Hguard. pose proof (Hguard i Hf) as Hpin.
    destruct (dirty (descAt (mgr w) i)).
    + by apply (commit_spares_rewrite filePtr i (set_dirty false (descAt (mgr w) i))
                  (hashTable (mgr w))).
    + split; [done|]. by split_and!.
Qed.

Lemma for_frames_commit_spares filePtr (n : nat) : forall i w,
  (N.to_nat i + n <= length (bufDescTable (mgr w)))%nat ->
  commit_spares filePtr w (snd (for_frames n i (flushFile_commit filePtr) w)).
Proof.
  induction n as [|n IH]; intros i w Hrange; simpl; [apply commit_spares_refl|].
  unfold bind.
  pose proof (flushFile_commit_spares filePtr i w ltac:(lia)) as Hstep.
  pose proof (flushFile_commit_same_frames filePtr i w) as [Hlen _].
  destruct (flushFile_commit filePtr i w) as [[[]|e] w1]; cbn [snd] in *; [|done].
  eapply commit_spares_trans; [exact Hstep|]. apply IH. lia.
Qed.

Lemma for_frames_check_ok filePtr (n : nat) : forall i w w',
  for_frames n i (flushFile_check filePtr) w = (Ok tt, w') ->
  forall k, i <= k -> k < i + N.of_nat n ->
            file (descAt (mgr w) k) = filePtr ->
            pinCnt (descAt (mgr w) k) = 0 /\ pageNo (descAt (mgr w) k) <> 0.
Proof.
  induction n as [|n IH]; intros i w w'; simpl; [intros; lia|].
  unfold bind.
  pose proof (flushFile_check_state filePtr i w) as Hs.
  destruct (flushFile_check filePtr i w) as [[[]|e1] w1] eqn:Hc; simpl in Hs; subst w1; [|done].
  intros Hrest k H1 H2 Hf.
  destruct (decide (k = i)) as [->|Hne].
  - unfold flushFile_check in Hc. unfold_M.
    apply N.eqb_eq in Hf. rewrite Hf in Hc.
    destruct (1 <=? pinCnt (descAt (mgr w) i)) eqn:Hp; [done|].
    destruct (pageNo (descAt (mgr w) i) =? 0) eqn:Hz; [done|].
    apply N.leb_gt in Hp. apply N.eqb_neq in Hz. split; [lia|done].
  - eapply IH; [exact Hrest|lia|lia|done].
Qed.

Lemma flushFile_leaves_pinned filePtr w : leaves_pinned w (snd (flushFile filePtr w)).
Proof.
  unfold flushFile, bind, for_all_frames.
  pose proof (for_frames_check_state filePtr (length (bufDescTable (mgr w))) 0 w) as Hs.
  destruct (for_frames _ 0 (flushFile_check filePtr) w) as [[[]|e1] w1] eqn:Hc;
    simpl in Hs; subst w1; [|apply leaves_pinned_refl].
  apply (for_frames_commit_spares filePtr (length (bufDescTable (mgr w))) 0 w);
    [simpl; lia|].
  intros j Hf.
  destruct (decide (N.to_nat j < length (bufDescTable (mgr w)))%nat) as [Hin|Hout].
  - eapply (for_frames_check_ok filePtr _ 0 w w Hc j); [lia|lia|done].
  - rewrite descAt_out_of_range by lia. done.
Qed.

(** X10.  Whatever its outcome, [flushFile] changes no pin count and never
    touches the pool; every frame that is pinned is left exactly as it was,
    and the map entry of the page it holds stays. *)
Theorem flushFile_spares_pinned_frames (filePtr : FilePtr) (w : World) :
  bufPool (mgr (snd (flushFile filePtr w))) = bufPool (mgr w) /\
  (forall j, pinCnt (descAt (mgr (snd (flushFile filePtr w))) j) = pinCnt (descAt (mgr w) j)) /\
  (forall j, 1 <= pinCnt (descAt (mgr w) j) ->
     descAt (mgr (snd (flushFile filePtr w))) j = descAt (mgr w) j /\
     forall v,
       hashTable (mgr w) !! (file (descAt (mgr w) j), pageNo (descAt (mgr w) j)) = Some v ->
       hashTable (mgr (snd (flushFile filePtr w)))
         !! (file (descAt (mgr w) j), pageNo (descAt (mgr w) j)) = Some v).
Proof. destruct (flushFile_leaves_pinned filePtr w) as (_ & Hpool & Hpins & Hkeep). done. Qed.

Lemma spares_pinned_refl w : spares_pinned w w.
Proof. by split_and!. Qed.

Lemma spares_pinned_trans a b c : spares_pinned a b -> spares_pinned b c -> spares_pinned a c.
Proof.
  intros (L1 & P1 & C1 & H1) (L2 & P2 & C2 & H2). split_and!; [congruence|congruence| |].
  - intros j. by rewrite C2, C1.
  - intros j Hj. destruct (H1 j Hj) as [E1 M1].
    assert (Hj' : 1 <= pinCnt (descAt (mgr b) j)) by (by rewrite C1).
    destruct (H2 j Hj') as [E2 M2].
    assert (Hf : file (descAt (mgr b) j) = file (descAt (mgr a) j))
      by exact (f_equal file E1).
    assert (Hp : pageNo (descAt (mgr b) j) = pageNo (descAt (mgr a) j))
      by exact (f_equal pageNo E1).
    rewrite Hf, Hp in M2. split; [congruence|].
    intros v Hv. by apply M2, M1.
Qed.

Lemma leaves_pinned_spares w w' : leaves_pinned w w' -> spares_pinned w w'.
Proof.
  intros (L & P & C & H). split_and!; [done|done|done|].
  intros j Hj. destruct (H j Hj) as [-> M]. done.
Qed.

Lemma spares_pinned_advanced w : spares_pinned w (advanced w).
Proof. by split_and!. Qed.

(** Clearing a reference bit. *)
Lemma spares_pinned_clear_refbit i w :
  spares_pinned w
    {| mgr := put_desc i (set_refbit false (descAt (mgr w) i)) (mgr w);
       fileCalls := fileCalls w |}.
Proof.
  assert (Hd : forall j, set_refbit false
                 (descAt (put_desc i (set_refbit false (descAt (mgr w) i)) (mgr w)) j)
               = set_refbit false (descAt (mgr w) j)).
  { intros j. destruct (decide (i = j)) as [<-|Hne].
    - destruct (decide (N.to_nat i < length (bufDescTable (mgr w)))%nat).
      + by rewrite descAt_put_desc_eq.
      + by rewrite descAt_put_desc_out by lia.
    - by rewrite descAt_put_desc_ne. }
  split_and!; cbn [mgr]; [cbn; by rewrite length_insert|done| |].
  - intros j. exact (f_equal pinCnt (Hd j)).
  - intros j _. split; [apply Hd|done].
Qed.

Lemma clock_iteration_spares_pinned : relates spares_pinned clock_iteration.
Proof.
  intros w. pose proof (clock_iteration_refines w) as Hspec.
  pose proof (spares_pinned_advanced w) as Hadv.
  inversion Hspec as [Hv Heq|Hv Hr Heq|Hv Hr Hp Heq|w2 Hv Hr Hp Hd Hfl Heq
                      |e w2 Hv Hr Hp Hd Hfl Heq|Hv Hr Hp Hd Heq]; cbn [snd]; try done.
  - eapply spares_pinned_trans; [exact Hadv|].
    exact (spares_pinned_clear_refbit (index_of w) (advanced w)).
  - eapply spares_pinned_trans; [exact Hadv|]. apply leaves_pinned_spares.
    pose proof (flushFile_leaves_pinned (file (under_hand w)) (advanced w)) as H.
    by rewrite Hfl in H.
  - eapply spares_pinned_trans; [exact Hadv|]. apply leaves_pinned_spares.
    pose proof (flushFile_leaves_pinned (file (under_hand w)) (advanced w)) as H.
    by rewrite Hfl in H.
Qed.

Lemma allocBuf_spares_pinned fuel w r :
  allocBuf fuel w = Some r -> spares_pinned w (snd r).
Proof.
  apply allocBuf_rel;
    [apply spares_pinned_refl|apply spares_pinned_trans|apply clock_iteration_spares_pinned].
Qed.

(** *** No frame gains a page during [flushFile] or [allocBuf] *)

Lemma no_new_page_refl w : no_new_page w w.
Proof. by intros i Hv. Qed.

Lemma no_new_page_trans a b c : no_new_page a b -> no_new_page b c -> no_new_page a c.
Proof.
  intros H1 H2 i Hv. destruct (H2 i Hv) as (Hvb & Hf & Hp).
  destruct (H1 i Hvb) as (Hva & Hf' & Hp'). split_and!; congruence.
Qed.

Lemma no_new_page_updDesc i f :
  (forall d, valid (f d) = true ->
             valid d = true /\ file (f d) = file d /\ pageNo (f d) = pageNo d) ->
  relates no_new_page (updDesc i f).
Proof.
  intros Hf w. unfold no_new_page, updDesc, with_mgr. cbv beta. cbn [snd mgr].
  intros j. destruct (decide (i = j)) as [<-|Hne].
  - destruct (decide (N.to_nat i < length (bufDescTable (mgr w)))%nat).
    + rewrite descAt_put_desc_eq by done. apply Hf.
    + rewrite descAt_put_desc_out by lia. done.
  - by rewrite descAt_put_desc_ne.
Qed.

Lemma no_new_page_log_call c : relates no_new_page (log_call c).
Proof. by intros w i Hv. Qed.

Lemma no_new_page_hash_remove f p : relates no_new_page (hash_remove f p).
Proof. apply relates_hash_remove; [apply no_new_page_refl|]. by intros w _ i Hv. Qed.

Lemma flushFile_commit_no_new_page filePtr i :
  relates no_new_page (flushFile_commit filePtr i).
Proof.
  unfold flushFile_commit.
  apply relates_bind; [apply no_new_page_trans|by apply relates_getDesc, no_new_page_refl|].
  intros d. destruct (file d =? filePtr); [|apply relates_ret, no_new_page_refl].
  apply relates_bind; [apply no_new_page_trans| |].
  - destruct (dirty d); [|apply relates_ret, no_new_page_refl].
    apply relates_bind; [apply no_new_page_trans|by apply relates_getPage, no_new_page_refl|].
    intros pg.
    apply relates_bind; [apply no_new_page_trans|apply no_new_page_log_call|].
    intros _. by apply no_new_page_updDesc.
  - intros _.
    apply relates_bind; [apply no_new_page_trans|by apply relates_getDesc, no_new_page_refl|].
    intros d'.
    apply relates_bind; [apply no_new_page_trans|apply no_new_page_hash_remove|].
    intros _. by apply no_new_page_updDesc.
Qed.

Lemma flushFile_no_new_page filePtr : relates no_new_page (flushFile filePtr).
Proof.
  unfold flushFile.
  apply relates_bind; [apply no_new_page_trans| |intros _].
  - intros w. unfold for_all_frames. rewrite for_frames_check_state. apply no_new_page_refl.
  - apply relates_for_all_frames; [apply no_new_page_refl|apply no_new_page_trans|].
    apply flushFile_commit_no_new_page.
Qed.

Lemma clock_iteration_no_new_page : relates no_new_page clock_iteration.
Proof.
  intros w. pose proof (clock_iteration_refines w) as Hspec.
  assert (Hadv : no_new_page w (advanced w)) by (by intros i Hv).
  inversion Hspec as [Hv Heq|Hv Hr Heq|Hv Hr Hp Heq|w2 Hv Hr Hp Hd Hfl Heq
                      |e w2 Hv Hr Hp Hd Hfl Heq|Hv Hr Hp Hd Heq]; cbn [snd]; try done.
  - eapply no_new_page_trans; [exact Hadv|].
    apply (no_new_page_updDesc (index_of w) (set_refbit false) (fun d H => ltac:(done))
             (advanced w)).
  - eapply no_new_page_trans; [exact Hadv|].
    pose proof (flushFile_no_new_page (file (under_hand w)) (advanced w)) as H.
    by rewrite Hfl in H.
  - eapply no_new_page_trans; [exact Hadv|].
    pose proof (flushFile_no_new_page (file (under_hand w)) (advanced w)) as H.
    by rewrite Hfl in H.
Qed.

Lemma allocBuf_no_new_page fuel w r :
  allocBuf fuel w = Some r -> no_new_page w (snd r).
Proof.
  apply allocBuf_rel;
    [apply no_new_page_refl|apply no_new_page_trans|apply clock_iteration_no_new_page].
Qed.

(** *** The frame [allocBuf] returns *)

(** A frame that can be handed out: empty, or holding a clean page that
    nobody has pinned and whose reference bit is clear. *)
Lemma clock_iteration_victim w f w' :
  clock_iteration w = (Ok (Some f), w') ->
  frames_numbered (mgr w) -> 0 < numBufs (mgr w) ->
  f = clockHand (mgr w') /\ f < numBufs (mgr w) /\
  (valid (descAt (mgr w') f) = false \/
   (pinCnt (descAt (mgr w') f) = 0 /\ refbit (descAt (mgr w') f) = false /\
    dirty (descAt (mgr w') f) = false)).
Proof.
  intros Hit Hnum Hpos. pose proof (clock_iteration_refines w) as Hspec.
  assert (Hlt : next_hand (mgr w) < numBufs (mgr w)) by (by apply next_hand_lt).
  assert (Hf : frameNo (under_hand w) = next_hand (mgr w)).
  { rewrite under_hand_descAt. by apply Hnum. }
  rewrite Hit in Hspec.
  inversion Hspec as [Hv Heq|Hv Hr Heq|Hv Hr Hp Heq|w2 Hv Hr Hp Hd Hfl Heq
                      |e w2 Hv Hr Hp Hd Hfl Heq|Hv Hr Hp Hd Heq]; subst; rewrite Hf.
  - split_and!; [done|done|]. left.
    change (descAt (mgr (advanced w)) (next_hand (mgr w))) with (under_hand w). done.
  - pose proof Hfl as Hok. apply flushFile_ok in Hok as (Htab & _ & Hhand & _).
    split_and!; [by rewrite Hhand|done|]. left.
    unfold descAt at 1. rewrite (descAt_flushed _ (mgr (advanced w)) _ Htab).
    change (descAt (mgr (advanced w)) (next_hand (mgr w))) with (under_hand w).
    unfold flushed_desc. by rewrite N.eqb_refl.
  - split_and!; [done|done|]. right.
    change (descAt (mgr (advanced w)) (next_hand (mgr w))) with (under_hand w). done.
Qed.

Lemma clock_loop_victim fuel : forall w f w',
  clock_loop fuel w = Some (Ok f, w') ->
  frames_numbered (mgr w) -> 0 < numBufs (mgr w) ->
  f = clockHand (mgr w') /\ f < numBufs (mgr w) /\
  (valid (descAt (mgr w') f) = false \/
   (pinCnt (descAt (mgr w') f) = 0 /\ refbit (descAt (mgr w') f) = false /\
    dirty (descAt (mgr w') f) = false)).
Proof.
  induction fuel as [|fuel IH]; intros w f w'; simpl; [done|].
  pose proof (clock_iteration_same_frames w) as Hsame.
  destruct (clock_iteration w) as [[[f1|]|e] w1] eqn:Hit; cbn [snd] in Hsame; [| |done].
  - intros [= <- <-]. by apply clock_iteration_victim.
  - intros Hrun Hnum Hpos.
    rewrite <- (same_frames_numBufs _ _ Hsame). eapply IH; [exact Hrun| |].
    + by eapply same_frames_numbered.
    + by rewrite (same_frames_numBufs _ _ Hsame).
Qed.

Lemma allocBuf_victim fuel w w' f :
  frames_numbered (mgr w) ->
  allocBuf fuel w = Some (Ok f, w') ->
  f = clockHand (mgr w') /\ f < numBufs (mgr w') /\
  (valid (descAt (mgr w') f) = false \/
   (pinCnt (descAt (mgr w') f) = 0 /\ refbit (descAt (mgr w') f) = false /\
    dirty (descAt (mgr w') f) = false)).
Proof.
  intros Hnum Hrun.
  pose proof (allocBuf_returns_in_range _ _ _ _ Hrun Hnum) as Hlt.
  unfold allocBuf in Hrun. destruct (has_unpinned (mgr w)) eqn:Hu; [|done].
  apply has_unpinned_spec in Hu as (j & Hj & _).
  destruct (clock_loop_victim fuel w f w' Hrun Hnum ltac:(lia)) as (H1 & _ & H3).
  done.
Qed.

(** X11.  In a manager whose descriptors are numbered by their index, the
    frame [allocBuf] returns is the frame under the clock hand, is a frame of
    the table, and is free to be reused: it is invalid, or it holds a page
    that is clean, not pinned, and whose reference bit is clear.  [allocBuf]
    never hands out a pinned page or a dirty one. *)
Theorem allocBuf_returns_reusable_frame (fuel : nat) (w w' : World) (f : FrameId) :
  frames_numbered (mgr w) ->
  allocBuf fuel w = Some (Ok f, w') ->
  f = clockHand (mgr w') /\ f < numBufs (mgr w') /\
  (valid (descAt (mgr w') f) = false \/
   (pinCnt (descAt (mgr w') f) = 0 /\ refbit (descAt (mgr w') f) = false /\
    dirty (descAt (mgr w') f) = false)).
Proof. intros Hnum Hrun. by apply (allocBuf_victim fuel w). Qed.

(** X12.  Whatever its outcome, [allocBuf] never touches the pool and
    changes no pin count; of a pinned frame it changes nothing but, possibly,
    the reference bit, and the map entry of the page such a frame holds stays.
    No frame comes to hold a page it did not hold before. *)
Theorem allocBuf_spares_pinned_frames (fuel : nat) (w : World)
    (r : Outcome FrameId * World) :
  allocBuf fuel w = Some r ->
  spares_pinned w (snd r) /\ no_new_page w (snd r).
Proof.
  intros Hrun. split; [by eapply allocBuf_spares_pinned|by eapply allocBuf_no_new_page].
Qed.

Lemma world_mixed3_numbered : frames_numbered (mgr world_mixed3).
Proof.
  intros j Hj.
  assert (Hc : j = 0 \/ j = 1 \/ j = 2) by (change (numBufs (mgr world_mixed3)) with 3 in Hj; lia).
  by destruct Hc as [->|[->| ->]].
Qed.

Lemma allocBuf_returns_reusable_frame_witness :
  frames_numbered (mgr world_mixed3) /\
  allocBuf 1 world_mixed3 = Some (Ok 0, snd (flushFile fileA (advanced world_mixed3))) /\
  0 = clockHand (mgr (snd (flushFile fileA (advanced world_mixed3)))) /\
  0 < numBufs (mgr (snd (flushFile fileA (advanced world_mixed3)))) /\
  (valid (descAt (mgr (snd (flushFile fileA (advanced world_mixed3)))) 0) = false \/
   (pinCnt (descAt (mgr (snd (flushFile fileA (advanced world_mixed3)))) 0) = 0 /\
    refbit (descAt (mgr (snd (flushFile fileA (advanced world_mixed3)))) 0) = false /\
    dirty (descAt (mgr (snd (flushFile fileA (advanced world_mixed3)))) 0) = false)).
Proof.
  assert (H : allocBuf 1 world_mixed3
              = Some (Ok 0, snd (flushFile fileA (advanced world_mixed3)))).
  { vm_compute. reflexivity. }
  split; [exact world_mixed3_numbered|]. split; [exact H|].
  exact (allocBuf_returns_reusable_frame 1 world_mixed3 _ 0 world_mixed3_numbered H).
Defined.

Lemma allocBuf_spares_pinned_frames_witness :
  allocBuf 1 world_mixed3 = Some (Ok 0, snd (flushFile fileA (advanced world_mixed3))) /\
  spares_pinned world_mixed3 (snd (flushFile fileA (advanced world_mixed3))) /\
  no_new_page world_mixed3 (snd (flushFile fileA (advanced world_mixed3))).
Proof.
  assert (H : allocBuf 1 world_mixed3
              = Some (Ok 0, snd (flushFile fileA (advanced world_mixed3)))).
  { vm_compute. reflexivity. }
  split; [exact H|].
  exact (allocBuf_spares_pinned_frames 1 world_mixed3 _ H).
Defined.

(** ** A pinned page is never evicted *)

Lemma unmapped_keeps bm f k :
  (valid (descAt bm f) = true -> (file (descAt bm f), pageNo (descAt bm f)) <> k) ->
  unmapped bm f !! k = hashTable bm !! k.
Proof.
  intros Hk. unfold unmapped. destruct (valid (descAt bm f)); [|done].
  apply lookup_delete_ne. by apply Hk.
Qed.

Lemma installed_keeps bm f filePtr pageNum pg j k :
  j <> f ->
  (filePtr, pageNum) <> k ->
  (valid (descAt bm f) = true -> (file (descAt bm f), pageNo (descAt bm f)) <> k) ->
  descAt (installed bm f filePtr pageNum pg) j = descAt bm j /\
  pageAt (installed bm f filePtr pageNum pg) j = pageAt bm j /\
  hashTable (installed bm f filePtr pageNum pg) !! k = hashTable bm !! k.
Proof.
  intros Hj Hk Hkf. unfold descAt, pageAt, installed. cbn.
  rewrite !list_lookup_insert_ne by lia. split_and!; [done|done|].
  rewrite lookup_insert_ne by done. by apply unmapped_keeps.
Qed.

(** What [allocBuf] leaves of a valid pinned frame [j] whose page is in no
    other frame: the frame keeps its page, and a returned victim is another
    frame, holding another page. *)
Lemma allocBuf_keeps_pinned_page fuel w r j :
  well_formed (mgr w) -> frames_mapped (mgr w) ->
  j < numBufs (mgr w) ->
  valid (descAt (mgr w) j) = true -> 1 <= pinCnt (descAt (mgr w) j) ->
  allocBuf fuel w = Some r ->
  page_kept j w (snd r) /\
  forall f, fst r = Ok f ->
    f < numBufs (mgr (snd r)) /\ f <> j /\
    (valid (descAt (mgr (snd r)) f) = true ->
     (file (descAt (mgr (snd r)) f), pageNo (descAt (mgr (snd r)) f))
     <> (file (descAt (mgr w) j), pageNo (descAt (mgr w) j))).
Proof.
  intros [Hnum Hsound] Hmapped Hj Hv Hp Hrun.
  destruct (allocBuf_spares_pinned _ _ _ Hrun) as (Hlen & Hpool & Hpins & Hsp).
  destruct (Hsp j Hp) as [Hd Hentry].
  pose proof (allocBuf_no_new_page _ _ _ Hrun) as Hnew.
  split.
  - split_and!; [done|unfold pageAt; by rewrite Hpool|].
    apply Hentry. by apply Hmapped.
  - destruct r as [[f0|e] w2]; cbn [fst snd] in *; [|done].
    intros f [= <-].
    destruct (allocBuf_victim fuel w w2 f0 Hnum Hrun) as (_ & Hlt & Hfree).
    assert (Hvj : valid (descAt (mgr w2) j) = true).
    { rewrite <- Hv. exact (f_equal valid Hd). }
    assert (Hne : f0 <> j).
    { intros ->. destruct Hfree as [Hinv|(Hz & _)]; [congruence|].
      rewrite Hpins in Hz. lia. }
    split_and!; [done|done|].
    intros Hvf Hkey. apply Hne.
    destruct (Hnew f0 Hvf) as (Hvf0 & Hff & Hpf).
    rewrite Hff, Hpf in Hkey.
    assert (Hlt0 : f0 < numBufs (mgr w)).
    { unfold numBufs in *. by rewrite <- Hlen. }
    pose proof (Hmapped f0 Hlt0 Hvf0) as Hm0. pose proof (Hmapped j Hj Hv) as Hmj.
    rewrite Hkey in Hm0. congruence.
Qed.

Section PinnedPages.

Variable file_readPage : FilePtr -> PageId -> list FileCall -> option Page.
Variable file_allocatePage : FilePtr -> list FileCall -> Page.

Lemma readPage_miss_fail_run fuel filePtr pageNum w fr w2 :
  hashTable (mgr w) !! (filePtr, pageNum) = None ->
  allocBuf fuel w = Some (Ok fr, w2) ->
  file_readPage filePtr pageNum (fileCalls w2) = None ->
  readPage file_readPage fuel filePtr pageNum w
  = Some (Throw FileIOException,
          {| mgr := put_hash (unmapped (mgr w2) fr) (mgr w2);
             fileCalls := fileCalls w2 ++ [CallReadPage filePtr pageNum] |}).
Proof.
  intros Hl Halloc Hread. unfold readPage, hash_lookup. rewrite Hl, Halloc.
  unfold bind at 1. rewrite unmap_victim_run.
  unfold bind at 1. unfold do_readPage. cbn [mgr fileCalls]. by rewrite Hread.
Qed.

(** X13.  [readPage] never evicts a pinned page.  In a well-formed manager
    in which every valid frame is mapped, let frame [j] hold a pinned page.
    Whatever page other than that one is read, and whatever the outcome
    (hit, miss, [BufferExceededException], a failed write-back, a failed file
    read), frame [j] afterwards holds the same page with the same pin count
    and dirty bit, the same bytes, and the map still sends the page to [j]. *)
Theorem readPage_keeps_pinned_page (fuel : nat) (filePtr : FilePtr) (pageNum : PageId)
    (w w' : World) (r : Outcome FrameId) (j : FrameId) :
  well_formed (mgr w) -> frames_mapped (mgr w) ->
  j < numBufs (mgr w) ->
  valid (descAt (mgr w) j) = true -> 1 <= pinCnt (descAt (mgr w) j) ->
  (file (descAt (mgr w) j), pageNo (descAt (mgr w) j)) <> (filePtr, pageNum) ->
  readPage file_readPage fuel filePtr pageNum w = Some (r, w') ->
  page_kept j w w'.
Proof.
  intros Hwf Hmapped Hj Hv Hp Hother Hrun.
  destruct (hashTable (mgr w) !! (filePtr, pageNum)) as [fr|] eqn:Hl.
  - destruct Hwf as [Hnum Hsound].
    destruct (Hsound _ _ _ Hl) as (d & Hd & Hvd & Hfd & Hpd).
    assert (Hfr : fr < numBufs (mgr w)).
    { apply lookup_lt_Some in Hd. unfold numBufs. lia. }
    assert (Hne : fr <> j).
    { intros ->. apply Hother. unfold descAt. rewrite Hd. cbn. congruence. }
    rewrite (readPage_hit_run file_readPage fuel filePtr pageNum w fr Hl Hfr) in Hrun.
    injection Hrun as <- <-. unfold page_kept. cbn [mgr].
    rewrite descAt_put_desc_ne by done. split_and!; [done|done|by apply Hmapped].
  - destruct (allocBuf fuel w) as [[[f|e] w2]|] eqn:Halloc.
    + destruct (allocBuf_keeps_pinned_page fuel w _ j Hwf Hmapped Hj Hv Hp Halloc)
        as [(Hd & Hpg & Hentry) Hvictim]. cbn [fst snd] in *.
      destruct (Hvictim f eq_refl) as (Hlt & Hne & Hkey).
      destruct (file_readPage filePtr pageNum (fileCalls w2)) as [pg|] eqn:Hread.
      * rewrite (readPage_miss_run file_readPage fuel filePtr pageNum w f w2 pg Hl Halloc Hread)
          in Hrun.
        injection Hrun as <- <-. unfold page_kept. cbn [mgr].
        destruct (installed_keeps (mgr w2) f filePtr pageNum pg j
                    (file (descAt (mgr w) j), pageNo (descAt (mgr w) j)))
          as (E1 & E2 & E3); [done|congruence|done|].
        rewrite E1, E2, E3. done.
      * rewrite (readPage_miss_fail_run fuel filePtr pageNum w f w2 Hl Halloc Hread) in Hrun.
        injection Hrun as <- <-. unfold page_kept. cbn [mgr].
        split_and!; [done|done|]. cbn. rewrite unmapped_keeps; done.
    + unfold readPage, hash_lookup in Hrun. rewrite Hl, Halloc in Hrun.
      injection Hrun as <- <-.
      by destruct (allocBuf_keeps_pinned_page fuel w _ j Hwf Hmapped Hj Hv Hp Halloc) as [? _].
    + unfold readPage, hash_lookup in Hrun. by rewrite Hl, Halloc in Hrun.
Qed.

(** X14.  [allocPage] never evicts a pinned page either: under the same
    conditions, and provided the file does not hand out the number of the
    page frame [j] holds, frame [j] keeps its page, its pin count and dirty
    bit and its bytes, and stays mapped, whatever the outcome. *)
Theorem allocPage_keeps_pinned_page (fuel : nat) (filePtr : FilePtr)
    (w w' : World) (r : Outcome (PageId * FrameId)) (j : FrameId) :
  well_formed (mgr w) -> frames_mapped (mgr w) ->
  j < numBufs (mgr w) ->
  valid (descAt (mgr w) j) = true -> 1 <= pinCnt (descAt (mgr w) j) ->
  (file (descAt (mgr w) j), pageNo (descAt (mgr w) j))
  <> (filePtr, page_number (file_allocatePage filePtr (fileCalls w))) ->
  allocPage file_allocatePage fuel filePtr w = Some (r, w') ->
  page_kept j w w'.
Proof.
  intros Hwf Hmapped Hj Hv Hp Hother Hrun.
  set (w1 := {| mgr := mgr w; fileCalls := fileCalls w ++ [CallAllocatePage filePtr] |}).
  destruct (allocBuf fuel w1) as [[[f|e] w2]|] eqn:Halloc.
  - rewrite (allocPage_run file_allocatePage fuel filePtr w f w2 Halloc) in Hrun.
    injection Hrun as <- <-.
    destruct (allocBuf_keeps_pinned_page fuel w1 _ j Hwf Hmapped Hj Hv Hp Halloc)
      as [(Hd & Hpg & Hentry) Hvictim]. cbn [fst snd] in *.
    destruct (Hvictim f eq_refl) as (Hlt & Hne & Hkey).
    unfold page_kept. cbn [mgr].
    destruct (installed_keeps (mgr w2) f filePtr
                (page_number (file_allocatePage filePtr (fileCalls w)))
                (file_allocatePage filePtr (fileCalls w)) j
                (file (descAt (mgr w) j), pageNo (descAt (mgr w) j)))
      as (E1 & E2 & E3); [done|congruence|done|].
    rewrite E1, E2, E3. done.
  - unfold allocPage, do_allocatePage in Hrun. fold w1 in Hrun. rewrite Halloc in Hrun.
    injection Hrun as <- <-.
    by destruct (allocBuf_keeps_pinned_page fuel w1 _ j Hwf Hmapped Hj Hv Hp Halloc) as [? _].
  - unfold allocPage, do_allocatePage in Hrun. fold w1 in Hrun. by rewrite Halloc in Hrun.
Qed.

End PinnedPages.

Lemma world_mixed3_well_formed : well_formed (mgr world_mixed3).
Proof. split; [exact world_mixed3_numbered|exact world_mixed3_entries_sound]. Qed.

Lemma world_mixed3_mapped : frames_mapped (mgr world_mixed3).
Proof.
  intros j Hj _.
  assert (Hc : j = 0 \/ j = 1 \/ j = 2) by (change (numBufs (mgr world_mixed3)) with 3 in Hj; lia).
  by destruct Hc as [->|[->| ->]].
Qed.

Lemma readPage_keeps_pinned_page_witness :
  well_formed (mgr world_mixed3) /\ frames_mapped (mgr world_mixed3) /\
  1 < numBufs (mgr world_mixed3) /\
  valid (descAt (mgr world_mixed3) 1) = true /\
  1 <= pinCnt (descAt (mgr world_mixed3) 1) /\
  (file (descAt (mgr world_mixed3) 1), pageNo (descAt (mgr world_mixed3) 1)) <> (fileA, 9) /\
  readPage MemFile.readPage_answer 1 fileA 9 world_mixed3
  = Some (Ok 0, state_of (readPage MemFile.readPage_answer 1 fileA 9 world_mixed3) world_mixed3) /\
  page_kept 1 world_mixed3
    (state_of (readPage MemFile.readPage_answer 1 fileA 9 world_mixed3) world_mixed3).
Proof.
  assert (H1 : 1 < numBufs (mgr world_mixed3)) by reflexivity.
  assert (H2 : valid (descAt (mgr world_mixed3) 1) = true) by reflexivity.
  assert (H3 : 1 <= pinCnt (descAt (mgr world_mixed3) 1)) by (vm_compute; discriminate).
  assert (H4 : (file (descAt (mgr world_mixed3) 1), pageNo (descAt (mgr world_mixed3) 1))
               <> (fileA, 9)) by discriminate.
  assert (H5 : readPage MemFile.readPage_answer 1 fileA 9 world_mixed3
               = Some (Ok 0, state_of (readPage MemFile.readPage_answer 1 fileA 9 world_mixed3)
                               world_mixed3)).
  { vm_compute. reflexivity. }
  split; [exact world_mixed3_well_formed|]. split; [exact world_mixed3_mapped|].
  split; [exact H1|]. split; [exact H2|]. split; [exact H3|]. split; [exact H4|].
  split; [exact H5|].
  exact (readPage_keeps_pinned_page MemFile.readPage_answer 1 fileA 9 world_mixed3 _ _ 1
           world_mixed3_well_formed world_mixed3_mapped H1 H2 H3 H4 H5).
Defined.

Lemma allocPage_keeps_pinned_page_witness :
  well_formed (mgr world_mixed3) /\ frames_mapped (mgr world_mixed3) /\
  1 < numBufs (mgr world_mixed3) /\
  valid (descAt (mgr world_mixed3) 1) = true /\
  1 <= pinCnt (descAt (mgr world_mixed3) 1) /\
  (file (descAt (mgr world_mixed3) 1), pageNo (descAt (mgr world_mixed3) 1))
  <> (fileB, page_number (MemFile.allocatePage_answer fileB (fileCalls world_mixed3))) /\
  allocPage MemFile.allocatePage_answer 1 fileB world_mixed3
  = Some (Ok (1, 0),
          state_of (allocPage MemFile.allocatePage_answer 1 fileB world_mixed3) world_mixed3) /\
  page_kept 1 world_mixed3
    (state_of (allocPage MemFile.allocatePage_answer 1 fileB world_mixed3) world_mixed3).
Proof.
  assert (H1 : 1 < numBufs (mgr world_mixed3)) by reflexivity.
  assert (H2 : valid (descAt (mgr world_mixed3) 1) = true) by reflexivity.
  assert (H3 : 1 <= pinCnt (descAt (mgr world_mixed3) 1)) by (vm_compute; discriminate).
  assert (H4 : (file (descAt (mgr world_mixed3) 1), pageNo (descAt (mgr world_mixed3) 1))
               <> (fileB, page_number (MemFile.allocatePage_answer fileB
                                         (fileCalls world_mixed3)))) by discriminate.
  assert (H5 : allocPage MemFile.allocatePage_answer 1 fileB world_mixed3
               = Some (Ok (1, 0),
                       state_of (allocPage MemFile.allocatePage_answer 1 fileB world_mixed3)
                         world_mixed3)).
  { vm_compute. reflexivity. }
  split; [exact world_mixed3_well_formed|]. split; [exact world_mixed3_mapped|].
  split; [exact H1|]. split; [exact H2|]. split; [exact H3|]. split; [exact H4|].
  split; [exact H5|].
  exact (allocPage_keeps_pinned_page MemFile.allocatePage_answer 1 fileB world_mixed3 _ _ 1
           world_mixed3_well_formed world_mixed3_mapped H1 H2 H3 H4 H5).
Defined.

(** ** What a miss installs *)

Lemma map_shrinks_refl w : map_shrinks w w.
Proof. by intros k v H. Qed.

Lemma map_shrinks_trans a b c : map_shrinks a b -> map_shrinks b c -> map_shrinks a c.
Proof. intros H1 H2 k v H. by apply H1, H2. Qed.

Lemma map_shrinks_updDesc i f : relates map_shrinks (updDesc i f).
Proof. by intros w k v H. Qed.

Lemma map_shrinks_log_call c : relates map_shrinks (log_call c).
Proof. by intros w k v H. Qed.

Lemma map_shrinks_hash_remove f p : relates map_shrinks (hash_remove f p).
Proof.
  apply relates_hash_remove; [apply map_shrinks_refl|].
  intros w _ k v H. cbn in H. by apply lookup_delete_Some in H as [_ H].
Qed.

Lemma flushFile_commit_map_shrinks filePtr i :
  relates map_shrinks (flushFile_commit filePtr i).
Proof.
  unfold flushFile_commit.
  apply relates_bind; [apply map_shrinks_trans|by apply relates_getDesc, map_shrinks_refl|].
  intros d. destruct (file d =? filePtr); [|apply relates_ret, map_shrinks_refl].
  apply relates_bind; [apply map_shrinks_trans| |].
  - destruct (dirty d); [|apply relates_ret, map_shrinks_refl].
    apply relates_bind; [apply map_shrinks_trans|by apply relates_getPage, map_shrinks_refl|].
    intros pg.
    apply relates_bind; [apply map_shrinks_trans|apply map_shrinks_log_call|].
    intros _. apply map_shrinks_updDesc.
  - intros _.
    apply relates_bind; [apply map_shrinks_trans|by apply relates_getDesc, map_shrinks_refl|].
    intros d'.
    apply relates_bind; [apply map_shrinks_trans|apply map_shrinks_hash_remove|].
    intros _. apply map_shrinks_updDesc.
Qed.

Lemma flushFile_map_shrinks filePtr : relates map_shrinks (flushFile filePtr).
Proof.
  unfold flushFile.
  apply relates_bind; [apply map_shrinks_trans| |intros _].
  - intros w. unfold for_all_frames. rewrite for_frames_check_state. apply map_shrinks_refl.
  - apply relates_for_all_frames; [apply map_shrinks_refl|apply map_shrinks_trans|].
    apply flushFile_commit_map_shrinks.
Qed.

Lemma clock_iteration_map_shrinks : relates map_shrinks clock_iteration.
Proof.
  intros w. pose proof (clock_iteration_refines w) as Hspec.
  assert (Hadv : map_shrinks w (advanced w)) by (by intros k v H).
  inversion Hspec as [Hv Heq|Hv Hr Heq|Hv Hr Hp Heq|w2 Hv Hr Hp Hd Hfl Heq
                      |e w2 Hv Hr Hp Hd Hfl Heq|Hv Hr Hp Hd Heq]; cbn [snd]; try done.
  - eapply map_shrinks_trans; [exact Hadv|].
    pose proof (flushFile_map_shrinks (file (under_hand w)) (advanced w)) as H.
    by rewrite Hfl in H.
  - eapply map_shrinks_trans; [exact Hadv|].
    pose proof (flushFile_map_shrinks (file (under_hand w)) (advanced w)) as H.
    by rewrite Hfl in H.
Qed.

Lemma allocBuf_map_shrinks fuel w r :
  allocBuf fuel w = Some r -> map_shrinks w (snd r).
Proof.
  apply allocBuf_rel;
    [apply map_shrinks_refl|apply map_shrinks_trans|apply clock_iteration_map_shrinks].
Qed.

Lemma allocBuf_never_FileIO fuel w w' :
  allocBuf fuel w <> Some (Throw FileIOException, w').
Proof.
  unfold allocBuf. destruct (has_unpinned (mgr w)); [|done].
  intros H. apply clock_loop_throw in H as [[]|[[]|?]]. done.
Qed.

Lemma descAt_installed bm fr filePtr pageNum pg :
  fr < numBufs bm ->
  descAt (installed bm fr filePtr pageNum pg) fr
  = resident filePtr pageNum (frameNo (descAt bm fr)) 1 false true.
Proof.
  intros Hfr. unfold descAt at 1, installed. cbn.
  rewrite list_lookup_insert_eq; [done|]. unfold numBufs in Hfr. lia.
Qed.

Lemma pageAt_installed bm fr filePtr pageNum pg :
  (N.to_nat fr < length (bufPool bm))%nat ->
  pageAt (installed bm fr filePtr pageNum pg) fr = pg.
Proof. intros Hfr. unfold pageAt, installed. cbn. by rewrite list_lookup_insert_eq. Qed.

Section Misses.

Variable file_readPage : FilePtr -> PageId -> list FileCall -> option Page.
Variable file_allocatePage : FilePtr -> list FileCall -> Page.

(** A miss that returns a frame went through [allocBuf] and a successful
    file read. *)
Lemma readPage_miss_inv fuel filePtr pageNum w fr w' :
  hashTable (mgr w) !! (filePtr, pageNum) = None ->
  readPage file_readPage fuel filePtr pageNum w = Some (Ok fr, w') ->
  exists w2 pg,
    allocBuf fuel w = Some (Ok fr, w2) /\
    file_readPage filePtr pageNum (fileCalls w2) = Some pg /\
    w' = {| mgr := installed (mgr w2) fr filePtr pageNum pg;
            fileCalls := fileCalls w2 ++ [CallReadPage filePtr pageNum] |}.
Proof.
  intros Hl Hrun.
  destruct (allocBuf fuel w) as [[[f|e] w2]|] eqn:Halloc.
  - destruct (file_readPage filePtr pageNum (fileCalls w2)) as [pg|] eqn:Hread.
    + rewrite (readPage_miss_run file_readPage fuel filePtr pageNum w f w2 pg Hl Halloc Hread)
        in Hrun.
      injection Hrun as <- <-. by exists w2, pg.
    + rewrite (readPage_miss_fail_run file_readPage fuel filePtr pageNum w f w2 Hl Halloc Hread)
        in Hrun. done.
  - unfold readPage, hash_lookup in Hrun. by rewrite Hl, Halloc in Hrun.
  - unfold readPage, hash_lookup in Hrun. by rewrite Hl, Halloc in Hrun.
Qed.

Lemma readPage_miss_post fuel filePtr pageNum w fr w' :
  frames_numbered (mgr w) ->
  length (bufPool (mgr w)) = length (bufDescTable (mgr w)) ->
  hashTable (mgr w) !! (filePtr, pageNum) = None ->
  readPage file_readPage fuel filePtr pageNum w = Some (Ok fr, w') ->
  fr < numBufs (mgr w') /\
  hashTable (mgr w') !! (filePtr, pageNum) = Some fr /\
  descAt (mgr w') fr = resident filePtr pageNum fr 1 false true /\
  exists calls,
    fileCalls w' = calls ++ [CallReadPage filePtr pageNum] /\
    file_readPage filePtr pageNum calls = Some (pageAt (mgr w') fr).
Proof.
  intros Hnum Hpool Hl Hrun.
  destruct (readPage_miss_inv fuel filePtr pageNum w fr w' Hl Hrun)
    as (w2 & pg & Halloc & Hread & ->).
  pose proof (allocBuf_returns_in_range _ _ _ _ Halloc Hnum) as Hfr.
  destruct (allocBuf_spares_pinned _ _ _ Halloc) as (Hlen & Hpool2 & _). cbn [snd] in *.
  assert (Hnum2 : frames_numbered (mgr w2)).
  { eapply same_frames_numbered; [|exact Hnum].
    change w2 with (snd (Ok fr, w2)).
    eapply allocBuf_rel; [apply same_frames_refl|apply same_frames_trans| |exact Halloc].
    apply clock_iteration_same_frames. }
  cbn [mgr fileCalls]. split_and!.
  - unfold numBufs, installed. cbn. rewrite length_insert. exact Hfr.
  - unfold installed. cbn. apply lookup_insert_eq.
  - rewrite descAt_installed by done. by rewrite Hnum2.
  - exists (fileCalls w2). split; [done|].
    rewrite pageAt_installed; [done|]. rewrite Hpool2, Hpool, <- Hlen.
    unfold numBufs in Hfr. lia.
Qed.

(** X15.  A [readPage] miss that returns has put the page in the returned
    frame: the map sends the page to that frame, whose descriptor names the
    file and the page with pin count 1, clean, valid, reference bit set; the
    last call on the file is the read of that page, and the pool holds what
    the file answered. *)
Theorem readPage_miss_installs_page (fuel : nat) (filePtr : FilePtr) (pageNum : PageId)
    (w w' : World) (fr : FrameId) :
  frames_numbered (mgr w) ->
  length (bufPool (mgr w)) = length (bufDescTable (mgr w)) ->
  hashTable (mgr w) !! (filePtr, pageNum) = None ->
  readPage file_readPage fuel filePtr pageNum w = Some (Ok fr, w') ->
  fr < numBufs (mgr w') /\
  hashTable (mgr w') !! (filePtr, pageNum) = Some fr /\
  descAt (mgr w') fr = resident filePtr pageNum fr 1 false true /\
  exists calls,
    fileCalls w' = calls ++ [CallReadPage filePtr pageNum] /\
    file_readPage filePtr pageNum calls = Some (pageAt (mgr w') fr).
Proof. apply readPage_miss_post. Qed.

(** X16.  Reading a page twice pins it twice and reads the file once: after
    a miss that returned frame [fr], a second [readPage] of the same page
    returns [fr] again, whatever the clock would do, with pin count 2 and
    without a call on the file. *)
Theorem readPage_twice (fuel fuel' : nat) (filePtr : FilePtr) (pageNum : PageId)
    (w w' : World) (fr : FrameId) :
  frames_numbered (mgr w) ->
  length (bufPool (mgr w)) = length (bufDescTable (mgr w)) ->
  hashTable (mgr w) !! (filePtr, pageNum) = None ->
  readPage file_readPage fuel filePtr pageNum w = Some (Ok fr, w') ->
  exists w'',
    readPage file_readPage fuel' filePtr pageNum w' = Some (Ok fr, w'') /\
    descAt (mgr w'') fr = resident filePtr pageNum fr 2 false true /\
    fileCalls w'' = fileCalls w' /\
    hashTable (mgr w'') = hashTable (mgr w') /\
    bufPool (mgr w'') = bufPool (mgr w').
Proof.
  intros Hnum Hpool Hl Hrun.
  destruct (readPage_miss_post fuel filePtr pageNum w fr w' Hnum Hpool Hl Hrun)
    as (Hfr & Hmap & Hdesc & _).
  eexists. split; [by apply readPage_hit_run|].
  cbn [mgr fileCalls]. split_and!; try done.
  rewrite descAt_put_desc_eq by (unfold numBufs in Hfr; lia).
  by rewrite Hdesc.
Qed.

(** X17.  When the file's [readPage] raises during a miss, [readPage]
    raises too, after the read was attempted, and the page is not in the
    map.  The victim had already been unmapped: the frame under the clock
    hand, if it is still valid, holds a clean unpinned page that the map no
    longer knows. *)
Theorem readPage_file_error (fuel : nat) (filePtr : FilePtr) (pageNum : PageId)
    (w w' : World) :
  frames_numbered (mgr w) ->
  hashTable (mgr w) !! (filePtr, pageNum) = None ->
  readPage file_readPage fuel filePtr pageNum w = Some (Throw FileIOException, w') ->
  hashTable (mgr w') !! (filePtr, pageNum) = None /\
  (exists calls, fileCalls w' = calls ++ [CallReadPage filePtr pageNum] /\
                 file_readPage filePtr pageNum calls = None) /\
  (valid (descAt (mgr w') (clockHand (mgr w'))) = true ->
   pinCnt (descAt (mgr w') (clockHand (mgr w'))) = 0 /\
   dirty (descAt (mgr w') (clockHand (mgr w'))) = false /\
   hashTable (mgr w') !! (file (descAt (mgr w') (clockHand (mgr w'))),
                         pageNo (descAt (mgr w') (clockHand (mgr w')))) = None).
Proof.
  intros Hnum Hl Hrun.
  destruct (allocBuf fuel w) as [[[f|e] w2]|] eqn:Halloc.
  - destruct (file_readPage filePtr pageNum (fileCalls w2)) as [pg|] eqn:Hread.
    + rewrite (readPage_miss_run file_readPage fuel filePtr pageNum w f w2 pg Hl Halloc Hread)
        in Hrun. done.
    + rewrite (readPage_miss_fail_run file_readPage fuel filePtr pageNum w f w2 Hl Halloc Hread)
        in Hrun.
      injection Hrun as <-. cbn [mgr fileCalls].
      destruct (allocBuf_victim fuel w w2 f Hnum Halloc) as (Hhand & _ & Hfree).
      pose proof (allocBuf_map_shrinks _ _ _ Halloc) as Hshr. cbn [snd] in Hshr.
      assert (Hnone : hashTable (mgr w2) !! (filePtr, pageNum) = None).
      { destruct (hashTable (mgr w2) !! (filePtr, pageNum)) eqn:E; [|done].
        apply Hshr in E. congruence. }
      split_and!.
      * cbn. unfold unmapped. destruct (valid (descAt (mgr w2) f)); [|done].
        destruct (decide ((file (descAt (mgr w2) f), pageNo (descAt (mgr w2) f))
                          = (filePtr, pageNum))) as [->|Hne].
        -- apply lookup_delete_eq.
        -- by rewrite lookup_delete_ne.
      * by exists (fileCalls w2).
      * change (descAt (put_hash (unmapped (mgr w2) f) (mgr w2)))
          with (descAt (mgr w2)).
        change (clockHand (put_hash (unmapped (mgr w2) f) (mgr w2)))
          with (clockHand (mgr w2)).
        rewrite <- Hhand. intros Hv.
        destruct Hfree as [Hinv|(Hz & _ & Hd)]; [congruence|].
        split_and!; [done|done|]. cbn. unfold unmapped. rewrite Hv.
        apply lookup_delete_eq.
  - unfold readPage, hash_lookup in Hrun. rewrite Hl, Halloc in Hrun.
    injection Hrun as -> <-. by apply allocBuf_never_FileIO in Halloc.
  - unfold readPage, hash_lookup in Hrun. by rewrite Hl, Halloc in Hrun.
Qed.

(** X18.  An [allocPage] that returns has asked the file for a new page
    and put it in the returned frame: the page number returned is the number
    of the page the file handed out, the map sends it to the frame, the
    descriptor names it with pin count 1, clean, valid, reference bit set, and
    the pool holds the page the file handed out. *)
Theorem allocPage_installs_page (fuel : nat) (filePtr : FilePtr)
    (w w' : World) (pn : PageId) (fr : FrameId) :
  frames_numbered (mgr w) ->
  length (bufPool (mgr w)) = length (bufDescTable (mgr w)) ->
  allocPage file_allocatePage fuel filePtr w = Some (Ok (pn, fr), w') ->
  pn = page_number (file_allocatePage filePtr (fileCalls w)) /\
  fr < numBufs (mgr w') /\
  hashTable (mgr w') !! (filePtr, pn) = Some fr /\
  descAt (mgr w') fr = resident filePtr pn fr 1 false true /\
  pageAt (mgr w') fr = file_allocatePage filePtr (fileCalls w).
Proof.
  intros Hnum Hpool Hrun.
  set (w1 := {| mgr := mgr w; fileCalls := fileCalls w ++ [CallAllocatePage filePtr] |}).
  destruct (allocBuf fuel w1) as [[[f|e] w2]|] eqn:Halloc.
  - rewrite (allocPage_run file_allocatePage fuel filePtr w f w2 Halloc) in Hrun.
    injection Hrun as <- <- <-.
    pose proof (allocBuf_returns_in_range _ _ _ _ Halloc Hnum) as Hfr.
    destruct (allocBuf_spares_pinned _ _ _ Halloc) as (Hlen & Hpool2 & _). cbn [snd] in *.
    assert (Hnum2 : frames_numbered (mgr w2)).
    { apply (same_frames_numbered w1 w2); [|exact Hnum].
      change w2 with (snd (Ok f, w2)).
      eapply allocBuf_rel; [apply same_frames_refl|apply same_frames_trans| |exact Halloc].
      apply clock_iteration_same_frames. }
    cbn [mgr fileCalls]. split_and!.
    + done.
    + unfold numBufs, installed. cbn. rewrite length_insert. exact Hfr.
    + unfold installed. cbn. apply lookup_insert_eq.
    + rewrite descAt_installed by done. by rewrite Hnum2.
    + rewrite pageAt_installed; [done|]. rewrite Hpool2.
      change (bufPool (mgr w1)) with (bufPool (mgr w)).
      change (bufDescTable (mgr w1)) with (bufDescTable (mgr w)) in Hlen.
      rewrite Hpool, <- Hlen. unfold numBufs in Hfr. lia.
  - unfold allocPage, do_allocatePage in Hrun. fold w1 in Hrun. by rewrite Halloc in Hrun.
  - unfold allocPage, do_allocatePage in Hrun. fold w1 in Hrun. by rewrite Halloc in Hrun.
Qed.

End Misses.

Lemma world_full3_numbered : frames_numbered (mgr world_full3).
Proof.
  intros j Hj.
  assert (Hc : j = 0 \/ j = 1 \/ j = 2) by (change (numBufs (mgr world_full3)) with 3 in Hj; lia).
  by destruct Hc as [->|[->| ->]].
Qed.

Lemma readPage_miss_installs_page_witness :
  frames_numbered (mgr world_mixed3) /\
  length (bufPool (mgr world_mixed3)) = length (bufDescTable (mgr world_mixed3)) /\
  hashTable (mgr world_mixed3) !! (fileA, 9) = None /\
  readPage MemFile.readPage_answer 1 fileA 9 world_mixed3
  = Some (Ok 0, state_of (readPage MemFile.readPage_answer 1 fileA 9 world_mixed3) world_mixed3) /\
  0 < numBufs (mgr (state_of (readPage MemFile.readPage_answer 1 fileA 9 world_mixed3)
                      world_mixed3)).
Proof.
  assert (H2 : length (bufPool (mgr world_mixed3)) = length (bufDescTable (mgr world_mixed3)))
    by reflexivity.
  assert (H3 : hashTable (mgr world_mixed3) !! (fileA, 9) = None) by reflexivity.
  assert (H4 : readPage MemFile.readPage_answer 1 fileA 9 world_mixed3
               = Some (Ok 0, state_of (readPage MemFile.readPage_answer 1 fileA 9 world_mixed3)
                               world_mixed3)).
  { vm_compute. reflexivity. }
  split; [exact world_mixed3_numbered|]. split; [exact H2|]. split; [exact H3|].
  split; [exact H4|].
  exact (proj1 (readPage_miss_installs_page MemFile.readPage_answer 1 fileA 9 world_mixed3 _ 0
                  world_mixed3_numbered H2 H3 H4)).
Defined.

Lemma readPage_twice_witness :
  frames_numbered (mgr world_mixed3) /\
  length (bufPool (mgr world_mixed3)) = length (bufDescTable (mgr world_mixed3)) /\
  hashTable (mgr world_mixed3) !! (fileA, 9) = None /\
  readPage MemFile.readPage_answer 1 fileA 9 world_mixed3
  = Some (Ok 0, state_of (readPage MemFile.readPage_answer 1 fileA 9 world_mixed3) world_mixed3) /\
  exists w'',
    readPage MemFile.readPage_answer 0 fileA 9
      (state_of (readPage MemFile.readPage_answer 1 fileA 9 world_mixed3) world_mixed3)
    = Some (Ok 0, w'') /\
    descAt (mgr w'') 0 = resident fileA 9 0 2 false true /\
    fileCalls w''
    = fileCalls (state_of (readPage MemFile.readPage_answer 1 fileA 9 world_mixed3) world_mixed3) /\
    hashTable (mgr w'')
    = hashTable (mgr (state_of (readPage MemFile.readPage_answer 1 fileA 9 world_mixed3)
                        world_mixed3)) /\
    bufPool (mgr w'')
    = bufPool (mgr (state_of (readPage MemFile.readPage_answer 1 fileA 9 world_mixed3)
                      world_mixed3)).
Proof.
  assert (H2 : length (bufPool (mgr world_mixed3)) = length (bufDescTable (mgr world_mixed3)))
    by reflexivity.
  assert (H3 : hashTable (mgr world_mixed3) !! (fileA, 9) = None) by reflexivity.
  assert (H4 : readPage MemFile.readPage_answer 1 fileA 9 world_mixed3
               = Some (Ok 0, state_of (readPage MemFile.readPage_answer 1 fileA 9 world_mixed3)
                               world_mixed3)).
  { vm_compute. reflexivity. }
  split; [exact world_mixed3_numbered|]. split; [exact H2|]. split; [exact H3|].
  split; [exact H4|].
  exact (readPage_twice MemFile.readPage_answer 1 0 fileA 9 world_mixed3 _ 0
           world_mixed3_numbered H2 H3 H4).
Defined.

Lemma readPage_file_error_witness :
  frames_numbered (mgr world_full3) /\
  hashTable (mgr world_full3) !! (fileA, 4) = None /\
  readPage failing_readPage 4 fileA 4 world_full3
  = Some (Throw FileIOException,
          state_of (readPage failing_readPage 4 fileA 4 world_full3) world_full3) /\
  hashTable (mgr (state_of (readPage failing_readPage 4 fileA 4 world_full3) world_full3))
    !! (fileA, 4) = None.
Proof.
  assert (H2 : hashTable (mgr world_full3) !! (fileA, 4) = None) by reflexivity.
  assert (H3 : readPage failing_readPage 4 fileA 4 world_full3
               = Some (Throw FileIOException,
                       state_of (readPage failing_readPage 4 fileA 4 world_full3) world_full3)).
  { vm_compute. reflexivity. }
  split; [exact world_full3_numbered|]. split; [exact H2|]. split; [exact H3|].
  exact (proj1 (readPage_file_error failing_readPage 4 fileA 4 world_full3 _
                  world_full3_numbered H2 H3)).
Defined.

Lemma allocPage_installs_page_witness :
  frames_numbered (mgr world_mixed3) /\
  length (bufPool (mgr world_mixed3)) = length (bufDescTable (mgr world_mixed3)) /\
  allocPage MemFile.allocatePage_answer 1 fileB world_mixed3
  = Some (Ok (1, 0),
          state_of (allocPage MemFile.allocatePage_answer 1 fileB world_mixed3) world_mixed3) /\
  1 = page_number (MemFile.allocatePage_answer fileB (fileCalls world_mixed3)).
Proof.
  assert (H2 : length (bufPool (mgr world_mixed3)) = length (bufDescTable (mgr world_mixed3)))
    by reflexivity.
  assert (H3 : allocPage MemFile.allocatePage_answer 1 fileB world_mixed3
               = Some (Ok (1, 0),
                       state_of (allocPage MemFile.allocatePage_answer 1 fileB world_mixed3)
                         world_mixed3)).
  { vm_compute. reflexivity. }
  split; [exact world_mixed3_numbered|]. split; [exact H2|]. split; [exact H3|].
  exact (proj1 (allocPage_installs_page MemFile.allocatePage_answer 1 fileB world_mixed3 _ 1 0
                  world_mixed3_numbered H2 H3)).
Defined.

(** ** Every state reached without [disposePage] is well formed *)

Lemma same_sizes_refl w : same_sizes w w.
Proof. by split. Qed.

Lemma same_sizes_trans a b c : same_sizes a b -> same_sizes b c -> same_sizes a c.
Proof. intros [H1 H2] [H3 H4]. split; congruence. Qed.

Lemma same_sizes_updDesc i f : relates same_sizes (updDesc i f).
Proof. intros w. split; cbn; [by rewrite length_insert|done]. Qed.

Lemma unPinPage_same_sizes filePtr pageNum dirtyFlag :
  relates same_sizes (unPinPage filePtr pageNum dirtyFlag).
Proof.
  unfold unPinPage.
  apply relates_catch; [apply same_sizes_trans| |apply relates_ret, same_sizes_refl].
  apply relates_bind;
    [apply same_sizes_trans|by apply relates_hash_lookup, same_sizes_refl|].
  intros fr.
  apply relates_bind; [apply same_sizes_trans|by apply relates_getDesc, same_sizes_refl|].
  intros d. destruct (pinCnt d =? 0); [apply relates_throw, same_sizes_refl|].
  apply relates_bind; [apply same_sizes_trans|apply same_sizes_updDesc|].
  intros _. destruct dirtyFlag; [apply same_sizes_updDesc|apply relates_ret, same_sizes_refl].
Qed.

Lemma spares_pinned_same_sizes w w' : spares_pinned w w' -> same_sizes w w'.
Proof. intros (Hlen & Hpool & _). split; [done|by rewrite Hpool]. Qed.

Lemma installed_pool_fits bm fr filePtr pageNum pg :
  pool_fits bm -> pool_fits (installed bm fr filePtr pageNum pg).
Proof. unfold pool_fits, installed. cbn. by rewrite !length_insert. Qed.

Lemma same_sizes_pool_fits w w' : same_sizes w w' -> pool_fits (mgr w) -> pool_fits (mgr w').
Proof. unfold pool_fits. intros [H1 H2]. congruence. Qed.

Section Reached.

Variable file_readPage : FilePtr -> PageId -> list FileCall -> option Page.
Variable file_allocatePage : FilePtr -> list FileCall -> Page.

Lemma readPage_pool_fits fuel filePtr pageNum w r w' :
  readPage file_readPage fuel filePtr pageNum w = Some (r, w') ->
  pool_fits (mgr w) -> pool_fits (mgr w').
Proof.
  intros Hrun Hfit.
  destruct (hashTable (mgr w) !! (filePtr, pageNum)) as [cur|] eqn:Hl.
  - unfold readPage, hash_lookup in Hrun. rewrite Hl in Hrun. injection Hrun as _ <-.
    unfold pool_fits. unfold_M. cbn. by rewrite !length_insert.
  - destruct (allocBuf fuel w) as [[[f|e] w2]|] eqn:Halloc.
    + pose proof (same_sizes_pool_fits _ _
                    (spares_pinned_same_sizes _ _ (allocBuf_spares_pinned _ _ _ Halloc)) Hfit)
        as Hfit2. cbn [snd] in Hfit2.
      destruct (file_readPage filePtr pageNum (fileCalls w2)) as [pg|] eqn:Hread.
      * rewrite (readPage_miss_run file_readPage fuel filePtr pageNum w f w2 pg Hl Halloc Hread)
          in Hrun.
        injection Hrun as _ <-. by apply installed_pool_fits.
      * rewrite (readPage_miss_fail_run file_readPage fuel filePtr pageNum w f w2 Hl Halloc Hread)
          in Hrun.
        injection Hrun as _ <-. done.
    + unfold readPage, hash_lookup in Hrun. rewrite Hl, Halloc in Hrun.
      injection Hrun as _ <-.
      exact (same_sizes_pool_fits _ _
               (spares_pinned_same_sizes _ _ (allocBuf_spares_pinned _ _ _ Halloc)) Hfit).
    + unfold readPage, hash_lookup in Hrun. by rewrite Hl, Halloc in Hrun.
Qed.

Lemma allocPage_pool_fits fuel filePtr w r w' :
  allocPage file_allocatePage fuel filePtr w = Some (r, w') ->
  pool_fits (mgr w) -> pool_fits (mgr w').
Proof.
  intros Hrun Hfit.
  set (w1 := {| mgr := mgr w; fileCalls := fileCalls w ++ [CallAllocatePage filePtr] |}).
  destruct (allocBuf fuel w1) as [[[f|e] w2]|] eqn:Halloc.
  - rewrite (allocPage_run file_allocatePage fuel filePtr w f w2 Halloc) in Hrun.
    injection Hrun as _ <-. apply installed_pool_fits.
    exact (same_sizes_pool_fits w1 _
             (spares_pinned_same_sizes _ _ (allocBuf_spares_pinned _ _ _ Halloc)) Hfit).
  - unfold allocPage, do_allocatePage in Hrun. fold w1 in Hrun. rewrite Halloc in Hrun.
    injection Hrun as _ <-.
    exact (same_sizes_pool_fits w1 _
             (spares_pinned_same_sizes _ _ (allocBuf_spares_pinned _ _ _ Halloc)) Hfit).
  - unfold allocPage, do_allocatePage in Hrun. fold w1 in Hrun. by rewrite Halloc in Hrun.
Qed.

(** X19.  As long as [disposePage] is not called, the manager stays well
    formed: in every state reached from construction by [readPage],
    [unPinPage], [allocPage], [flushFile] (whether they return or raise) and
    by client writes into the pool, the descriptors are numbered by their
    index, every map entry names a valid frame that holds exactly that page,
    and the pool is as long as the descriptor table. *)
Theorem reached_well_formed (w : World) :
  reached file_readPage file_allocatePage w ->
  well_formed (mgr w) /\ pool_fits (mgr w).
Proof.
  induction 1 as [bufs|w fuel f p r w' _ [IHwf IHfit] Hrun|w f p flag _ [IHwf IHfit]
                  |w fuel f r w' _ [IHwf IHfit] Hrun|w f _ [IHwf IHfit]
                  |w fr pg _ [IHwf IHfit]].
  - split; [apply BufMgr_new_well_formed|].
    unfold pool_fits, BufMgr_new. cbn. by rewrite length_replicate, length_map, length_seq.
  - split.
    + exact (readPage_keeps_well_formed file_readPage fuel f p w _ Hrun IHwf).
    + by eapply readPage_pool_fits.
  - split; [by apply unPinPage_keeps_well_formed|].
    exact (same_sizes_pool_fits _ _ (unPinPage_same_sizes f p flag w) IHfit).
  - split.
    + exact (allocPage_keeps_well_formed file_allocatePage fuel f w _ Hrun IHwf).
    + by eapply allocPage_pool_fits.
  - split; [by apply flushFile_keeps_well_formed|].
    exact (same_sizes_pool_fits _ _
             (spares_pinned_same_sizes _ _
                (leaves_pinned_spares _ _ (flushFile_leaves_pinned f w))) IHfit).
  - split.
    + destruct IHwf as [Hnum Hsound]. split; [exact Hnum|exact Hsound].
    + unfold pool_fits. cbn. by rewrite length_insert.
Qed.

End Reached.

Lemma reached_well_formed_witness :
  reached MemFile.readPage_answer MemFile.allocatePage_answer
    (snd (unPinPage fileA 1 true
            (state_of (readPage MemFile.readPage_answer 1 fileA 1 world_fresh3) world_fresh3))) /\
  well_formed
    (mgr (snd (unPinPage fileA 1 true
                 (state_of (readPage MemFile.readPage_answer 1 fileA 1 world_fresh3)
                    world_fresh3)))) /\
  pool_fits
    (mgr (snd (unPinPage fileA 1 true
                 (state_of (readPage MemFile.readPage_answer 1 fileA 1 world_fresh3)
                    world_fresh3)))).
Proof.
  assert (H : reached MemFile.readPage_answer MemFile.allocatePage_answer
                (snd (unPinPage fileA 1 true
                        (state_of (readPage MemFile.readPage_answer 1 fileA 1 world_fresh3)
                           world_fresh3)))).
  { apply reached_unPinPage.
    apply (reached_readPage _ _ world_fresh3 1 fileA 1 (Ok 0)); [apply (reached_new _ _ 3)|].
    vm_compute. reflexivity. }
  split; [exact H|].
  exact (reached_well_formed MemFile.readPage_answer MemFile.allocatePage_answer _ H).
Defined.

(** ** The destructor *)














(** ** [disposePage] followed by [readPage] *)

Lemma disposePage_same_frames filePtr pageNum :
  relates same_frames (disposePage filePtr pageNum).
Proof.
  unfold disposePage.
  apply relates_bind; [apply same_frames_trans| |intros _; apply same_frames_log_call].
  apply relates_catch; [apply same_frames_trans| |apply relates_ret, same_frames_refl].
  apply relates_bind;
    [apply same_frames_trans|by apply relates_hash_lookup, same_frames_refl|].
  intros fr.
  apply relates_bind; [apply same_frames_trans|by apply same_frames_updDesc|].
  intros _.
  apply relates_bind; [apply same_frames_trans|by apply relates_getDesc, same_frames_refl|].
  intros d. apply same_frames_hash_remove.
Qed.

Section StaleEntry.

Variable file_readPage : FilePtr -> PageId -> list FileCall -> option Page.

(** X21.  After [disposePage] of a cached page with a non-zero number, the
    map still holds the page's entry, so a following [readPage] of the same
    page is a hit: it returns the cleared frame without reading the file (the
    only call made on the file is the [deletePage]), and pins a frame that is
    not valid. *)
Theorem readPage_after_disposePage_hits_cleared_frame (fuel : nat) (filePtr : FilePtr)
    (pageNum : PageId) (w : World) (fr : FrameId) :
  hashTable (mgr w) !! (filePtr, pageNum) = Some fr ->
  fr < numBufs (mgr w) ->
  pageNum <> 0 ->
  exists w1 w2,
    disposePage filePtr pageNum w = (Ok tt, w1) /\
    readPage file_readPage fuel filePtr pageNum w1 = Some (Ok fr, w2) /\
    fileCalls w2 = fileCalls w ++ [CallDeletePage filePtr pageNum] /\
    valid (descAt (mgr w2) fr) = false /\
    pinCnt (descAt (mgr w2) fr) = 1.
Proof.
  intros Hl Hfr Hp.
  destruct (disposePage_cached filePtr pageNum fr w Hl Hfr Hp) as (Hok & Hclr & Hstale & Hcalls).
  destruct (disposePage filePtr pageNum w) as [r w1] eqn:Hrun. cbn [fst snd] in *. subst r.
  assert (Hfr1 : fr < numBufs (mgr w1)).
  { pose proof (same_frames_numBufs _ _ (disposePage_same_frames filePtr pageNum w)) as Hn.
    rewrite Hrun in Hn. cbn [snd] in Hn. by rewrite Hn. }
  exists w1. eexists. split; [done|].
  split; [by apply readPage_hit_run|].
  cbn [mgr fileCalls]. rewrite descAt_put_desc_eq by (unfold numBufs in Hfr1; lia).
  rewrite Hclr. done.
Qed.

End StaleEntry.

Lemma readPage_after_disposePage_hits_cleared_frame_witness :
  hashTable (mgr world_full3) !! (fileA, 2) = Some 1 /\
  1 < numBufs (mgr world_full3) /\
  2 <> 0 /\
  exists w1 w2,
    disposePage fileA 2 world_full3 = (Ok tt, w1) /\
    readPage MemFile.readPage_answer 0 fileA 2 w1 = Some (Ok 1, w2) /\
    fileCalls w2 = fileCalls world_full3 ++ [CallDeletePage fileA 2] /\
    valid (descAt (mgr w2) 1) = false /\
    pinCnt (descAt (mgr w2) 1) = 1.
Proof.
  assert (H1 : hashTable (mgr world_full3) !! (fileA, 2) = Some 1) by reflexivity.
  assert (H2 : 1 < numBufs (mgr world_full3)) by reflexivity.
  assert (H3 : 2 <> 0) by discriminate.
  split; [exact H1|]. split; [exact H2|]. split; [exact H3|].
  exact (readPage_after_disposePage_hits_cleared_frame MemFile.readPage_answer 0 fileA 2
           world_full3 1 H1 H2 H3).
Defined.

(** ** More on [flushFile] *)

(** X22.  A file with a pinned page cannot be flushed: when some frame of
    the file is pinned, [flushFile] raises [PagePinnedException] (or
    [BadBufferException], when it first meets a frame of the file whose page
    number is 0) and changes nothing. *)
Theorem flushFile_refuses_pinned_file (filePtr : FilePtr) (w : World) (j : FrameId) :
  j < numBufs (mgr w) ->
  file (descAt (mgr w) j) = filePtr ->
  1 <= pinCnt (descAt (mgr w) j) ->
  exists e, flushFile filePtr w = (Throw e, w) /\ (is_PagePinned e \/ is_BadBuffer e).
Proof.
  intros Hj Hf Hp. unfold flushFile, bind, for_all_frames.
  pose proof (for_frames_check_state filePtr (length (bufDescTable (mgr w))) 0 w) as Hs.
  destruct (for_frames _ 0 (flushFile_check filePtr) w) as [[[]|e] w1] eqn:Hc;
    simpl in Hs; subst w1.
  - destruct (for_frames_check_ok filePtr _ 0 w w Hc j) as [Hz _];
      [lia|unfold numBufs in Hj; lia|done|lia].
  - exists e. split; [done|].
    apply for_frames_check_throw in Hc as (k & _ & _ & _ & [[_ ->]|(_ & _ & ->)]);
      simpl; auto.
Qed.

Lemma flushFile_refuses_pinned_file_witness :
  1 < numBufs (mgr world_mixed3) /\
  file (descAt (mgr world_mixed3) 1) = fileB /\
  1 <= pinCnt (descAt (mgr world_mixed3) 1) /\
  exists e, flushFile fileB world_mixed3 = (Throw e, world_mixed3) /\
            (is_PagePinned e \/ is_BadBuffer e).
Proof.
  assert (H1 : 1 < numBufs (mgr world_mixed3)) by reflexivity.
  assert (H2 : file (descAt (mgr world_mixed3) 1) = fileB) by reflexivity.
  assert (H3 : 1 <= pinCnt (descAt (mgr world_mixed3) 1)) by (vm_compute; discriminate).
  split; [exact H1|]. split; [exact H2|]. split; [exact H3|].
  exact (flushFile_refuses_pinned_file fileB world_mixed3 1 H1 H2 H3).
Defined.

(** X23.  Flushing twice is flushing once: after a [flushFile] of a file
    (a non-null [File*]) has returned, a second [flushFile] of the same file
    returns without writing or changing anything. *)
Theorem flushFile_twice (filePtr : FilePtr) (w w' : World) :
  filePtr <> NULL ->
  flushFile filePtr w = (Ok tt, w') ->
  flushFile filePtr w' = (Ok tt, w').
Proof.
  intros Hnull Hrun. apply flushFile_no_frame_run. intros j _.
  apply flushFile_ok in Hrun as (Htab & _).
  unfold descAt. rewrite (descAt_flushed _ (mgr w) _ Htab).
  unfold flushed_desc. destruct (file (descAt (mgr w) j) =? filePtr) eqn:Hf.
  - cbn. congruence.
  - by apply N.eqb_neq.
Qed.

Lemma flushFile_twice_witness :
  fileA <> NULL /\
  flushFile fileA world_mixed3 = (Ok tt, snd (flushFile fileA world_mixed3)) /\
  flushFile fileA (snd (flushFile fileA world_mixed3))
  = (Ok tt, snd (flushFile fileA world_mixed3)).
Proof.
  assert (H1 : fileA <> NULL) by discriminate.
  assert (H2 : flushFile fileA world_mixed3 = (Ok tt, snd (flushFile fileA world_mixed3))).
  { vm_compute. reflexivity. }
  split; [exact H1|]. split; [exact H2|].
  exact (flushFile_twice fileA world_mixed3 _ H1 H2).
Defined.
